(** * grecent: recency ranking and the interactive session

    A shallow embedding of [main.go] (the recency engine and the age
    humanizer) and of [tui.go] (the Bubble Tea model and its [Update]
    function), together with the properties the specification states
    about them.

    Conventions of the embedding.
    - A Go [string] is a [string] of bytes; a Go [int] is a [Z] (no value
      of the program comes near the 64-bit bounds: cursors are bounded by
      slice lengths).
    - A [time.Time] is the instant it denotes, a [Z] counting nanoseconds
      since the Unix epoch; [After] and [Before] compare instants.  A
      [time.Duration] is a [Z] of nanoseconds; a [float64] is a binary64
      number of the kernel.
    - Functions of the Go standard library and of the fuzzy matcher that
      the repository only calls ([time.Parse], [strings.TrimSpace],
      [fuzzy.FindNormalizedFold]) are fields of the class [GoLib]; every
      theorem holds for all instances.
    - Every process the program spawns is an event [Exec] of the program
      monad [Prog]; the environment answers it.  [fmt.Scanln] is the event
      [Scanln].  The receiver copy whose address [Update] hands to
      [readLine] lives in a cell of the store ([NewCell], [WriteSearch]). *)

From Stdlib Require Import ZArith Lia Bool Ascii String List Permutation Sorted.
From Stdlib Require Import DecimalString.
From Stdlib Require Floats Uint63.
From stdpp Require Import base option list gmap strings.

Local Open Scope string_scope.
Local Open Scope list_scope.
Local Open Scope Z_scope.

(** ** Strings as the Go code uses them *)

Module GoStrings.

(** [len(s)] *)
Definition len (s : string) : Z := Z.of_nat (String.length s).

(** [strings.Index(s, sub)]: first position of [sub] in [s], or [-1]. *)
Definition Index (s sub : string) : Z :=
  match String.index 0 sub s with
  | Some i => Z.of_nat i
  | None => -1
  end.

(** Positions of the one-byte separator [c] in [s], scanning from
    position [i]; the last one is what [strings.LastIndex] returns. *)
Fixpoint lastIndexFrom (c : ascii) (s : string) (i : Z) (found : Z) : Z :=
  match s with
  | EmptyString => found
  | String a s' =>
      lastIndexFrom c s' (i + 1) (if Ascii.eqb a c then i else found)
  end.

(** [strings.LastIndex(s, string(c))] for a one-byte [c]. *)
Definition LastIndexByte (s : string) (c : ascii) : Z :=
  lastIndexFrom c s 0 (-1).

(** The slice expression [s[lo:hi]] for [0 <= lo <= hi <= len(s)]. *)
Definition slice (s : string) (lo hi : Z) : string :=
  String.substring (Z.to_nat lo) (Z.to_nat (hi - lo)) s.

(** [strings.HasPrefix(s, p)] *)
Definition HasPrefix (s p : string) : bool := String.prefix p s.

(** [strings.TrimPrefix(s, p)] *)
Definition TrimPrefix (s p : string) : string :=
  if HasPrefix s p
  then String.substring (String.length p) (String.length s - String.length p) s
  else s.

(** Cut [s] at the first occurrence of byte [c]: the part before it and,
    when [c] occurs, the part after it. *)
Fixpoint cut (c : ascii) (s : string) : string * option string :=
  match s with
  | EmptyString => (EmptyString, None)
  | String a s' =>
      if Ascii.eqb a c then (EmptyString, Some s')
      else let '(h, t) := cut c s' in (String a h, t)
  end.

(** [strings.Split(s, string(c))]: all the fields between occurrences of
    [c]; an empty [s] has the single field [""]. *)
Fixpoint Split (s : string) (c : ascii) : list string :=
  match s with
  | EmptyString => [EmptyString]
  | String a s' =>
      if Ascii.eqb a c then EmptyString :: Split s' c
      else match Split s' c with
           | f :: fs => String a f :: fs
           | [] => [String a EmptyString]
           end
  end.

(** [strings.SplitN(s, string(c), 2)]: at most two fields, the second one
    being the unsplit remainder. *)
Definition SplitN2 (s : string) (c : ascii) : list string :=
  match cut c s with
  | (h, Some t) => [h; t]
  | (h, None) => [h]
  end.

(** [fmt.Sprintf("%d", n)] *)
Definition itoa (n : Z) : string :=
  NilZero.string_of_int (Z.to_int n).

End GoStrings.
Import GoStrings.

Definition tab : ascii := "009"%char.
Definition lf : ascii := "010"%char.
Definition cr : ascii := "013"%char.

(** ** [bufio.Scanner] with the default line splitter *)

Module Scanner.

(** [bufio.MaxScanTokenSize] *)
Definition MaxScanTokenSize : Z := 64 * 1024.

(** [bufio.ErrTooLong] *)
Definition ErrTooLong : string := "bufio.Scanner: token too long".

(** [dropCR]: a trailing carriage return is not part of the line. *)
Fixpoint dropCR (s : string) : string :=
  match s with
  | EmptyString => EmptyString
  | String a EmptyString => if Ascii.eqb a cr then EmptyString else s
  | String a s' => String a (dropCR s')
  end.

(** The pieces between line feeds; no piece comes after the last line
    feed when nothing follows it. *)
Definition rawLines (s : string) : list string :=
  let fields := Split s lf in
  match last fields with
  | Some EmptyString => removelast fields
  | _ => fields
  end.

(** A piece that fills the whole buffer before its line feed is seen
    stops the scan with [ErrTooLong]. *)
Fixpoint takeTokens (raw : list string) : list string * option string :=
  match raw with
  | [] => ([], None)
  | l :: raw' =>
      if MaxScanTokenSize <=? len l then ([], Some ErrTooLong)
      else let '(ts, e) := takeTokens raw' in (dropCR l :: ts, e)
  end.

(** All the values [scanner.Text()] takes while [scanner.Scan()] is
    true, and [scanner.Err()] afterwards. *)
Definition scanLines (out : string) : list string * option string :=
  takeTokens (rawLines out).

End Scanner.
Import Scanner.

(** ** Library functions the repository calls *)

Class GoLib := {
  (** [time.Parse(layout, value)]: the instant, or [None] on an error. *)
  time_Parse : string -> string -> option Z;
  (** [strings.TrimSpace] *)
  TrimSpace : string -> string;
  (** [fuzzy.FindNormalizedFold(source, targets)] *)
  FindNormalizedFold : string -> list string -> list string
}.

(** ** Time *)

Module Time.
Definition Nanosecond : Z := 1.
Definition Second : Z := 1000000000 * Nanosecond.
Definition Minute : Z := 60 * Second.
Definition Hour : Z := 60 * Minute.

(** [time.RFC3339] *)
Definition RFC3339 : string := "2006-01-02T15:04:05Z07:00".

(** [t.After(u)] and [t.Before(u)] *)
Definition After (t u : Z) : bool := u <? t.
Definition Before (t u : Z) : bool := t <? u.

Definition minDuration : Z := - 2 ^ 63.
Definition maxDuration : Z := 2 ^ 63 - 1.

(** [t.Sub(u)]: the difference, saturated to the range of a duration. *)
Definition Sub (t u : Z) : Z :=
  Z.max minDuration (Z.min maxDuration (t - u)).

(** [float64(n)] for an integer [n] with [|n| < 2^63]: the nearest
    binary64 number. *)
Definition float64 (n : Z) : PrimFloat.float :=
  if n <? 0 then PrimFloat.opp (PrimFloat.of_uint63 (Uint63.of_Z (- n)))
  else PrimFloat.of_uint63 (Uint63.of_Z n).

(** [int(f)] for a finite [f]: the integer part, toward zero. *)
Definition int (f : PrimFloat.float) : Z :=
  match FloatOps.Prim2SF f with
  | SpecFloat.S754_finite s m e =>
      let a := if 0 <=? e then Z.pos m * 2 ^ e else Z.quot (Z.pos m) (2 ^ (- e)) in
      if s then - a else a
  | _ => 0
  end.

(** [d.Minutes()] and [d.Hours()], as the package [time] computes them:
    the whole part and the fraction are converted apart and added. *)
Definition Minutes (d : Z) : PrimFloat.float :=
  PrimFloat.add (float64 (Z.quot d Minute))
    (PrimFloat.div (float64 (Z.rem d Minute)) (float64 (60 * 1000000000))).

Definition Hours (d : Z) : PrimFloat.float :=
  PrimFloat.add (float64 (Z.quot d Hour))
    (PrimFloat.div (float64 (Z.rem d Hour)) (float64 (60 * 60 * 1000000000))).
End Time.

(** ** The data of [main.go] *)

Record Branch := mkBranch {
  Name : string;
  CommitHash : string;
  CommitTime : Z;
  IsCurrent : bool;
  HasUpstream : bool
}.

(** Go's [error] values are kept as their message. *)
Inductive result (A : Type) : Type :=
| Ok (a : A)
| Err (e : string).
Arguments Ok {A} a.
Arguments Err {A} e.

(** ** The data of [tui.go] *)

Record model := mkModel {
  branches : list Branch;
  filtered : list Branch;
  cursor : Z;
  width : Z;
  height : Z;
  search : string;
  status : string;
  sortBy : string;
  sortDesc : bool;
  confirming : bool;
  action : string
}.

Definition set_branches (m : model) (v : list Branch) : model :=
  mkModel v (filtered m) (cursor m) (width m) (height m) (search m)
          (status m) (sortBy m) (sortDesc m) (confirming m) (action m).
Definition set_filtered (m : model) (v : list Branch) : model :=
  mkModel (branches m) v (cursor m) (width m) (height m) (search m)
          (status m) (sortBy m) (sortDesc m) (confirming m) (action m).
Definition set_cursor (m : model) (v : Z) : model :=
  mkModel (branches m) (filtered m) v (width m) (height m) (search m)
          (status m) (sortBy m) (sortDesc m) (confirming m) (action m).
Definition set_search (m : model) (v : string) : model :=
  mkModel (branches m) (filtered m) (cursor m) (width m) (height m) v
          (status m) (sortBy m) (sortDesc m) (confirming m) (action m).
Definition set_status (m : model) (v : string) : model :=
  mkModel (branches m) (filtered m) (cursor m) (width m) (height m) (search m)
          v (sortBy m) (sortDesc m) (confirming m) (action m).
Definition set_sort (m : model) (by_ : string) (desc : bool) : model :=
  mkModel (branches m) (filtered m) (cursor m) (width m) (height m) (search m)
          (status m) by_ desc (confirming m) (action m).
Definition set_confirm (m : model) (c : bool) (a : string) : model :=
  mkModel (branches m) (filtered m) (cursor m) (width m) (height m) (search m)
          (status m) (sortBy m) (sortDesc m) c a.

(** ** Programs: processes, standard input and escaped receivers *)

(** What a spawned process hands back: the bytes of its standard output
    ([cmd.Output]) and its error, if any ([cmd.Output], [cmd.Run]). *)
Record Response := mkResponse {
  stdout : string;
  failure : option string
}.

Inductive Prog (A : Type) : Type :=
| Ret (a : A)
| Exec (argv : list string) (k : Response -> Prog A)
| Scanln (k : string -> Prog A)
| NewCell (init : model) (k : nat -> Prog A)
| WriteSearch (cell : nat) (s : string) (k : Prog A).
Arguments Ret {A} a.
Arguments Exec {A} argv k.
Arguments Scanln {A} k.
Arguments NewCell {A} init k.
Arguments WriteSearch {A} cell s k.

Fixpoint bind {A B : Type} (p : Prog A) (f : A -> Prog B) : Prog B :=
  match p with
  | Ret a => f a
  | Exec argv k => Exec argv (fun r => bind (k r) f)
  | Scanln k => Scanln (fun s => bind (k s) f)
  | NewCell init k => NewCell init (fun c => bind (k c) f)
  | WriteSearch c s k => WriteSearch c s (bind k f)
  end.

Declare Scope prog_scope.
Delimit Scope prog_scope with prog.
Notation "x <- p ;; q" := (bind p (fun x => q))
  (at level 100, p at next level, right associativity) : prog_scope.
Local Open Scope prog_scope.

(** The environment: every process started so far (latest first), the
    lines still to be typed, and the cells holding receiver copies whose
    address was taken. *)
Record World := mkWorld {
  calls : list (list string);
  stdin : list string;
  cells : list model
}.

(** The answer to a process may depend on everything run before it. *)
Definition Oracle : Type := list (list string) -> list string -> Response.

Fixpoint run {A : Type} (o : Oracle) (p : Prog A) (w : World) : A * World :=
  match p with
  | Ret a => (a, w)
  | Exec argv k =>
      run o (k (o (calls w) argv)) (mkWorld (argv :: calls w) (stdin w) (cells w))
  | Scanln k =>
      match stdin w with
      | [] => run o (k EmptyString) w
      | s :: rest => run o (k s) (mkWorld (calls w) rest (cells w))
      end
  | NewCell init k =>
      run o (k (length (cells w))) (mkWorld (calls w) (stdin w) (cells w ++ [init]))
  | WriteSearch c s k =>
      run o k (mkWorld (calls w) (stdin w)
                 (alter (fun m => set_search m s) c (cells w)))
  end.

(** ** [main.go]: the recency engine *)

Section Engine.
Context `{GoLib}.
Import Time.

Definition tabS : string := String tab EmptyString.
Definition lfS : string := String lf EmptyString.

(** [cmd.Run()] of [exec.Command(argv...)] *)
Definition cmdRun (argv : list string) : Prog (option string) :=
  Exec argv (fun r => Ret (failure r)).

(** [cmd.Output()] of [exec.Command(argv...)] *)
Definition cmdOutput (argv : list string) : Prog (string * option string) :=
  Exec argv (fun r => Ret (stdout r, failure r)).

Definition fetchAll : list string :=
  ["git"; "fetch"; "--all"; "--prune"; "--tags"; "--quiet"].

Definition gitFetchAll : Prog (option string) := cmdRun fetchAll.

(** The layouts [parseGitDate] tries, in order. *)
Definition layouts : list string :=
  [ "2006-01-02 15:04:05 -0700";
    "2006-01-02 15:04:05 -07:00";
    "Mon Jan 2 15:04:05 2006 -0700";
    RFC3339 ].

Fixpoint tryLayouts (ls : list string) (s : string) : option Z :=
  match ls with
  | [] => None
  | layout :: ls' =>
      match time_Parse layout (TrimSpace s) with
      | Some t => Some t
      | None => tryLayouts ls' s
      end
  end.

Definition parseGitDate (s : string) : result Z :=
  match tryLayouts layouts s with
  | Some t => Ok t
  | None => Err ("unrecognized date: " +:+ s)
  end.

Definition normalizeUpstream (us : string) : string :=
  let us := TrimSpace us in
  if String.eqb us "" then ""
  else if HasPrefix us "refs/remotes/" then TrimPrefix us "refs/remotes/"
  else us.

(** The command lines of the four queries. *)
Definition revParseHead : list string :=
  ["git"; "rev-parse"; "--abbrev-ref"; "HEAD"].

Definition reflogLatest (branch : string) : list string :=
  ["git"; "reflog"; "--date=iso-strict"; "--pretty=%gd"; "-n"; "1";
   "refs/heads/" +:+ branch].

Definition forEachRefRemotes : list string :=
  ["git"; "for-each-ref"; "--format";
   "%(refname:short)" +:+ tabS +:+ "%(committerdate:iso-strict)";
   "refs/remotes"].

Definition forEachRefHeads : list string :=
  let format := "%(refname:short)" +:+ tabS +:+ "%(objectname)" +:+ tabS
                +:+ "%(committerdate:iso-strict)" +:+ tabS +:+ "%(upstream)" +:+ lfS in
  ["git"; "for-each-ref"; "--sort=-committerdate"; "--format"; format; "refs/heads"].

Definition getCurrentBranch : Prog (result string) :=
  oe <- cmdOutput revParseHead ;;
  let '(out, err) := oe in
  match err with
  | Some e => Ret (Err e)
  | None =>
      let branch := TrimSpace out in
      if String.eqb branch "HEAD" then Ret (Err "detached HEAD")
      else Ret (Ok branch)
  end.

(** The date between ["@{"] and the last ["}"] of a reflog selector such
    as [refs/heads/feature@{2025-08-07T11:35:23+02:00}]. *)
Definition reflogDate (line : string) : option string :=
  let start := Index line "@{" in
  let end_ := LastIndexByte line "}"%char in
  if (start =? -1) || (end_ =? -1) || (end_ <=? start + 2) then None
  else Some (slice line (start + 2) end_).

Definition getBranchReflogLatestTime (branch : string) : Prog (option Z) :=
  oe <- cmdOutput (reflogLatest branch) ;;
  let '(out, err) := oe in
  if bool_decide (err <> None) || (len out =? 0) then Ret None
  else
    let line := TrimSpace out in
    match reflogDate line with
    | None => Ret None
    | Some dateStr =>
        match time_Parse RFC3339 dateStr with
        | Some t => Ret (Some t)
        | None =>
            match parseGitDate dateStr with
            | Ok t => Ret (Some t)
            | Err _ => Ret None
            end
        end
    end.

(** The loop of [getRemoteBranchTimes] over the scanned lines. *)
Fixpoint remoteTimesOf (lines : list string) (result : gmap string Z)
  : gmap string Z :=
  match lines with
  | [] => result
  | line :: rest =>
      match SplitN2 line tab with
      | [p0; p1] =>
          let name := TrimSpace p0 in
          let dateStr := TrimSpace p1 in
          match time_Parse RFC3339 dateStr with
          | Some t => remoteTimesOf rest (<[name := t]> result)
          | None =>
              match parseGitDate dateStr with
              | Ok t => remoteTimesOf rest (<[name := t]> result)
              | Err _ => remoteTimesOf rest result
              end
          end
      | _ => remoteTimesOf rest result
      end
  end.

Definition getRemoteBranchTimes : Prog (gmap string Z) :=
  oe <- cmdOutput forEachRefRemotes ;;
  let '(out, err) := oe in
  if bool_decide (err <> None) || (len out =? 0) then Ret ∅
  else Ret (remoteTimesOf (fst (scanLines out)) ∅).

(** [sort.SliceStable(x, less)]: the stable sort of [x] by [less]
    (insertion from the right: an element passes only those strictly
    less than it). *)
Fixpoint insertStable {A : Type} (less : A -> A -> bool) (x : A) (l : list A)
  : list A :=
  match l with
  | [] => [x]
  | y :: l' => if less y x then y :: insertStable less x l' else x :: l
  end.

Fixpoint SliceStable {A : Type} (less : A -> A -> bool) (l : list A) : list A :=
  match l with
  | [] => []
  | x :: l' => insertStable less x (SliceStable less l')
  end.

(** [if t, ok := ...; ok && t.After(commitTime) { commitTime = t }] *)
Definition laterOf (cand : option Z) (commitTime : Z) : Z :=
  match cand with
  | Some t => if After t commitTime then t else commitTime
  | None => commitTime
  end.

(** [time.Parse(time.RFC3339, TrimSpace(s))], then [parseGitDate(s)]. *)
Definition parseCommitTime (commitTimeStr : string) : result Z :=
  match time_Parse RFC3339 (TrimSpace commitTimeStr) with
  | Some t => Ok t
  | None => parseGitDate commitTimeStr
  end.

(** The upstream candidate: looked up only for a non-empty upstream. *)
Definition upstreamTime (remoteTimes : gmap string Z) (upstreamShort : string)
  : option Z :=
  if String.eqb upstreamShort "" then None else remoteTimes !! upstreamShort.

(** The loop of [getRecentBranches] over the scanned lines. *)
Fixpoint scanBranches (currentBranch : string) (remoteTimes : gmap string Z)
    (lines : list string) (acc : list Branch) : Prog (result (list Branch)) :=
  match lines with
  | [] => Ret (Ok acc)
  | line :: rest =>
      match Split line tab with
      | name :: commit :: commitTimeStr :: upstreamRaw :: _ =>
          match parseCommitTime commitTimeStr with
          | Err e => Ret (Err ("parse date for " +:+ name +:+ ": " +:+ e))
          | Ok commitTime =>
              reflog <- getBranchReflogLatestTime name ;;
              let commitTime := laterOf reflog commitTime in
              let upstreamShort := normalizeUpstream upstreamRaw in
              let commitTime :=
                laterOf (upstreamTime remoteTimes upstreamShort) commitTime in
              scanBranches currentBranch remoteTimes rest
                (acc ++ [ {| Name := name;
                             CommitHash := commit;
                             CommitTime := commitTime;
                             IsCurrent := String.eqb name currentBranch;
                             HasUpstream := negb (String.eqb upstreamShort "") |} ])
          end
      | _ => scanBranches currentBranch remoteTimes rest acc
      end
  end.

Definition byTimeDesc (a b : Branch) : bool :=
  After (CommitTime a) (CommitTime b).

Definition getRecentBranches : Prog (result (list Branch)) :=
  oe <- cmdOutput forEachRefHeads ;;
  let '(out, err) := oe in
  match err with
  | Some e => Ret (Err ("git for-each-ref failed: " +:+ e))
  | None =>
      cur <- getCurrentBranch ;;
      let currentBranch := match cur with Ok b => b | Err _ => "" end in
      remoteTimes <- getRemoteBranchTimes ;;
      let '(lines, scanErr) := scanLines out in
      r <- scanBranches currentBranch remoteTimes lines [] ;;
      match r with
      | Err e => Ret (Err e)
      | Ok brs =>
          match scanErr with
          | Some e => Ret (Err e)
          | None => Ret (Ok (SliceStable byTimeDesc brs))
          end
      end
  end.

(** [humanizeTime(t)] when [time.Now()] is [now]. *)
Definition humanizeTime (now t : Z) : string :=
  let d := Sub now t in
  if d <? Minute then "just now"
  else if d <? Hour then itoa (int (Minutes d)) +:+ "m ago"
  else if d <? 24 * Hour then itoa (int (Hours d)) +:+ "h ago"
  else if d <? 30 * 24 * Hour then
    itoa (int (PrimFloat.div (Hours d) (float64 24))) +:+ "d ago"
  else if d <? 365 * 24 * Hour then
    let months := int (PrimFloat.div (Hours d) (float64 (24 * 30))) in
    if months <=? 1 then "1mo ago"
    else itoa months +:+ "mo ago"
  else
    let years := int (PrimFloat.div (Hours d) (float64 (24 * 365))) in
    if years <=? 1 then "1y ago"
    else itoa years +:+ "y ago".

End Engine.

(** ** [tui.go]: the session model and its transitions *)

(** The messages [Update] receives; [otherMsg] stands for every message
    type the switch has no case for (window size, mouse, ...). *)
Inductive Msg : Type :=
| KeyMsg (s : string)
| tickMsg
| statusMsg (s : string)
| otherMsg.

(** The commands [Update] returns.  [CmdReadLine target] is the
    closure [readLine(target)], [target] being the cell that holds the
    [search] field it writes to. *)
#[warnings="-register-all"] Inductive Cmd : Type :=
| CmdNil
| CmdQuit
| CmdTick
| CmdReadLine (target : nat)
| CmdBatch (cs : list Cmd).

Section Session.
Context `{GoLib}.
Import Time.

Definition runCmdSilent (argv : list string) : Prog (option string) :=
  cmdRun argv.

Definition gitCheckoutBranch (name : string) : Prog (option string) :=
  runCmdSilent ["git"; "checkout"; name].

Definition gitDeleteBranch (name : string) : Prog (option string) :=
  err <- runCmdSilent ["git"; "branch"; "-d"; name] ;;
  match err with
  | Some _ => runCmdSilent ["git"; "branch"; "-D"; name]
  | None => Ret None
  end.

Definition gitMergeIntoCurrent (name : string) : Prog (option string) :=
  runCmdSilent ["git"; "merge"; name].

(** The map [nameToBranch] of [applySortFilter]: a later branch of the
    same name replaces an earlier one. *)
Definition nameToBranch (bs : list Branch) : gmap string Branch :=
  foldl (fun (acc : gmap string Branch) b => <[Name b := b]> acc) ∅ bs.

(** The comparison closure handed to [sort.SliceStable]. *)
Definition viewLess (m : model) (a b : Branch) : bool :=
  if String.eqb (sortBy m) "name" then
    if sortDesc m then String.ltb (Name b) (Name a)
    else String.ltb (Name a) (Name b)
  else
    if sortDesc m then After (CommitTime a) (CommitTime b)
    else Before (CommitTime a) (CommitTime b).

Definition applySortFilter (m : model) : model :=
  let view :=
    if String.eqb (search m) "" then branches m
    else
      let names := map Name (branches m) in
      let byName := nameToBranch (branches m) in
      let matches := FindNormalizedFold (search m) names in
      omap (fun n => byName !! n) matches in
  let view :=
    if String.eqb (search m) "" then SliceStable (viewLess m) view else view in
  let m := set_filtered m view in
  let m :=
    if Z.of_nat (length (filtered m)) <=? cursor m
    then set_cursor m (Z.of_nat (length (filtered m)) - 1) else m in
  if cursor m <? 0 then set_cursor m 0 else m.

Definition initialModel (bs : list Branch) : model :=
  applySortFilter
    {| branches := bs; filtered := bs; cursor := 0; width := 0; height := 0;
       search := ""; status := ""; sortBy := "time"; sortDesc := true;
       confirming := false; action := "" |}.

Definition tick : Cmd := CmdTick.

(** [case k1, k2, ...:] of a switch over the key name. *)
Definition isKey (s : string) (ks : list string) : bool :=
  existsb (String.eqb s) ks.

(** [m.cursor >= 0 && m.cursor < len(m.filtered)], then
    [m.filtered[m.cursor]]. *)
Definition atCursor (m : model) : option Branch :=
  if (0 <=? cursor m) && (cursor m <? Z.of_nat (length (filtered m)))
  then filtered m !! Z.to_nat (cursor m)
  else None.

(** After a successful delete or merge: reload, keeping the old
    snapshot when the reload fails. *)
Definition reloadQuietly (m : model) : Prog model :=
  r <- getRecentBranches ;;
  match r with
  | Ok brs => Ret (applySortFilter (set_branches m brs))
  | Err _ => Ret m
  end.

(** The case ["y", "Y"] of the confirmation switch. *)
Definition confirmYes (m : model) : Prog (model * Cmd) :=
  m <- match atCursor m with
       | Some b =>
           if String.eqb (action m) "delete" then
             if IsCurrent b then Ret (set_status m "cannot delete current branch")
             else
               err <- gitDeleteBranch (Name b) ;;
               match err with
               | Some e => Ret (set_status m ("delete failed: " +:+ e))
               | None => reloadQuietly (set_status m ("deleted " +:+ Name b))
               end
           else if String.eqb (action m) "merge" then
             if IsCurrent b then Ret (set_status m "already on this branch")
             else
               err <- gitMergeIntoCurrent (Name b) ;;
               match err with
               | Some e => Ret (set_status m ("merge failed: " +:+ e))
               | None =>
                   reloadQuietly
                     (set_status m ("merged " +:+ Name b +:+ " into current"))
               end
           else Ret m
       | None => Ret m
       end ;;
  Ret (set_confirm m false "", CmdNil).

(** The case ["n", "N", "esc"] of the confirmation switch. *)
Definition confirmNo (m : model) : Prog (model * Cmd) :=
  Ret (set_confirm (set_status m "cancelled") false "", CmdNil).

(** The case ["s"]: the chain of conditionals on [sortBy], [sortDesc]. *)
Definition toggleSort (m : model) : model :=
  if String.eqb (sortBy m) "time" then set_sort m "name" false
  else if String.eqb (sortBy m) "name" && negb (sortDesc m) then set_sort m "time" false
  else if String.eqb (sortBy m) "time" && negb (sortDesc m) then set_sort m "name" true
  else set_sort m "time" true.

(** The cases ["r"] and ["f"] after the optional fetch. *)
Definition reload (m : model) (failed done_ : string) : Prog (model * Cmd) :=
  r <- getRecentBranches ;;
  match r with
  | Err e => Ret (set_status m (failed +:+ e), CmdNil)
  | Ok brs =>
      Ret (set_status (applySortFilter (set_branches m brs)) done_, CmdNil)
  end.

Definition readLine (target : nat) : Cmd := CmdReadLine target.

(** The second switch of the [tea.KeyMsg] case. *)
Definition keySwitch (m : model) (s : string) : Prog (model * Cmd) :=
  if isKey s ["ctrl+c"; "q"] then Ret (m, CmdQuit)
  else if isKey s ["up"; "k"] then
    Ret (if 0 <? cursor m then set_cursor m (cursor m - 1) else m, CmdNil)
  else if isKey s ["down"; "j"] then
    Ret (if cursor m <? Z.of_nat (length (filtered m)) - 1
         then set_cursor m (cursor m + 1) else m, CmdNil)
  else if isKey s ["home"; "g"] then Ret (set_cursor m 0, CmdNil)
  else if isKey s ["end"; "G"] then
    Ret (if 0 <? Z.of_nat (length (filtered m))
         then set_cursor m (Z.of_nat (length (filtered m)) - 1) else m, CmdNil)
  else if isKey s ["/"] then
    let m := set_status m "Search: type to filter, press Enter to apply, Esc to clear" in
    (* [m] is the receiver copy of this call: [&m.search] makes it escape,
       and the model returned is a copy of it *)
    NewCell m (fun target => Ret (m, readLine target))
  else if isKey s ["esc"] then Ret (applySortFilter (set_search m ""), CmdNil)
  else if isKey s ["enter"] then
    match atCursor m with
    | Some b =>
        err <- gitCheckoutBranch (Name b) ;;
        match err with
        | Some e => Ret (set_status m ("checkout failed: " +:+ e), CmdNil)
        | None => Ret (set_status m ("checked out " +:+ Name b), CmdNil)
        end
    | None => Ret (m, CmdNil)
    end
  else if isKey s ["x"; "delete"] then
    match atCursor m with
    | Some b =>
        Ret (set_status (set_confirm m true "delete")
               ("delete " +:+ Name b +:+ "? y/N"), CmdNil)
    | None => Ret (m, CmdNil)
    end
  else if isKey s ["m"] then
    match atCursor m with
    | Some b =>
        Ret (set_status (set_confirm m true "merge")
               ("merge " +:+ Name b +:+ " into current? y/N"), CmdNil)
    | None => Ret (m, CmdNil)
    end
  else if isKey s ["r"] then reload m "refresh failed: " "refreshed"
  else if isKey s ["f"] then
    _ <- gitFetchAll ;;
    reload m "fetch failed: " "fetched"
  else if isKey s ["s"] then Ret (applySortFilter (toggleSort m), CmdNil)
  else Ret (m, CmdNil).

Definition Update (m : model) (msg : Msg) : Prog (model * Cmd) :=
  match msg with
  | KeyMsg s =>
      if confirming m then
        if isKey s ["y"; "Y"] then confirmYes m
        else if isKey s ["n"; "N"; "esc"] then confirmNo m
        else keySwitch m s
      else keySwitch m s
  | tickMsg => Ret (m, CmdBatch [tick])
  | statusMsg s => Ret (set_status m s, CmdNil)
  | otherMsg => Ret (m, CmdNil)
  end.

(** The closure [readLine] returns, run by the Bubble Tea runtime. *)
Definition runReadLine (target : nat) : Prog Msg :=
  Scanln (fun s => WriteSearch target s (Ret (statusMsg "filter applied"))).

(** One message through the runtime: [Update], and when the command
    returned is the line reader, its run and the [Update] for the message
    it produces. *)
Definition dispatch (m : model) (msg : Msg) : Prog model :=
  mc <- Update m msg ;;
  match snd mc with
  | CmdReadLine target =>
      msg' <- runReadLine target ;;
      mc' <- Update (fst mc) msg' ;;
      Ret (fst mc')
  | _ => Ret (fst mc)
  end.

(** A sequence of messages, one after the other. *)
Fixpoint dispatchAll (m : model) (msgs : list Msg) : Prog model :=
  match msgs with
  | [] => Ret m
  | msg :: rest => m' <- dispatch m msg ;; dispatchAll m' rest
  end.

End Session.

(** ** A sample instance of the library functions

    Used to run the embedding on concrete inputs.  [TrimSpace] and
    [FindNormalizedFold] are the library functions restricted to ASCII
    input; [time_Parse] knows the RFC 3339 dates listed in [knownDates]
    and rejects every other string. *)

Module Sample.

Definition isSpace (a : ascii) : bool :=
  existsb (Ascii.eqb a) [" "%char; "009"%char; "010"%char; "011"%char;
                         "012"%char; "013"%char].

Fixpoint trimLeft (s : string) : string :=
  match s with
  | EmptyString => EmptyString
  | String a s' => if isSpace a then trimLeft s' else s
  end.

Fixpoint trimRight (s : string) : string :=
  match s with
  | EmptyString => EmptyString
  | String a s' =>
      match trimRight s' with
      | EmptyString => if isSpace a then EmptyString else String a EmptyString
      | r => String a r
      end
  end.

Definition trimSpace (s : string) : string := trimRight (trimLeft s).

Definition lower (a : ascii) : ascii :=
  let n := N_of_ascii a in
  if ((65 <=? n) && (n <=? 90))%N then ascii_of_N (n + 32) else a.

Fixpoint fold (s : string) : string :=
  match s with
  | EmptyString => EmptyString
  | String a s' => String (lower a) (fold s')
  end.

(** Every byte of [source] occurs in [target], in order. *)
Fixpoint matchTransformed (target source : string) : bool :=
  match source, target with
  | EmptyString, _ => true
  | _, EmptyString => false
  | String c source', String d target' =>
      if Ascii.eqb c d then matchTransformed target' source'
      else matchTransformed target' source
  end.

Definition find (source : string) (targets : list string) : list string :=
  filter (fun t => matchTransformed (fold t) (fold source) = true) targets.

Definition knownDates : list (string * Z) :=
  [ ("2023-06-01T00:00:00Z", 1685577600 * Time.Second);
    ("2024-01-01T00:00:00Z", 1704067200 * Time.Second);
    ("2024-05-01T00:00:00Z", 1714521600 * Time.Second);
    ("2024-06-01T00:00:00Z", 1717200000 * Time.Second) ].

Definition parse (layout value : string) : option Z :=
  if String.eqb layout Time.RFC3339
  then snd <$> List.find (fun kv => String.eqb (fst kv) value) knownDates
  else None.

Definition lib : GoLib :=
  {| time_Parse := parse; TrimSpace := trimSpace; FindNormalizedFold := find |}.

(** An environment that answers a process by the first entry of a table
    whose command line matches, and by an empty success otherwise. *)
Definition table (t : list (list string * Response)) : Oracle :=
  fun _ argv =>
    match List.find (fun e => bool_decide (fst e = argv)) t with
    | Some e => snd e
    | None => mkResponse "" None
    end.

Definition emptyWorld : World := mkWorld [] [] [].

End Sample.


(** ** [main.go]: the command line and the three outputs *)

(** [strconv.Atoi]: the integer, or [None] on an error. *)
Class GoConv := {
  Atoi : string -> option Z
}.

(** The variables [main] sets from the command line. *)
Record Flags := mkFlags {
  limit : Z;
  jsonOut : bool;
  doFetch : bool;
  forceTUI : bool;
  disableTUI : bool
}.

(** How the flag loop of [main] ends: past the last argument, in
    [usage(); return], or in [fatal(...)]. *)
Inductive Parsed : Type :=
| Parsed_run (f : Flags)
| Parsed_usage
| Parsed_fatal (msg : string).

(** The arguments of the [Printf] of one line of the plain listing. *)
Record Row := mkRow {
  row_current : string;
  row_name : string;
  row_hash : string;
  row_age : string
}.

(** What [main] ends in: [fatal] with its message, [usage], the JSON
    encoding of a list, the interactive program started on a model, or the
    plain listing. *)
Inductive Outcome : Type :=
| Exit1 (msg : string)
| Usage
| Json (bs : list Branch)
| Tui (m : model)
| Plain (rows : list Row).

Section Main.
Context `{GoLib} `{GoConv}.

(** [strings.Contains(arg, "=")] *)
Definition hasEquals (arg : string) : bool :=
  negb (Index arg "=" =? -1).

(** The test of the first [if] of the flag loop. *)
Definition isLimitFlag (arg : string) : bool :=
  String.eqb arg "-n" || String.eqb arg "--n"
  || HasPrefix arg "--n=" || HasPrefix arg "-n="
  || HasPrefix arg "--limit=" || HasPrefix arg "-limit=".

(** [strings.SplitN(arg, "=", 2)[1]] for an [arg] that holds ["="]. *)
Definition afterEquals (arg : string) : string :=
  match SplitN2 arg "="%char with
  | [_; v] => v
  | _ => ""
  end.

Definition withLimit (f : Flags) (v : Z) : Flags :=
  mkFlags v (jsonOut f) (doFetch f) (forceTUI f) (disableTUI f).

(** [v, err := strconv.Atoi(val)] and the test that follows. *)
Definition limitValue (val : string) : result Z :=
  match Atoi val with
  | None => Err ("invalid -n value: " +:+ val)
  | Some v => if v <=? 0 then Err ("invalid -n value: " +:+ val) else Ok v
  end.

(** The flag loop of [main] over [os.Args[1:]]. *)
Fixpoint parseArgs (args : list string) (f : Flags) : Parsed :=
  match args with
  | [] => Parsed_run f
  | arg :: rest =>
      if isLimitFlag arg then
        if hasEquals arg then
          match limitValue (afterEquals arg) with
          | Err e => Parsed_fatal e
          | Ok v => parseArgs rest (withLimit f v)
          end
        else
          match rest with
          | val :: rest' =>
              match limitValue val with
              | Err e => Parsed_fatal e
              | Ok v => parseArgs rest' (withLimit f v)
              end
          | [] => Parsed_fatal "-n flag requires a value"
          end
      else if String.eqb arg "-json" || String.eqb arg "--json" then
        parseArgs rest (mkFlags (limit f) true (doFetch f) (forceTUI f) (disableTUI f))
      else if String.eqb arg "--fetch" then
        parseArgs rest (mkFlags (limit f) (jsonOut f) true (forceTUI f) (disableTUI f))
      else if String.eqb arg "--tui" then
        parseArgs rest (mkFlags (limit f) (jsonOut f) (doFetch f) true (disableTUI f))
      else if String.eqb arg "--no-tui" then
        parseArgs rest (mkFlags (limit f) (jsonOut f) (doFetch f) (forceTUI f) true)
      else if String.eqb arg "-h" || String.eqb arg "--help" || String.eqb arg "help" then
        Parsed_usage
      else parseArgs rest f
  end.

(** The values of the variables before the loop. *)
Definition defaults : Flags := mkFlags 10 false false false false.

Definition insideWorkTree : list string :=
  ["git"; "rev-parse"; "--is-inside-work-tree"].

Definition isGitRepo : Prog bool :=
  oe <- cmdOutput insideWorkTree ;;
  let '(out, err) := oe in
  match err with
  | Some _ => Ret false
  | None => Ret (String.eqb (TrimSpace out) "true")
  end.

(** [if len(hash) > 7 { hash = hash[:7] }] *)
Definition shortHash (hash : string) : string :=
  if 7 <? len hash then slice hash 0 7 else hash.

(** [if len(branches) > limit { branches = branches[:limit] }] *)
Definition truncate (n : Z) (branches : list Branch) : list Branch :=
  if n <? Z.of_nat (length branches) then take (Z.to_nat n) branches else branches.

(** One line of the plain listing, [now] being what [time.Now()] reads
    while it is printed. *)
Definition plainRow (now : Z) (b : Branch) : Row :=
  {| row_current := if IsCurrent b then "*" else " ";
     row_name := Name b;
     row_hash := shortHash (CommitHash b);
     row_age := humanizeTime now (CommitTime b) |}.

(** [main], given [os.Args[1:]], whether standard output is a terminal,
    and the clock readings for the lines of the plain listing. *)
Definition main (args : list string) (isTerminal : bool) (clock : nat -> Z)
  : Prog Outcome :=
  match parseArgs args defaults with
  | Parsed_usage => Ret Usage
  | Parsed_fatal msg => Ret (Exit1 msg)
  | Parsed_run f =>
      repo <- isGitRepo ;;
      if negb repo then
        Ret (Exit1 "not a git repository (or any of the parent directories): .git")
      else
        _ <- (if doFetch f then gitFetchAll else Ret None) ;;
        r <- getRecentBranches ;;
        match r with
        | Err e => Ret (Exit1 e)
        | Ok branches =>
            let branches := truncate (limit f) branches in
            if jsonOut f then Ret (Json branches)
            else if (forceTUI f || (isTerminal && negb (disableTUI f)))
                    && negb (jsonOut f)
            then Ret (Tui (initialModel branches))
            else Ret (Plain (imap (fun i b => plainRow (clock i) b) branches))
        end
  end.

End Main.
(** ** Vocabulary of the properties *)

(** Every outcome of a program satisfies [P], whatever the environment
    answers. *)
Fixpoint AllRet {A : Type} (P : A -> Prop) (p : Prog A) : Prop :=
  match p with
  | Ret a => P a
  | Exec _ k => forall r, AllRet P (k r)
  | Scanln k => forall s, AllRet P (k s)
  | NewCell _ k => forall c, AllRet P (k c)
  | WriteSearch _ _ k => AllRet P k
  end.

Section Vocabulary.
Context `{GoLib}.

(** One press of [s]: the sort settings afterwards. *)
Definition afterS (m : model) : model := applySortFilter (toggleSort m).

(** The candidates that are present, and the largest of a first value and
    further ones. *)
Definition present (c : option Z) : list Z := option_list c.

Definition maxOf (first : Z) (others : list Z) : Z := fold_right Z.max first others.

(** The branch name and the tip date of a line of [git for-each-ref]
    output that has its four fields. *)
Definition lineName (line : string) : option string :=
  match Split line tab with
  | name :: _ :: _ :: _ :: _ => Some name
  | _ => None
  end.

Definition lineTip (line : string) : option string :=
  match Split line tab with
  | _ :: _ :: commitTimeStr :: _ :: _ => Some commitTimeStr
  | _ => None
  end.

(** The branches in the order the gateway lists them. *)
Definition enumeration (out : string) : list string :=
  omap lineName (fst (scanLines out)).

(** Most recent first. *)
Definition newerFirst (a b : Branch) : Prop := CommitTime b <= CommitTime a.

(** The records of [l] whose activity time is [t], in their order. *)
Definition atTime (t : Z) (l : list Branch) : list Branch :=
  List.filter (fun b => CommitTime b =? t) l.

(** The cursor points into the view, and is zero on an empty view. *)
Definition cursor_ok (m : model) : Prop :=
  (filtered m = [] -> cursor m = 0) /\
  (filtered m <> [] -> 0 <= cursor m < Z.of_nat (length (filtered m))).

(** A transition either leaves the snapshot and the view as they were, or
    ends with a view that is the one computed from the state it ends
    in. *)
Definition snapshot_step (m m' : model) : Prop :=
  (branches m' = branches m /\ filtered m' = filtered m) \/
  filtered m' = filtered (applySortFilter m').

(** The world once [argv] has been run. *)
Definition ran (argv : list string) (w : World) : World :=
  mkWorld (argv :: calls w) (stdin w) (cells w).

End Vocabulary.

(** ** Concrete repositories and sessions *)

Module Scenario.
Import Sample.

Definition day (d : string) : Z :=
  match parse Time.RFC3339 d with Some t => t | None => 0 end.

Definition main : Branch :=
  {| Name := "main"; CommitHash := "aaaaaaaa";
     CommitTime := day "2024-01-01T00:00:00Z";
     IsCurrent := true; HasUpstream := false |}.

Definition feature : Branch :=
  {| Name := "feature"; CommitHash := "bbbbbbbbb";
     CommitTime := day "2024-06-01T00:00:00Z";
     IsCurrent := false; HasUpstream := true |}.

Definition topic : Branch :=
  {| Name := "topic"; CommitHash := "ccccccccc";
     CommitTime := day "2024-05-01T00:00:00Z";
     IsCurrent := false; HasUpstream := false |}.

Definition line (name hash date upstream : string) : string :=
  name +:+ tabS +:+ hash +:+ tabS +:+ date +:+ tabS +:+ upstream +:+ lfS.

(** [main] (tip 2024-01-01, no reflog entry, no upstream) and [feature]
    (tip 2023-06-01, reflog 2024-06-01, upstream tip 2024-05-01). *)
Definition listing : string :=
  line "main" "aaaaaaaa" "2024-01-01T00:00:00Z" ""
  +:+ line "feature" "bbbbbbbbb" "2023-06-01T00:00:00Z" "refs/remotes/origin/feature".

Definition repo : list (list string * Response) :=
  [ (forEachRefHeads, mkResponse listing None);
    (revParseHead, mkResponse ("main" +:+ lfS) None);
    (reflogLatest "feature",
     mkResponse ("feature@{2024-06-01T00:00:00Z}" +:+ lfS) None);
    (forEachRefRemotes,
     mkResponse ("origin/feature" +:+ tabS +:+ "2024-05-01T00:00:00Z" +:+ lfS) None) ].

Definition git : Oracle := table repo.

(** The same repository with the network down. *)
Definition offline : Oracle :=
  table ((fetchAll, mkResponse "" (Some "exit status 1")) :: repo).

(** The same repository where every [git branch], [git merge] and
    [git checkout] on [topic] fails, and so does the branch listing made
    after a fetch. *)
Definition failing : Oracle :=
  fun history argv =>
    if bool_decide (argv = ["git"; "branch"; "-d"; "topic"])
       || bool_decide (argv = ["git"; "branch"; "-D"; "topic"])
       || bool_decide (argv = ["git"; "merge"; "topic"])
       || bool_decide (argv = ["git"; "checkout"; "topic"])
       || (bool_decide (argv = forEachRefHeads) && bool_decide (history <> []))
    then mkResponse "" (Some "exit status 1")
    else git history argv.

(** A listing whose second line has a tip date that is no date, while its
    reflog and upstream dates are fine. *)
Definition brokenListing : string :=
  line "main" "aaaaaaaa" "2024-01-01T00:00:00Z" ""
  +:+ line "feature" "bbbbbbbbb" "yesterday" "refs/remotes/origin/feature".

Definition broken : Oracle :=
  table ((forEachRefHeads, mkResponse brokenListing None) :: repo).

(** A repository whose reflog and remote dates are no dates. *)
Definition stale : Oracle :=
  table [ (forEachRefHeads, mkResponse listing None);
          (revParseHead, mkResponse ("main" +:+ lfS) None);
          (reflogLatest "feature", mkResponse ("feature@{sometime}" +:+ lfS) None);
          (forEachRefRemotes,
           mkResponse ("origin/feature" +:+ tabS +:+ "never" +:+ lfS) None) ].

(** The session opened on [main] alone. *)
Definition onMain : model := @initialModel lib [main].

(** The session opened on [feature], [topic] and [main]. *)
Definition three : model := @initialModel lib [feature; topic; main].

(** The same session, asking to confirm the deletion of the branch under
    the cursor, the cursor being on [main]. *)
Definition deletingMain : model :=
  set_confirm (set_cursor three 2) true "delete".

(** The same sessions, asking to confirm an action on [topic]. *)
Definition deletingTopic : model :=
  set_confirm (set_cursor three 1) true "delete".

Definition mergingTopic : model :=
  set_confirm (set_cursor three 1) true "merge".

(** The ranking of the repository, its remote times, and the line of
    [feature] in its listing. *)
Definition ranked : list Branch :=
  match fst (run git (@getRecentBranches lib) emptyWorld) with
  | Ok l => l
  | Err _ => []
  end.

Definition remotes : gmap string Z :=
  fst (run git (@getRemoteBranchTimes lib) emptyWorld).

Definition featureLine : string :=
  "feature" +:+ tabS +:+ "bbbbbbbbb" +:+ tabS +:+ "2023-06-01T00:00:00Z"
  +:+ tabS +:+ "refs/remotes/origin/feature".

Definition brokenLine : string :=
  "feature" +:+ tabS +:+ "bbbbbbbbb" +:+ tabS +:+ "yesterday"
  +:+ tabS +:+ "refs/remotes/origin/feature".

(** The user is about to type [feat]. *)
Definition typing : World := mkWorld [] ["feat"] [].

End Scenario.


(** ** Vocabulary of the further properties *)

(** Every process a program can start has a command line satisfying
    [P], whatever the environment answers. *)
Fixpoint AllCalls {A : Type} (P : list string -> Prop) (p : Prog A) : Prop :=
  match p with
  | Ret _ => True
  | Exec argv k => P argv /\ forall r, AllCalls P (k r)
  | Scanln k => forall s, AllCalls P (k s)
  | NewCell _ k => forall c, AllCalls P (k c)
  | WriteSearch _ _ k => AllCalls P k
  end.

Section MoreVocabulary.
Context `{GoLib}.

(** The branches whose reflog the loop of [getRecentBranches] asks for:
    those of the lines with four fields, up to the first tip date that
    does not parse. *)
Fixpoint queried (lines : list string) : list string :=
  match lines with
  | [] => []
  | line :: rest =>
      match Split line tab with
      | name :: _ :: commitTimeStr :: _ :: _ =>
          match parseCommitTime commitTimeStr with
          | Ok _ => name :: queried rest
          | Err _ => []
          end
      | _ => queried rest
      end
  end.

(** The name [getRecentBranches] compares branch names with: the trimmed
    answer of [git rev-parse --abbrev-ref HEAD], or the empty string when
    that fails or answers [HEAD]. *)
Definition currentName (r : Response) : string :=
  match failure r with
  | Some _ => ""
  | None => if String.eqb (TrimSpace (stdout r)) "HEAD" then "" else TrimSpace (stdout r)
  end.

(** A line of the remote listing that gives [name] the time [t]. *)
Definition givesTime (line name : string) (t : Z) : Prop :=
  exists p0 p1,
    SplitN2 line tab = [p0; p1] /\ TrimSpace p0 = name /\
    (time_Parse Time.RFC3339 (TrimSpace p1) = Some t \/
     (time_Parse Time.RFC3339 (TrimSpace p1) = None /\
      parseGitDate (TrimSpace p1) = Ok t)).

(** The read-only queries of the recency engine. *)
Definition isQuery (argv : list string) : Prop :=
  argv = forEachRefHeads \/ argv = revParseHead \/ argv = forEachRefRemotes \/
  exists branch, argv = reflogLatest branch.

(** The view is the one [applySortFilter] computes from the state. *)
Definition view_ok (m : model) : Prop :=
  filtered m = filtered (applySortFilter m).

(** Snapshot, view, search text and sort settings are those of [m]. *)
Definition inputs_kept (m m' : model) : Prop :=
  branches m' = branches m /\ filtered m' = filtered m /\
  search m' = search m /\ sortBy m' = sortBy m /\ sortDesc m' = sortDesc m.

(** The cursor [applySortFilter] leaves for a view of [n] rows. *)
Definition clampCursor (c n : Z) : Z :=
  let c := if n <=? c then n - 1 else c in
  if c <? 0 then 0 else c.

(** Either the inputs of the view are kept, or the view is recomputed. *)
Definition viewStep (m m' : model) : Prop := inputs_kept m m' \/ view_ok m'.

(** The search text is kept or cleared. *)
Definition searchStep (m m' : model) : Prop :=
  search m' = search m \/ search m' = "".

(** Row [a] may stand before row [b] under the sort settings of [m]: by
    name when [sortBy] is ["name"], by time otherwise. *)
Definition inOrder (m : model) (a b : Branch) : Prop :=
  if String.eqb (sortBy m) "name" then
    if sortDesc m then String.leb (Name b) (Name a) = true
    else String.leb (Name a) (Name b) = true
  else
    if sortDesc m then CommitTime b <= CommitTime a
    else CommitTime a <= CommitTime b.

(** [b] has the sort key of [k] under the sort settings of [m]. *)
Definition sameKey (m : model) (k b : Branch) : bool :=
  if String.eqb (sortBy m) "name" then String.eqb (Name b) (Name k)
  else CommitTime b =? CommitTime k.

(** The command lines [Update] may run on a message: the queries of a
    ranking on [r]; the fetch and the queries on [f]; the checkout of the
    branch under the cursor on [enter]; and on [y] or [Y] in the
    confirmation state, for a branch under the cursor that is not marked
    current, its safe and forced delete or its merge, as the pending
    action says, followed by the queries.  No other message runs
    anything. *)
Definition allowed (m : model) (msg : Msg) (argv : list string) : Prop :=
  match msg with
  | KeyMsg s =>
      (s = "r" /\ isQuery argv) \/
      (s = "f" /\ (argv = fetchAll \/ isQuery argv)) \/
      (s = "enter" /\
       exists b, atCursor m = Some b /\ argv = ["git"; "checkout"; Name b]) \/
      ((s = "y" \/ s = "Y") /\ confirming m = true /\
       exists b, atCursor m = Some b /\ IsCurrent b = false /\
         ((action m = "delete" /\
           (argv = ["git"; "branch"; "-d"; Name b] \/
            argv = ["git"; "branch"; "-D"; Name b] \/ isQuery argv)) \/
          (action m = "merge" /\
           (argv = ["git"; "merge"; Name b] \/ isQuery argv))))
  | _ => False
  end.

(** The model after the reload that follows a successful delete or
    merge: the new ranking when there is one, the old snapshot
    otherwise. *)
Definition afterReload (m : model) (r : result (list Branch)) : model :=
  match r with
  | Ok brs => applySortFilter (set_branches m brs)
  | Err _ => m
  end.

End MoreVocabulary.

Section MainVocabulary.
Context `{GoLib} `{GoConv}.

(** The answer that makes [isGitRepo] true. *)
Definition saysInside (r : Response) : bool :=
  match failure r with
  | Some _ => false
  | None => String.eqb (TrimSpace (stdout r)) "true"
  end.

(** The world in which [main] runs the ranking: after the repository
    check and, with [--fetch], after the fetch. *)
Definition beforeRanking (f : Flags) (w : World) : World :=
  if doFetch f then ran fetchAll (ran insideWorkTree w) else ran insideWorkTree w.

(** The output mode [main] chooses. *)
Definition present_ (f : Flags) (isTerminal : bool) (clock : nat -> Z)
    (shown : list Branch) : Outcome :=
  if jsonOut f then Json shown
  else if forceTUI f || (isTerminal && negb (disableTUI f))
  then Tui (initialModel shown)
  else Plain (imap (fun i b => plainRow (clock i) b) shown).

End MainVocabulary.

(** ** A concrete command line and repository check *)

Module MainScenario.
Import Sample.

Definition digit (a : ascii) : option Z :=
  let n := Z.of_nat (nat_of_ascii a) in
  if (48 <=? n) && (n <=? 57) then Some (n - 48) else None.

Fixpoint digits (s : string) (acc : Z) : option Z :=
  match s with
  | EmptyString => Some acc
  | String a rest =>
      match digit a with
      | Some d => digits rest (10 * acc + d)
      | None => None
      end
  end.

(** [strconv.Atoi] on ASCII input: an optional sign, then one decimal
    digit or more, the value within the range of a 64-bit [int]. *)
Definition atoi (s : string) : option Z :=
  let signed :=
    match s with
    | EmptyString => None
    | String "-" EmptyString | String "+" EmptyString => None
    | String "-" rest => Z.opp <$> digits rest 0
    | String "+" rest => digits rest 0
    | _ => digits s 0
    end in
  match signed with
  | Some v => if (- 2 ^ 63 <=? v) && (v <? 2 ^ 63) then Some v else None
  | None => None
  end.

Definition conv : GoConv := {| Atoi := atoi |}.

(** The repository of [Scenario], answering the work-tree check. *)
Definition inRepo : Oracle :=
  table ((insideWorkTree, mkResponse ("true" +:+ lfS) None) :: Scenario.repo).

(** [grecent -n 1 --no-tui] *)
Definition oneLine : list string := ["-n"; "1"; "--no-tui"].

Definition oneLineFlags : Flags := mkFlags 1 false false false true.

(** The session of [Scenario.three] with a search text. *)
Definition searching : model := set_search Scenario.three "feat".

End MainScenario.

(** ** The candidates of the activity time *)

(** The three candidates of a branch: the time of its tip commit, the
    time of its latest reflog entry when there is one, and the tip time
    of the remote-tracking ref it tracks when it tracks one that is
    listed. *)
Record Candidates := mkCandidates {
  tipTime : Z;
  localWork : option Z;
  upstreamTip : option Z
}.

Section CandidateVocabulary.
Context `{GoLib}.

(** The largest of the candidates that are present. *)
Definition activityTime (c : Candidates) : Z :=
  maxOf (tipTime c) (present (localWork c) ++ present (upstreamTip c)).

(** [s] without its prefix [p], when it starts with [p]. *)
Fixpoint stripPrefix (p s : string) : option string :=
  match p, s with
  | EmptyString, _ => Some s
  | String a p', String b s' => if Ascii.eqb a b then stripPrefix p' s' else None
  | String _ _, EmptyString => None
  end.

(** The ref a branch tracks, as its listing line tells: the field
    [%(upstream)], trimmed, reads [refs/remotes/<ref>] or [<ref>]; an
    empty field, or an empty [<ref>], says that it tracks none. *)
Definition trackedRef (upstreamField : string) : option string :=
  let us := TrimSpace upstreamField in
  let ref := match stripPrefix "refs/remotes/" us with
             | Some short => short
             | None => us
             end in
  if String.eqb ref "" then None else Some ref.

(** The third candidate: the time the remote listing gives the tracked
    ref; none for a branch that tracks no ref, or one that is not
    listed. *)
Definition upstreamTipOf (remoteTimes : gmap string Z) (upstreamField : string)
  : option Z :=
  match trackedRef upstreamField with
  | Some ref => remoteTimes !! ref
  | None => None
  end.

(** The branches of a listing with their candidates, in listing order:
    one entry per line with four fields, the reflog of each branch being
    asked once the reflogs of the branches before it have been; no
    candidates for a tip date that does not parse. *)
Fixpoint candidatesOf (o : Oracle) (remoteTimes : gmap string Z)
    (lines : list string) (w : World) : list (string * option Candidates) :=
  match lines with
  | [] => []
  | line :: rest =>
      match Split line tab with
      | name :: _ :: tipDate :: upstreamField :: _ =>
          (name,
           match parseCommitTime tipDate with
           | Ok tip =>
               Some {| tipTime := tip;
                       localWork := fst (run o (getBranchReflogLatestTime name) w);
                       upstreamTip := upstreamTipOf remoteTimes upstreamField |}
           | Err _ => None
           end)
          :: candidatesOf o remoteTimes rest (ran (reflogLatest name) w)
      | _ => candidatesOf o remoteTimes rest w
      end
  end.

(** The record [b] is the branch [entry] with the maximum of its
    candidates as activity time. *)
Definition carries (b : Branch) (entry : string * option Candidates) : Prop :=
  Name b = fst entry /\
  exists c, snd entry = Some c /\ CommitTime b = activityTime c.

End CandidateVocabulary.

(** ** The age in whole units *)

Section AgeVocabulary.
Import Time.









End AgeVocabulary.
(** * Properties *)

(** ** Running programs *)

Section RunLemmas.
Context {A B : Type}.

Lemma run_bind (o : Oracle) (p : Prog A) (f : A -> Prog B) (w : World) :
  run o (bind p f) w = run o (f (fst (run o p w))) (snd (run o p w)).
Proof.
  revert w. induction p as [a|argv k IH|k IH|init k IH|c s k IH]; intros w; simpl.
  - reflexivity.
  - apply IH.
  - destruct (stdin w); apply IH.
  - apply IH.
  - apply IH.
Qed.

Lemma AllRet_run (P : A -> Prop) (p : Prog A) :
  AllRet P p -> forall o w, P (fst (run o p w)).
Proof.
  induction p as [a|argv k IH|k IH|init k IH|c s k IH]; simpl; intros HP o w.
  - exact HP.
  - apply IH, HP.
  - destruct (stdin w); apply IH, HP.
  - apply IH, HP.
  - apply IH, HP.
Qed.

Lemma AllRet_any (p : Prog A) : AllRet (fun _ => True) p.
Proof. induction p; simpl; auto. Qed.

End RunLemmas.

Lemma AllRet_bind {A B : Type} (Q : A -> Prop) (P : B -> Prop)
    (p : Prog A) (f : A -> Prog B) :
  AllRet Q p -> (forall a, Q a -> AllRet P (f a)) -> AllRet P (bind p f).
Proof.
  induction p as [a|argv k IH|k IH|init k IH|c s k IH]; simpl; intros Hp Hf; auto.
Qed.

(** ** The age scale *)

Section Humanize.
Import Time.


Lemma Sub_add (t c : Z) : 0 <= c <= maxDuration -> Sub (t + c) t = c.
Proof. unfold Sub, minDuration. intros Hc. lia. Qed.

Ltac age c :=
  unfold humanizeTime; rewrite (Sub_add _ c) by (vm_compute; split; discriminate);
  vm_compute; reflexivity.










(** The quotient is a binary64 number before it is truncated: one
    nanosecond short of 180 days [d.Hours()] is already 4320, and the
    text is "6mo ago". *)
Remark humanizeTime_rounds_before_int (t : Z) :
  Hours (180 * 24 * Hour - 1) = float64 4320 /\
  humanizeTime (t + (180 * 24 * Hour - 1)) t = "6mo ago".
Proof. split; [vm_compute; reflexivity | age (180 * 24 * Hour - 1)]. Qed.


End Humanize.

(** ** The recency engine *)

Section EngineFacts.
Context `{GoLib}.
Import Time.

Lemma laterOf_max (cand : option Z) (c : Z) :
  laterOf cand c = maxOf c (present cand).
Proof.
  destruct cand as [t|]; simpl; [|reflexivity].
  unfold After. destruct (Z.ltb_spec c t); lia.
Qed.

(** *** Stability of the ranking *)

Lemma insertStable_perm {A : Type} (less : A -> A -> bool) (x : A) (l : list A) :
  Permutation (x :: l) (insertStable less x l).
Proof.
  induction l as [|y l IH]; simpl; [reflexivity|].
  destruct (less y x); [|reflexivity].
  rewrite perm_swap. apply perm_skip, IH.
Qed.

Lemma SliceStable_perm {A : Type} (less : A -> A -> bool) (l : list A) :
  Permutation l (SliceStable less l).
Proof.
  induction l as [|x l IH]; simpl; [reflexivity|].
  rewrite <- insertStable_perm. apply perm_skip, IH.
Qed.

(** An element passes only elements that [less] puts strictly before it;
    a class none of whose members is passed by an equal is left in
    order. *)
Lemma insertStable_filter {A : Type} (less : A -> A -> bool) (p : A -> bool)
    (x : A) (l : list A) :
  (forall y, less y x = true -> p y = true -> p x = false) ->
  List.filter p (insertStable less x l) = List.filter p (x :: l).
Proof.
  intros Hp. induction l as [|y l IH]; [reflexivity|].
  simpl insertStable. destruct (less y x) eqn:Hl; [|reflexivity].
  simpl in *. rewrite IH.
  destruct (p y) eqn:Hy; [|reflexivity].
  rewrite (Hp y Hl Hy). reflexivity.
Qed.

Lemma SliceStable_filter {A : Type} (less : A -> A -> bool) (p : A -> bool)
    (l : list A) :
  (forall x y, less y x = true -> p y = true -> p x = false) ->
  List.filter p (SliceStable less l) = List.filter p l.
Proof.
  intros Hp. induction l as [|x l IH]; [reflexivity|].
  simpl SliceStable. rewrite insertStable_filter by apply Hp.
  simpl. rewrite IH. reflexivity.
Qed.

Lemma insertStable_sorted (x : Branch) (l : list Branch) :
  StronglySorted newerFirst l ->
  StronglySorted newerFirst (insertStable byTimeDesc x l).
Proof.
  induction 1 as [|y l Hs IH Hall]; simpl.
  - constructor; constructor.
  - unfold byTimeDesc at 1, After. destruct (Z.ltb_spec (CommitTime x) (CommitTime y)).
    + constructor; [exact IH|].
      apply (Permutation_Forall (insertStable_perm byTimeDesc x l)).
      constructor; [unfold newerFirst; lia | exact Hall].
    + constructor; [constructor; assumption|].
      constructor; [unfold newerFirst; lia|].
      eapply Forall_impl; [exact Hall|].
      unfold newerFirst. intros z Hz. lia.
Qed.

Lemma SliceStable_sorted (l : list Branch) :
  StronglySorted newerFirst (SliceStable byTimeDesc l).
Proof.
  induction l as [|x l IH]; simpl; [constructor | apply insertStable_sorted, IH].
Qed.

Lemma SliceStable_atTime (t : Z) (l : list Branch) :
  atTime t (SliceStable byTimeDesc l) = atTime t l.
Proof.
  apply SliceStable_filter. intros x y Hl Hy.
  unfold byTimeDesc, After in Hl. lia.
Qed.

Lemma scanBranches_names (o : Oracle) (currentBranch : string)
    (remoteTimes : gmap string Z) (lines : list string) :
  forall acc w brs,
    fst (run o (scanBranches currentBranch remoteTimes lines acc) w) = Ok brs ->
    map Name brs = map Name acc ++ omap lineName lines.
Proof.
  induction lines as [|line lines IH]; intros acc w brs.
  - simpl. intros [= <-]. rewrite app_nil_r. reflexivity.
  - cbn [scanBranches].
    change (omap lineName (line :: lines))
      with (match lineName line with
            | Some y => y :: omap lineName lines
            | None => omap lineName lines
            end).
    unfold lineName at 1.
    destruct (Split line tab) as [|name [|commit [|ts [|up extra]]]];
      try (intros Hr; apply (IH _ _ _ Hr)).
    destruct (parseCommitTime ts) as [tip|e]; [|discriminate].
    rewrite run_bind. intros Hr. apply IH in Hr.
    rewrite Hr, map_app. simpl. rewrite <- app_assoc. reflexivity.
Qed.

(** The run of [getRecentBranches] when the branch listing succeeded. *)
Lemma getRecentBranches_run (o : Oracle) (w : World) :
  failure (o (calls w) forEachRefHeads) = None ->
  exists currentBranch remoteTimes w1,
    fst (run o getRecentBranches w) =
      let out := stdout (o (calls w) forEachRefHeads) in
      match fst (run o (scanBranches currentBranch remoteTimes
                          (fst (scanLines out)) []) w1) with
      | Err e => Err e
      | Ok brs =>
          match snd (scanLines out) with
          | Some e => Err e
          | None => Ok (SliceStable byTimeDesc brs)
          end
      end.
Proof.
  intros Hok. unfold getRecentBranches, cmdOutput.
  cbn [bind run]. rewrite Hok. cbv iota.
  rewrite run_bind.
  match goal with |- context [run o getCurrentBranch ?w0] =>
    set (r1 := run o getCurrentBranch w0) end.
  rewrite run_bind.
  match goal with |- context [run o getRemoteBranchTimes ?w0] =>
    set (r2 := run o getRemoteBranchTimes w0) end.
  destruct (scanLines (stdout (o (calls w) forEachRefHeads))) as [lines scanErr].
  rewrite run_bind.
  exists (match fst r1 with Ok b => b | Err _ => "" end), (fst r2), (snd r2).
  cbv zeta. cbn [fst snd].
  destruct (fst (run o (scanBranches _ _ lines []) (snd r2))) as [brs|e];
    [|reflexivity].
  destruct scanErr; reflexivity.
Qed.

(** C8.  When [getRecentBranches] returns a list, that list is a
    rearrangement of the records built in the order of the gateway's
    listing, it is ordered by activity time, most recent first, and for
    every time [t] the records with activity time [t] come in the same
    order as in the listing. *)
Theorem ranking_is_stable (o : Oracle) (w : World) (ranked : list Branch) :
  fst (run o getRecentBranches w) = Ok ranked ->
  exists listed,
    map Name listed = enumeration (stdout (o (calls w) forEachRefHeads)) /\
    Permutation listed ranked /\
    StronglySorted newerFirst ranked /\
    forall t, atTime t ranked = atTime t listed.
Proof.
  intros Hrun.
  destruct (failure (o (calls w) forEachRefHeads)) as [e|] eqn:Hfail.
  { exfalso. revert Hrun. unfold getRecentBranches, cmdOutput.
    cbn [bind run]. rewrite Hfail. discriminate. }
  destruct (getRecentBranches_run o w Hfail) as (cb & rt & w1 & Heq).
  rewrite Heq in Hrun. cbv zeta in Hrun.
  destruct (fst (run o (scanBranches cb rt _ []) w1)) as [brs|e] eqn:Hscan;
    [|discriminate].
  destruct (snd (scanLines _)); [discriminate|].
  injection Hrun as <-.
  exists brs. split; [|split; [|split]].
  - apply scanBranches_names in Hscan. exact Hscan.
  - apply SliceStable_perm.
  - apply SliceStable_sorted.
  - intros t. apply SliceStable_atTime.
Qed.

(** *** Unparsable dates *)

Lemma parseCommitTime_Err (s e : string) :
  parseCommitTime s = Err e -> e = "unrecognized date: " +:+ s.
Proof.
  unfold parseCommitTime, parseGitDate.
  destruct (time_Parse RFC3339 (TrimSpace s)); [discriminate|].
  destruct (tryLayouts layouts s); [discriminate|].
  intros [= <-]. reflexivity.
Qed.

Lemma scanBranches_bad (o : Oracle) (currentBranch : string)
    (remoteTimes : gmap string Z) (lines : list string) :
  forall acc w,
    (exists line ts e,
        In line lines /\ lineTip line = Some ts /\ parseCommitTime ts = Err e) ->
    exists name ts,
      fst (run o (scanBranches currentBranch remoteTimes lines acc) w)
      = Err ("parse date for " +:+ name +:+ ": " +:+ "unrecognized date: " +:+ ts).
Proof.
  induction lines as [|line lines IH]; intros acc w (l0 & ts0 & e0 & Hin & Htip & Hp).
  - destruct Hin.
  - cbn [scanBranches].
    destruct (Split line tab) as [|name [|commit [|ts [|up extra]]]] eqn:Hsplit.
    1-4: (destruct Hin as [->|Hin];
          [unfold lineTip in Htip; rewrite Hsplit in Htip; discriminate
          |apply IH; exists l0, ts0, e0; auto]).
    destruct (parseCommitTime ts) as [tip|e] eqn:Hparse.
    + rewrite run_bind. destruct Hin as [->|Hin].
      * unfold lineTip in Htip. rewrite Hsplit in Htip. injection Htip as <-.
        rewrite Hparse in Hp. discriminate.
      * apply IH. exists l0, ts0, e0. auto.
    + apply parseCommitTime_Err in Hparse. subst e.
      exists name, ts. reflexivity.
Qed.

Lemma scanBranches_good (o : Oracle) (currentBranch : string)
    (remoteTimes : gmap string Z) (lines : list string) :
  forall acc w,
    (forall line ts, In line lines -> lineTip line = Some ts ->
                     exists t, parseCommitTime ts = Ok t) ->
    exists brs,
      fst (run o (scanBranches currentBranch remoteTimes lines acc) w) = Ok brs.
Proof.
  induction lines as [|line lines IH]; intros acc w Hgood.
  - exists acc. reflexivity.
  - cbn [scanBranches].
    assert (Hrest : forall line ts, In line lines -> lineTip line = Some ts ->
                                    exists t, parseCommitTime ts = Ok t).
    { intros l ts Hin. apply Hgood. right. exact Hin. }
    destruct (Split line tab) as [|name [|commit [|ts [|up extra]]]] eqn:Hsplit;
      try (apply IH, Hrest).
    destruct (Hgood line ts) as [tip Htip]; [left; reflexivity | |].
    { unfold lineTip. rewrite Hsplit. reflexivity. }
    rewrite Htip, run_bind. apply IH, Hrest.
Qed.

Lemma remoteTimesOf_absent (lines : list string) (name : string) :
  (forall line p0 p1,
      In line lines -> SplitN2 line tab = [p0; p1] -> TrimSpace p0 = name ->
      time_Parse RFC3339 (TrimSpace p1) = None /\
      exists e, parseGitDate (TrimSpace p1) = Err e) ->
  forall init : gmap string Z, remoteTimesOf lines init !! name = init !! name.
Proof.
  induction lines as [|line lines IH]; intros Hbad init; [reflexivity|].
  cbn [remoteTimesOf].
  assert (Hrest : forall line p0 p1,
             In line lines -> SplitN2 line tab = [p0; p1] -> TrimSpace p0 = name ->
             time_Parse RFC3339 (TrimSpace p1) = None /\
             exists e, parseGitDate (TrimSpace p1) = Err e).
  { intros l p0 p1 Hin. apply Hbad. right. exact Hin. }
  destruct (SplitN2 line tab) as [|p0 [|p1 [|p2 ps]]] eqn:Hsplit;
    try (apply IH, Hrest).
  destruct (decide (TrimSpace p0 = name)) as [Heq|Hne].
  - destruct (Hbad line p0 p1) as (Hp & e & Hg); [left; reflexivity|exact Hsplit|exact Heq|].
    rewrite Hp, Hg. apply IH, Hrest.
  - destruct (time_Parse RFC3339 (TrimSpace p1)) as [t|].
    + rewrite IH by exact Hrest. apply lookup_insert_ne, Hne.
    + destruct (parseGitDate (TrimSpace p1)) as [t|e].
      * rewrite IH by exact Hrest. apply lookup_insert_ne, Hne.
      * apply IH, Hrest.
Qed.

(** C10.  The three dates are not treated alike.  (1) When the listing
    succeeded and some line with four fields carries a tip date that
    neither [time.Parse] with RFC 3339 nor [parseGitDate] accepts,
    [getRecentBranches] returns the error "parse date for <name>:
    unrecognized date: <date>", whatever the reflog and remote queries
    answer.  (2) When the listing succeeded, the scan met no over-long
    line and every tip date parses, [getRecentBranches] returns a list,
    whatever the reflog and remote queries answer.  (3) A reflog date that
    does not parse makes [getBranchReflogLatestTime] return no time.  (4) A
    remote ref all of whose dates fail to parse is not in the map of
    remote times. *)
Theorem parse_failures_asymmetric (o : Oracle) (w : World) :
  let listing := o (calls w) forEachRefHeads in
  let lines := fst (scanLines (stdout listing)) in
  (failure listing = None ->
   forall line ts e,
     In line lines -> lineTip line = Some ts -> parseCommitTime ts = Err e ->
     exists name' ts',
       fst (run o getRecentBranches w)
       = Err ("parse date for " +:+ name' +:+ ": " +:+ "unrecognized date: " +:+ ts'))
  /\
  (failure listing = None ->
   snd (scanLines (stdout listing)) = None ->
   (forall line ts, In line lines -> lineTip line = Some ts ->
                    exists t, parseCommitTime ts = Ok t) ->
   exists ranked, fst (run o getRecentBranches w) = Ok ranked)
  /\
  (forall branch d e,
     reflogDate (TrimSpace (stdout (o (calls w) (reflogLatest branch)))) = Some d ->
     time_Parse RFC3339 d = None -> parseGitDate d = Err e ->
     fst (run o (getBranchReflogLatestTime branch) w) = None)
  /\
  (forall out name,
     (forall line p0 p1,
         In line (fst (scanLines out)) -> SplitN2 line tab = [p0; p1] ->
         TrimSpace p0 = name ->
         time_Parse RFC3339 (TrimSpace p1) = None /\
         exists e, parseGitDate (TrimSpace p1) = Err e) ->
     remoteTimesOf (fst (scanLines out)) ∅ !! name = None).
Proof.
  intros listing lines. split; [|split; [|split]].
  - intros Hok line ts e Hin Htip Hparse.
    destruct (getRecentBranches_run o w Hok) as (cb & rt & w1 & Heq).
    rewrite Heq. cbv zeta. fold listing. fold lines.
    destruct (scanBranches_bad o cb rt lines [] w1) as (name' & ts' & Hbad).
    { exists line, ts, e. auto. }
    rewrite Hbad. exists name', ts'. reflexivity.
  - intros Hok Hscan Hgood.
    destruct (getRecentBranches_run o w Hok) as (cb & rt & w1 & Heq).
    rewrite Heq. cbv zeta. fold listing. fold lines.
    destruct (scanBranches_good o cb rt lines [] w1 Hgood) as (brs & Hbrs).
    rewrite Hbrs, Hscan. eexists. reflexivity.
  - intros branch d e Hd Hp Hg.
    unfold getBranchReflogLatestTime, cmdOutput. cbn [bind run].
    destruct (bool_decide _ || _); [reflexivity|].
    rewrite Hd, Hp, Hg. reflexivity.
  - intros out name Hbad.
    rewrite (remoteTimesOf_absent _ name Hbad). apply lookup_empty.
Qed.

End EngineFacts.

(** ** The session: bookkeeping *)

(** Decide every key test on a literal key. *)
Ltac keys :=
  repeat match goal with
         | |- context [isKey ?s ?l] =>
             let b := eval vm_compute in (isKey s l) in
             change (isKey s l) with b
         end;
  cbv iota.

Lemma alter_last {A : Type} (f : A -> A) (l : list A) (x : A) :
  alter f (length l) (l ++ [x]) = l ++ [f x].
Proof. induction l as [|y l IH]; simpl; [reflexivity | f_equal; exact IH]. Qed.

Lemma run_calls_extend {A : Type} (o : Oracle) (p : Prog A) (w : World) :
  exists later, calls (snd (run o p w)) = later ++ calls w.
Proof.
  revert w. induction p as [a|argv k IH|k IH|init k IH|c s k IH]; intros w; simpl.
  - exists []. reflexivity.
  - destruct (IH (o (calls w) argv) (mkWorld (argv :: calls w) (stdin w) (cells w)))
      as [later Hl].
    exists (later ++ [argv]). rewrite Hl. simpl. rewrite <- app_assoc. reflexivity.
  - destruct (stdin w) as [|s rest]; [apply IH|].
    destruct (IH s (mkWorld (calls w) rest (cells w))) as [later Hl].
    exists later. exact Hl.
  - destruct (IH (length (cells w)) (mkWorld (calls w) (stdin w) (cells w ++ [init])))
      as [later Hl].
    exists later. exact Hl.
  - destruct (IH (mkWorld (calls w) (stdin w)
                    (alter (fun m => set_search m s) c (cells w)))) as [later Hl].
    exists later. exact Hl.
Qed.

Lemma run_first_call {A : Type} (o : Oracle) (argv : list string)
    (k : Response -> Prog A) (w : World) :
  exists later, calls (snd (run o (Exec argv k) w)) = later ++ argv :: calls w.
Proof.
  simpl.
  destruct (run_calls_extend o (k (o (calls w) argv))
              (mkWorld (argv :: calls w) (stdin w) (cells w))) as [later Hl].
  exists later. exact Hl.
Qed.

Section SessionFacts.
Context `{GoLib}.

Lemma applySortFilter_sort (m : model) :
  sortBy (applySortFilter m) = sortBy m /\
  sortDesc (applySortFilter m) = sortDesc m /\
  search (applySortFilter m) = search m /\
  branches (applySortFilter m) = branches m /\
  status (applySortFilter m) = status m /\
  confirming (applySortFilter m) = confirming m /\
  action (applySortFilter m) = action m.
Proof.
  unfold applySortFilter. cbv zeta.
  repeat match goal with |- context [if ?c then _ else _] => destruct c end;
    simpl; repeat split.
Qed.

Lemma Update_s (m : model) :
  Update m (KeyMsg "s") = Ret (applySortFilter (toggleSort m), CmdNil).
Proof. unfold Update, keySwitch. keys. destruct (confirming m); reflexivity. Qed.

Lemma dispatch_s (m : model) :
  dispatch m (KeyMsg "s") = Ret (applySortFilter (toggleSort m)).
Proof. unfold dispatch. rewrite Update_s. reflexivity. Qed.

Lemma toggleSort_time (m : model) :
  sortBy m = "time" ->
  sortBy (toggleSort m) = "name" /\ sortDesc (toggleSort m) = false.
Proof. intros Hs. unfold toggleSort. rewrite Hs. simpl. split; reflexivity. Qed.

Lemma toggleSort_name_asc (m : model) :
  sortBy m = "name" -> sortDesc m = false ->
  sortBy (toggleSort m) = "time" /\ sortDesc (toggleSort m) = false.
Proof.
  intros Hs Hd. unfold toggleSort. rewrite Hs, Hd. simpl. split; reflexivity.
Qed.

Lemma afterS_time (m : model) :
  sortBy m = "time" -> sortBy (afterS m) = "name" /\ sortDesc (afterS m) = false.
Proof.
  intros Hs. unfold afterS.
  destruct (applySortFilter_sort (toggleSort m)) as (-> & -> & _).
  apply toggleSort_time, Hs.
Qed.

Lemma afterS_name_asc (m : model) :
  sortBy m = "name" -> sortDesc m = false ->
  sortBy (afterS m) = "time" /\ sortDesc (afterS m) = false.
Proof.
  intros Hs Hd. unfold afterS.
  destruct (applySortFilter_sort (toggleSort m)) as (-> & -> & _).
  apply toggleSort_name_asc; assumption.
Qed.

(** C2.  On the code the sort cycle is not a 4-cycle.  From the initial
    settings (time, descending) the four presses of [s] visit
    (name, ascending), (time, ascending), (name, ascending) and
    (time, ascending): the first test of the chain, [sortBy == "time"],
    also takes the state (time, ascending), so (name, descending) is never
    entered and the pair does not come back to (time, descending). *)
Theorem sort_cycle_from_initial (bs : list Branch) (o : Oracle) (w : World) :
  let m0 := initialModel bs in
  let after n := fst (run o (dispatchAll m0 (repeat (KeyMsg "s") n)) w) in
  (sortBy m0, sortDesc m0) = ("time", true) /\
  (sortBy (after 1%nat), sortDesc (after 1%nat)) = ("name", false) /\
  (sortBy (after 2%nat), sortDesc (after 2%nat)) = ("time", false) /\
  (sortBy (after 3%nat), sortDesc (after 3%nat)) = ("name", false) /\
  (sortBy (after 4%nat), sortDesc (after 4%nat)) = ("time", false) /\
  (sortBy (after 4%nat), sortDesc (after 4%nat)) <> (sortBy m0, sortDesc m0).
Proof.
  intros m0 after.
  assert (H0 : sortBy m0 = "time" /\ sortDesc m0 = true).
  { unfold m0, initialModel.
    match goal with |- context [applySortFilter ?m] =>
      destruct (applySortFilter_sort m) as (-> & -> & _) end.
    split; reflexivity. }
  destruct H0 as [H0s H0d].
  assert (Hcons : forall m rest,
            fst (run o (dispatchAll m (KeyMsg "s" :: rest)) w)
            = fst (run o (dispatchAll (afterS m) rest) w)).
  { intros m rest. simpl. rewrite dispatch_s. reflexivity. }
  destruct (afterS_time m0 H0s) as [H1s H1d].
  destruct (afterS_name_asc _ H1s H1d) as [H2s H2d].
  destruct (afterS_time _ H2s) as [H3s H3d].
  destruct (afterS_name_asc _ H3s H3d) as [H4s H4d].
  unfold after. simpl repeat. rewrite !Hcons. simpl dispatchAll. simpl run.
  simpl fst.
  rewrite H0s, H0d, H1s, H1d, H2s, H2d, H3s, H3d, H4s, H4d.
  repeat split; discriminate.
Qed.

Lemma atCursor_bounds (m : model) (b : Branch) :
  atCursor m = Some b ->
  0 <= cursor m < Z.of_nat (length (filtered m)) /\
  filtered m !! Z.to_nat (cursor m) = Some b.
Proof.
  unfold atCursor.
  destruct (Z.leb_spec 0 (cursor m)), (Z.ltb_spec (cursor m) (Z.of_nat (length (filtered m))));
    simpl; intros Hb; try discriminate.
  split; [lia | exact Hb].
Qed.

(** *** The cursor invariant *)

Ltac cursor_cases :=
  repeat match goal with
         | |- context [Z.leb ?a ?b] => destruct (Z.leb_spec a b)
         | |- context [Z.ltb ?a ?b] => destruct (Z.ltb_spec a b)
         end.

Lemma length_pos_iff {A : Type} (l : list A) : l <> [] <-> 0 < Z.of_nat (length l).
Proof. destruct l; simpl; split; intros; try congruence; lia. Qed.

Lemma length_zero_iff {A : Type} (l : list A) : l = [] <-> Z.of_nat (length l) = 0.
Proof. destruct l; simpl; split; intros; try congruence; lia. Qed.

Ltac cursor_solve :=
  unfold cursor_ok in *; simpl in *;
  repeat match goal with
         | H : _ /\ _ |- _ => destruct H
         end;
  split; intros;
  repeat match goal with
         | H : ?l = [] -> _, E : ?l = [] |- _ => specialize (H E)
         | H : ?l <> [] -> _, E : ?l <> [] |- _ => specialize (H E)
         | E : ?l = [] |- _ => apply length_zero_iff in E
         | E : ?l <> [] |- _ => apply length_pos_iff in E
         end;
  try lia.

Lemma applySortFilter_cursor_ok (m : model) : cursor_ok (applySortFilter m).
Proof.
  unfold applySortFilter. cbv zeta.
  destruct (String.eqb (search m) "");
    match goal with
    | |- context [set_filtered m ?v] => generalize v; intros view
    end;
    simpl; cursor_cases; cursor_solve.
Qed.

Lemma cursor_ok_status (m : model) (s : string) :
  cursor_ok m -> cursor_ok (set_status m s).
Proof. intros Hm. cursor_solve. Qed.

Lemma cursor_ok_confirm (m : model) (c : bool) (a : string) :
  cursor_ok m -> cursor_ok (set_confirm m c a).
Proof. intros Hm. cursor_solve. Qed.

Create HintDb cursor.
Local Hint Resolve applySortFilter_cursor_ok cursor_ok_status cursor_ok_confirm
  : cursor.

Lemma reloadQuietly_cursor_ok (m : model) :
  cursor_ok m -> AllRet cursor_ok (reloadQuietly m).
Proof.
  intros Hm. unfold reloadQuietly.
  apply AllRet_bind with (Q := fun _ => True); [apply AllRet_any|].
  intros [brs|e] _; simpl; auto with cursor.
Qed.

Lemma reload_cursor_ok (m : model) (failed done_ : string) :
  cursor_ok m -> AllRet (fun mc => cursor_ok (fst mc)) (reload m failed done_).
Proof.
  intros Hm. unfold reload.
  apply AllRet_bind with (Q := fun _ => True); [apply AllRet_any|].
  intros [brs|e] _; simpl; auto with cursor.
Qed.

Lemma confirmYes_cursor_ok (m : model) :
  cursor_ok m -> AllRet (fun mc => cursor_ok (fst mc)) (confirmYes m).
Proof.
  intros Hm. unfold confirmYes.
  apply AllRet_bind with (Q := cursor_ok); [|intros a Ha; simpl; auto with cursor].
  destruct (atCursor m) as [b|]; [|exact Hm].
  destruct (String.eqb (action m) "delete").
  - destruct (IsCurrent b); [simpl; auto with cursor|].
    apply AllRet_bind with (Q := fun _ => True); [apply AllRet_any|].
    intros [e|] _; [simpl; auto with cursor|].
    apply reloadQuietly_cursor_ok. auto with cursor.
  - destruct (String.eqb (action m) "merge"); [|exact Hm].
    destruct (IsCurrent b); [simpl; auto with cursor|].
    apply AllRet_bind with (Q := fun _ => True); [apply AllRet_any|].
    intros [e|] _; [simpl; auto with cursor|].
    apply reloadQuietly_cursor_ok. auto with cursor.
Qed.

Lemma keySwitch_cursor_ok (m : model) (s : string) :
  cursor_ok m -> AllRet (fun mc => cursor_ok (fst mc)) (keySwitch m s).
Proof.
  intros Hm. unfold keySwitch.
  repeat match goal with
         | |- context [if isKey s ?l then _ else _] => destruct (isKey s l)
         end;
    try (simpl; auto with cursor; fail).
  - simpl. cursor_cases; cursor_solve.
  - simpl. cursor_cases; cursor_solve.
  - simpl. cursor_solve.
  - simpl. cursor_cases; cursor_solve.
  - destruct (atCursor m) as [b|]; [|exact Hm].
    simpl. intros r. destruct (failure r); simpl; auto with cursor.
  - destruct (atCursor m) as [b|]; [|exact Hm]. simpl. auto with cursor.
  - destruct (atCursor m) as [b|]; [|exact Hm]. simpl. auto with cursor.
  - apply reload_cursor_ok, Hm.
  - simpl. intros r. apply reload_cursor_ok, Hm.
Qed.

Lemma Update_cursor_ok (m : model) (msg : Msg) :
  cursor_ok m -> AllRet (fun mc => cursor_ok (fst mc)) (Update m msg).
Proof.
  intros Hm. destruct msg as [s| |s|]; try (simpl; auto with cursor; fail).
  unfold Update.
  destruct (confirming m); [|apply keySwitch_cursor_ok, Hm].
  destruct (isKey s ["y"; "Y"]); [apply confirmYes_cursor_ok, Hm|].
  destruct (isKey s ["n"; "N"; "esc"]); [|apply keySwitch_cursor_ok, Hm].
  simpl. auto with cursor.
Qed.

Lemma dispatch_cursor_ok (m : model) (msg : Msg) :
  cursor_ok m -> AllRet cursor_ok (dispatch m msg).
Proof.
  intros Hm. unfold dispatch.
  apply AllRet_bind with (Q := fun mc => cursor_ok (fst mc));
    [apply Update_cursor_ok, Hm|].
  intros [m' c] Hm'. simpl in *.
  destruct c; simpl; try exact Hm'.
  intros s. exact (cursor_ok_status _ _ Hm').
Qed.

(** C5.  The initial model satisfies the cursor invariant, and every
    transition preserves it: after [Update] on any message (cursor moves,
    search clear, sort cycle, refresh, fetch, confirm, cancel, tick,
    status), and after the whole dispatch of a message including the line
    reader, [0 <= cursor < len(filtered)] when the view is not empty and
    [cursor = 0] when it is, for every answer of the environment. *)
Theorem cursor_invariant (bs : list Branch) (m : model) (msg : Msg)
    (o : Oracle) (w : World) :
  cursor_ok m ->
  cursor_ok (initialModel bs) /\
  cursor_ok (fst (fst (run o (Update m msg) w))) /\
  cursor_ok (fst (run o (dispatch m msg) w)).
Proof.
  intros Hm. split; [apply applySortFilter_cursor_ok|]. split.
  - apply (AllRet_run (fun mc => cursor_ok (fst mc))), Update_cursor_ok, Hm.
  - apply (AllRet_run cursor_ok), dispatch_cursor_ok, Hm.
Qed.

(** *** Search and confirmation *)

(** C3.  What the code does when a search is committed in browsing mode:
    the text typed goes into the [search] field of the receiver copy that
    [Update] allocated for the line reader, while the model the runtime
    holds keeps its old [search] and its old view; only its status
    becomes "filter applied". *)
Theorem search_commit_lost (o : Oracle) (w : World) (m : model)
    (q : string) (rest : list string) :
  confirming m = false -> stdin w = q :: rest ->
  let r := run o (dispatch m (KeyMsg "/")) w in
  search (fst r) = search m /\
  filtered (fst r) = filtered m /\
  status (fst r) = "filter applied" /\
  cells (snd r) =
    cells w ++ [set_search
      (set_status m "Search: type to filter, press Enter to apply, Esc to clear") q].
Proof.
  intros Hc Hin r. subst r.
  unfold dispatch, Update. rewrite Hc. unfold keySwitch. keys.
  cbn [bind run snd fst readLine runReadLine calls stdin cells].
  rewrite Hin.
  cbn [bind run snd fst readLine runReadLine calls stdin cells Update set_status
       search filtered status].
  rewrite alter_last. repeat split.
Qed.

Lemma Update_x (m : model) (b : Branch) :
  confirming m = false -> atCursor m = Some b ->
  Update m (KeyMsg "x") =
    Ret (set_status (set_confirm m true "delete") ("delete " +:+ Name b +:+ "? y/N"),
         CmdNil).
Proof.
  intros Hc Hb. unfold Update. rewrite Hc. unfold keySwitch. keys.
  rewrite Hb. reflexivity.
Qed.

Lemma Update_j_confirming (m : model) :
  confirming m = true ->
  cursor m < Z.of_nat (length (filtered m)) - 1 ->
  Update m (KeyMsg "j") = Ret (set_cursor m (cursor m + 1), CmdNil).
Proof.
  intros Hc Hlt. unfold Update. rewrite Hc. keys. unfold keySwitch. keys.
  destruct (Z.ltb_spec (cursor m) (Z.of_nat (length (filtered m)) - 1)); [reflexivity|lia].
Qed.

(** C4.  What the code does in the confirmation state: the key [j] is not
    ignored, it moves the cursor as in browsing mode; and [y] acts on the
    record under the cursor at that moment.  After [x] on a first branch
    (status "delete <first>? y/N"), [j], then [y], the process started is
    [git branch -d <second>]. *)
Theorem confirm_follows_cursor (o : Oracle) (w : World) (m : model)
    (b0 b1 : Branch) :
  confirming m = false ->
  atCursor m = Some b0 ->
  filtered m !! Z.to_nat (cursor m + 1) = Some b1 ->
  IsCurrent b1 = false ->
  let m1 := fst (run o (dispatch m (KeyMsg "x")) w) in
  let m2 := fst (run o (dispatchAll m [KeyMsg "x"; KeyMsg "j"]) w) in
  let w3 := snd (run o (dispatchAll m [KeyMsg "x"; KeyMsg "j"; KeyMsg "y"]) w) in
  confirming m1 = true /\
  status m1 = "delete " +:+ Name b0 +:+ "? y/N" /\
  confirming m2 = true /\
  cursor m2 = cursor m1 + 1 /\
  exists later,
    calls w3 = later ++ ["git"; "branch"; "-d"; Name b1] :: calls w.
Proof.
  intros Hc Hb0 Hb1 Hcur m1 m2 w3.
  destruct (atCursor_bounds _ _ Hb0) as [Hrange _].
  assert (Hlen : cursor m + 1 < Z.of_nat (length (filtered m))).
  { apply lookup_lt_Some in Hb1. lia. }
  pose (mx := set_status (set_confirm m true "delete") ("delete " +:+ Name b0 +:+ "? y/N")).
  pose (mj := set_cursor mx (cursor mx + 1)).
  assert (Hx : dispatch m (KeyMsg "x") = Ret mx).
  { unfold dispatch. rewrite (Update_x m b0 Hc Hb0). reflexivity. }
  assert (Hj : dispatch mx (KeyMsg "j") = Ret mj).
  { unfold dispatch. rewrite (Update_j_confirming mx); [reflexivity|reflexivity|].
    simpl. lia. }
  assert (Hat : atCursor mj = Some b1).
  { unfold atCursor, mj, mx. simpl.
    destruct (Z.leb_spec 0 (cursor m + 1)); [|lia].
    destruct (Z.ltb_spec (cursor m + 1) (Z.of_nat (length (filtered m)))); [|lia].
    exact Hb1. }
  subst m1 m2 w3. simpl dispatchAll. rewrite Hx.
  cbn [bind run fst snd]. rewrite Hj. cbn [bind run fst snd].
  repeat split.
  assert (Hy : exists k, dispatch mj (KeyMsg "y")
                         = Exec ["git"; "branch"; "-d"; Name b1] k).
  { unfold dispatch, Update. replace (confirming mj) with true by reflexivity. keys.
    unfold confirmYes. rewrite Hat. replace (action mj) with "delete" by reflexivity.
    change (String.eqb "delete" "delete") with true. cbv iota. rewrite Hcur.
    unfold gitDeleteBranch, runCmdSilent, cmdRun. cbn [bind].
    eexists. reflexivity. }
  destruct Hy as [k Hy]. rewrite Hy. cbn [bind].
  apply run_first_call.
Qed.

(** *** Gateway failures and the snapshot *)

Lemma Update_keySwitch (m : model) (s : string) :
  isKey s ["y"; "Y"] = false -> isKey s ["n"; "N"; "esc"] = false ->
  Update m (KeyMsg s) = keySwitch m s.
Proof.
  intros Hy Hn. unfold Update. rewrite Hy, Hn. destruct (confirming m); reflexivity.
Qed.

(** The view [applySortFilter] computes depends on the snapshot, the
    search text and the sort settings only. *)
Lemma applySortFilter_view (m : model) :
  filtered (applySortFilter m) =
    if String.eqb (search m) "" then SliceStable (viewLess m) (branches m)
    else omap (fun n => nameToBranch (branches m) !! n)
              (FindNormalizedFold (search m) (map Name (branches m))).
Proof.
  unfold applySortFilter. cbv zeta.
  destruct (String.eqb (search m) "");
    repeat match goal with |- context [if ?c then _ else _] => destruct c end;
    reflexivity.
Qed.

Lemma applySortFilter_view_ext (a b : model) :
  branches a = branches b -> search a = search b ->
  sortBy a = sortBy b -> sortDesc a = sortDesc b ->
  filtered (applySortFilter a) = filtered (applySortFilter b).
Proof.
  intros Hb Hs Hk Hd. rewrite !applySortFilter_view.
  unfold viewLess. rewrite Hb, Hs, Hk, Hd. reflexivity.
Qed.

Lemma step_same (m m' : model) :
  branches m' = branches m -> filtered m' = filtered m -> snapshot_step m m'.
Proof. intros Hb Hf. left. split; assumption. Qed.

Lemma step_apply (m x : model) : snapshot_step m (applySortFilter x).
Proof.
  right. apply applySortFilter_view_ext;
    destruct (applySortFilter_sort x) as (Hk & Hd & Hs & Hb & _); congruence.
Qed.

Lemma step_status (m m' : model) (s : string) :
  snapshot_step m m' -> snapshot_step m (set_status m' s).
Proof.
  intros [[Hb Hf]|Hv]; [left; split; assumption|].
  right. simpl. rewrite Hv. apply applySortFilter_view_ext; reflexivity.
Qed.

Lemma step_confirm (m m' : model) (c : bool) (a : string) :
  snapshot_step m m' -> snapshot_step m (set_confirm m' c a).
Proof.
  intros [[Hb Hf]|Hv]; [left; split; assumption|].
  right. simpl. rewrite Hv. apply applySortFilter_view_ext; reflexivity.
Qed.

Lemma step_cursor (m : model) (c : Z) : snapshot_step m (set_cursor m c).
Proof. apply step_same; reflexivity. Qed.

Lemma step_refl (m : model) : snapshot_step m m.
Proof. apply step_same; reflexivity. Qed.

Create HintDb snapshot.
Local Hint Resolve step_apply step_status step_confirm step_cursor step_refl
  : snapshot.

Lemma reloadQuietly_step (m m1 : model) :
  snapshot_step m m1 -> AllRet (snapshot_step m) (reloadQuietly m1).
Proof.
  intros Hm. unfold reloadQuietly.
  apply AllRet_bind with (Q := fun _ => True); [apply AllRet_any|].
  intros [brs|e] _; simpl; auto with snapshot.
Qed.

Lemma reload_step (m : model) (failed done_ : string) :
  AllRet (fun mc => snapshot_step m (fst mc)) (reload m failed done_).
Proof.
  unfold reload.
  apply AllRet_bind with (Q := fun _ => True); [apply AllRet_any|].
  intros [brs|e] _; simpl; auto with snapshot.
Qed.

Lemma confirmYes_step (m : model) :
  AllRet (fun mc => snapshot_step m (fst mc)) (confirmYes m).
Proof.
  unfold confirmYes.
  apply AllRet_bind with (Q := snapshot_step m);
    [|intros a Ha; simpl; auto with snapshot].
  destruct (atCursor m) as [b|]; [|simpl; auto with snapshot].
  destruct (String.eqb (action m) "delete").
  - destruct (IsCurrent b); [simpl; auto with snapshot|].
    apply AllRet_bind with (Q := fun _ => True); [apply AllRet_any|].
    intros [e|] _; [simpl; auto with snapshot|].
    apply reloadQuietly_step. auto with snapshot.
  - destruct (String.eqb (action m) "merge"); [|simpl; auto with snapshot].
    destruct (IsCurrent b); [simpl; auto with snapshot|].
    apply AllRet_bind with (Q := fun _ => True); [apply AllRet_any|].
    intros [e|] _; [simpl; auto with snapshot|].
    apply reloadQuietly_step. auto with snapshot.
Qed.

Lemma keySwitch_step (m : model) (s : string) :
  AllRet (fun mc => snapshot_step m (fst mc)) (keySwitch m s).
Proof.
  unfold keySwitch.
  repeat match goal with
         | |- context [if isKey s ?l then _ else _] => destruct (isKey s l)
         end;
    try (simpl; auto with snapshot; fail).
  - simpl. destruct (0 <? cursor m); auto with snapshot.
  - simpl. destruct (cursor m <? _); auto with snapshot.
  - simpl. destruct (0 <? _); auto with snapshot.
  - destruct (atCursor m) as [b|]; [|simpl; auto with snapshot].
    simpl. intros r. destruct (failure r); simpl; auto with snapshot.
  - destruct (atCursor m) as [b|]; simpl; auto with snapshot.
  - destruct (atCursor m) as [b|]; simpl; auto with snapshot.
  - apply reload_step.
  - simpl. intros r. apply reload_step.
Qed.

Lemma Update_step (m : model) (msg : Msg) :
  AllRet (fun mc => snapshot_step m (fst mc)) (Update m msg).
Proof.
  destruct msg as [s| |s|]; try (simpl; auto with snapshot; fail).
  unfold Update.
  destruct (confirming m); [|apply keySwitch_step].
  destruct (isKey s ["y"; "Y"]); [apply confirmYes_step|].
  destruct (isKey s ["n"; "N"; "esc"]); [|apply keySwitch_step].
  simpl. auto with snapshot.
Qed.

Lemma run_fetch_then {A : Type} (o : Oracle) (w : World) (p : Prog A) :
  run o (bind gitFetchAll (fun _ => p)) w = run o p (ran fetchAll w).
Proof. reflexivity. Qed.

(** C7, as the code has it.  (1) Every transition either leaves the
    snapshot and the view exactly as they were or ends with the view
    computed from the state it ends in: the pair is never half-updated.
    (2) A failed checkout changes the status only, to "checkout failed".
    (3, 4) A delete whose safe and forced attempts both fail, and a failed
    merge, change the status to "delete failed" or "merge failed" and
    close the confirmation; snapshot and view stay.  (5, 6) For refresh
    and for fetch, a failed ranking changes the status only, to "refresh
    failed" or "fetch failed".  (7) The outcome of the network fetch itself
    is ignored: fetch goes on as a refresh, and when the ranking succeeds
    the snapshot is replaced, the view recomputed and the status is
    "fetched".  (8) A refresh whose ranking succeeds replaces the snapshot
    and recomputes the view. *)
Theorem gateway_failure_keeps_snapshot (o : Oracle) (w : World) (m : model) :
  (forall msg, snapshot_step m (fst (fst (run o (Update m msg) w))))
  /\
  (forall b e,
     atCursor m = Some b ->
     failure (o (calls w) ["git"; "checkout"; Name b]) = Some e ->
     fst (run o (Update m (KeyMsg "enter")) w)
     = (set_status m ("checkout failed: " +:+ e), CmdNil))
  /\
  (forall b e0 e,
     confirming m = true -> action m = "delete" ->
     atCursor m = Some b -> IsCurrent b = false ->
     failure (o (calls w) ["git"; "branch"; "-d"; Name b]) = Some e0 ->
     failure (o (["git"; "branch"; "-d"; Name b] :: calls w)
                ["git"; "branch"; "-D"; Name b]) = Some e ->
     fst (run o (Update m (KeyMsg "y")) w)
     = (set_confirm (set_status m ("delete failed: " +:+ e)) false "", CmdNil))
  /\
  (forall b e,
     confirming m = true -> action m = "merge" ->
     atCursor m = Some b -> IsCurrent b = false ->
     failure (o (calls w) ["git"; "merge"; Name b]) = Some e ->
     fst (run o (Update m (KeyMsg "y")) w)
     = (set_confirm (set_status m ("merge failed: " +:+ e)) false "", CmdNil))
  /\
  (forall e,
     fst (run o getRecentBranches w) = Err e ->
     fst (run o (Update m (KeyMsg "r")) w)
     = (set_status m ("refresh failed: " +:+ e), CmdNil))
  /\
  (forall e,
     fst (run o getRecentBranches (ran fetchAll w)) = Err e ->
     fst (run o (Update m (KeyMsg "f")) w)
     = (set_status m ("fetch failed: " +:+ e), CmdNil))
  /\
  (forall brs,
     fst (run o getRecentBranches (ran fetchAll w)) = Ok brs ->
     fst (run o (Update m (KeyMsg "f")) w)
     = (set_status (applySortFilter (set_branches m brs)) "fetched", CmdNil))
  /\
  (forall brs,
     fst (run o getRecentBranches w) = Ok brs ->
     fst (run o (Update m (KeyMsg "r")) w)
     = (set_status (applySortFilter (set_branches m brs)) "refreshed", CmdNil)).
Proof.
  repeat match goal with |- _ /\ _ => split end.
  - intros msg.
    apply (AllRet_run (fun mc => snapshot_step m (fst mc))), Update_step.
  - intros b e Hb Hf.
    rewrite Update_keySwitch by reflexivity. unfold keySwitch. keys.
    rewrite Hb. unfold gitCheckoutBranch, runCmdSilent, cmdRun.
    cbn [bind run]. rewrite Hf. reflexivity.
  - intros b e0 e Hc Ha Hb Hcur H0 H1.
    unfold Update. rewrite Hc. keys. unfold confirmYes. rewrite Hb, Ha, Hcur.
    change (String.eqb "delete" "delete") with true. cbv iota.
    unfold gitDeleteBranch, runCmdSilent, cmdRun.
    cbn [bind run]. rewrite H0. cbn [bind run calls]. rewrite H1. reflexivity.
  - intros b e Hc Ha Hb Hcur Hf.
    unfold Update. rewrite Hc. keys. unfold confirmYes. rewrite Hb, Ha, Hcur.
    change (String.eqb "merge" "delete") with false.
    change (String.eqb "merge" "merge") with true. cbv iota.
    unfold gitMergeIntoCurrent, runCmdSilent, cmdRun.
    cbn [bind run]. rewrite Hf. reflexivity.
  - intros e Hr.
    rewrite Update_keySwitch by reflexivity. unfold keySwitch. keys.
    unfold reload. rewrite run_bind, Hr. reflexivity.
  - intros e Hr.
    rewrite Update_keySwitch by reflexivity. unfold keySwitch. keys.
    rewrite run_fetch_then. unfold reload. rewrite run_bind, Hr. reflexivity.
  - intros brs Hr.
    rewrite Update_keySwitch by reflexivity. unfold keySwitch. keys.
    rewrite run_fetch_then. unfold reload. rewrite run_bind, Hr. reflexivity.
  - intros brs Hr.
    rewrite Update_keySwitch by reflexivity. unfold keySwitch. keys.
    unfold reload. rewrite run_bind, Hr. reflexivity.
Qed.

End SessionFacts.

(** ** Concrete runs *)

Section Runs.
Import Sample Scenario.

Lemma ranking_is_stable_witness :
  fst (run git (@getRecentBranches lib) emptyWorld) = Ok ranked /\
  StronglySorted newerFirst ranked.
Proof.
  assert (Hrun : fst (run git (@getRecentBranches lib) emptyWorld) = Ok ranked)
    by (vm_compute; reflexivity).
  split; [exact Hrun|].
  destruct (@ranking_is_stable lib git emptyWorld ranked Hrun)
    as (listed & _ & _ & Hsorted & _).
  exact Hsorted.
Defined.

Lemma cursor_ok_three : @cursor_ok three.
Proof.
  split.
  - vm_compute. discriminate.
  - intros _. vm_compute. split; [discriminate | reflexivity].
Defined.

Lemma cursor_invariant_witness :
  cursor_ok three /\
  cursor_ok (fst (fst (run git (@Update lib three (KeyMsg "G")) emptyWorld))).
Proof.
  split; [exact cursor_ok_three|].
  exact (proj1 (proj2 (@cursor_invariant lib [main] three (KeyMsg "G") git
                         emptyWorld cursor_ok_three))).
Defined.

Lemma search_commit_lost_witness :
  search (fst (run git (@dispatch lib three (KeyMsg "/")) typing)) = "" /\
  map search (cells (snd (run git (@dispatch lib three (KeyMsg "/")) typing)))
  = ["feat"].
Proof.
  destruct (@search_commit_lost lib git typing three "feat" [] eq_refl eq_refl)
    as (Hs & _ & _ & Hc).
  split; [rewrite Hs; reflexivity | rewrite Hc; reflexivity].
Defined.

Lemma confirm_follows_cursor_witness :
  exists later,
    calls (snd (run git (@dispatchAll lib three [KeyMsg "x"; KeyMsg "j"; KeyMsg "y"])
                  emptyWorld))
    = later ++ [["git"; "branch"; "-d"; "topic"]].
Proof.
  destruct (@confirm_follows_cursor lib git emptyWorld three feature topic
              eq_refl eq_refl eq_refl eq_refl) as (_ & _ & _ & _ & later & Hl).
  exists later. exact Hl.
Defined.

Lemma parse_failures_asymmetric_witness :
  (exists name ts,
      fst (run broken (@getRecentBranches lib) emptyWorld)
      = Err ("parse date for " +:+ name +:+ ": " +:+ "unrecognized date: " +:+ ts))
  /\
  (exists l, fst (run stale (@getRecentBranches lib) emptyWorld) = Ok l)
  /\
  fst (run stale (@getBranchReflogLatestTime lib "feature") emptyWorld) = None.
Proof.
  split; [|split].
  - apply (proj1 (@parse_failures_asymmetric lib broken emptyWorld) eq_refl
             brokenLine "yesterday" "unrecognized date: yesterday").
    + right. left. reflexivity.
    + reflexivity.
    + reflexivity.
  - apply (proj1 (proj2 (@parse_failures_asymmetric lib stale emptyWorld)) eq_refl
             eq_refl).
    intros l ts Hin.
    destruct Hin as [<-|[<-|[]]]; intros [= <-]; eexists; vm_compute; reflexivity.
  - apply (proj1 (proj2 (proj2 (@parse_failures_asymmetric lib stale emptyWorld)))
             "feature" "sometime" "unrecognized date: sometime");
      reflexivity.
Defined.

(** C7, as stated, fails on the code.  With the network down the fetch
    fails; the session opened on [main] alone nevertheless takes the new
    ranking ([feature], [main]) as its snapshot and its view, and its
    status is "fetched", not a failure notice. *)
Lemma fetch_failure_replaces_snapshot :
  let m' := fst (fst (run offline (@Update lib onMain (KeyMsg "f")) emptyWorld)) in
  failure (offline [] fetchAll) = Some "exit status 1" /\
  map Name (branches onMain) = ["main"] /\
  map Name (filtered onMain) = ["main"] /\
  map Name (branches m') = ["feature"; "main"] /\
  map Name (filtered m') = ["feature"; "main"] /\
  branches m' <> branches onMain /\
  filtered m' <> filtered onMain /\
  status m' = "fetched".
Proof.
  vm_compute. repeat split; intros Heq; discriminate Heq.
Qed.

Lemma gateway_failure_keeps_snapshot_witness :
  fst (run failing (@Update lib deletingTopic (KeyMsg "y")) emptyWorld)
  = (set_confirm (set_status deletingTopic "delete failed: exit status 1") false "",
     CmdNil)
  /\
  fst (run failing (@Update lib mergingTopic (KeyMsg "y")) emptyWorld)
  = (set_confirm (set_status mergingTopic "merge failed: exit status 1") false "",
     CmdNil)
  /\
  fst (run failing (@Update lib deletingTopic (KeyMsg "enter")) emptyWorld)
  = (set_status deletingTopic "checkout failed: exit status 1", CmdNil)
  /\
  fst (run failing (@Update lib three (KeyMsg "f")) emptyWorld)
  = (set_status three "fetch failed: git for-each-ref failed: exit status 1", CmdNil)
  /\
  fst (run git (@Update lib onMain (KeyMsg "r")) emptyWorld)
  = (set_status (@applySortFilter lib (set_branches onMain ranked)) "refreshed", CmdNil).
Proof.
  pose proof (@gateway_failure_keeps_snapshot lib failing emptyWorld deletingTopic)
    as (_ & Hcheckout & Hdelete & _).
  pose proof (@gateway_failure_keeps_snapshot lib failing emptyWorld mergingTopic)
    as (_ & _ & _ & Hmerge & _).
  pose proof (@gateway_failure_keeps_snapshot lib failing emptyWorld three)
    as (_ & _ & _ & _ & _ & Hfetch & _).
  pose proof (@gateway_failure_keeps_snapshot lib git emptyWorld onMain)
    as (_ & _ & _ & _ & _ & _ & _ & Hrefresh).
  split; [|split; [|split; [|split]]].
  - apply (Hdelete topic "exit status 1" "exit status 1"); reflexivity.
  - apply (Hmerge topic "exit status 1"); reflexivity.
  - apply (Hcheckout topic "exit status 1"); reflexivity.
  - apply (Hfetch "git for-each-ref failed: exit status 1"). reflexivity.
  - apply (Hrefresh ranked). reflexivity.
Defined.

End Runs.

(** * Further properties of the code *)

Lemma AllCalls_bind {A B : Type} (P : list string -> Prop)
    (p : Prog A) (f : A -> Prog B) :
  AllCalls P p -> (forall a, AllCalls P (f a)) -> AllCalls P (bind p f).
Proof.
  induction p as [a|argv k IH|k IH|init k IH|c s k IH]; simpl; intros Hp Hf; auto.
  destruct Hp as [Hargv Hk]. split; auto.
Qed.

Lemma AllCalls_impl {A : Type} (P Q : list string -> Prop) (p : Prog A) :
  (forall argv, P argv -> Q argv) -> AllCalls P p -> AllCalls Q p.
Proof.
  intros HPQ. induction p as [a|argv k IH|k IH|init k IH|c s k IH]; simpl; auto.
  intros [Hargv Hk]. split; auto.
Qed.

Lemma AllCalls_run {A : Type} (P : list string -> Prop) (p : Prog A) :
  AllCalls P p ->
  forall o w, exists later,
    calls (snd (run o p w)) = later ++ calls w /\ Forall P later.
Proof.
  induction p as [a|argv k IH|k IH|init k IH|c s k IH]; simpl; intros Hp o w.
  - exists []. split; [reflexivity | constructor].
  - destruct Hp as [Hargv Hk].
    destruct (IH (o (calls w) argv) (Hk _) o
                (mkWorld (argv :: calls w) (stdin w) (cells w)))
      as (later & Hl & HP).
    exists (later ++ [argv]). split.
    + rewrite Hl. simpl. rewrite <- app_assoc. reflexivity.
    + apply Forall_app. split; [exact HP | constructor; [exact Hargv | constructor]].
  - destruct (stdin w) as [|s rest]; [apply IH, Hp|].
    destruct (IH s (Hp s) o (mkWorld (calls w) rest (cells w))) as (later & Hl & HP).
    exists later. split; assumption.
  - destruct (IH (length (cells w)) (Hp _) o
                (mkWorld (calls w) (stdin w) (cells w ++ [init])))
      as (later & Hl & HP).
    exists later. split; assumption.
  - destruct (IH Hp o (mkWorld (calls w) (stdin w)
                         (alter (fun m => set_search m s) c (cells w))))
      as (later & Hl & HP).
    exists later. split; assumption.
Qed.

(** ** The recency engine: processes, flags, remote times *)

Section EngineMore.
Context `{GoLib}.
Import Time.

Lemma reflog_run_world (o : Oracle) (branch : string) (w : World) :
  snd (run o (getBranchReflogLatestTime branch) w) = ran (reflogLatest branch) w.
Proof.
  unfold getBranchReflogLatestTime, cmdOutput, ran. cbn [bind run].
  destruct (_ || _); [reflexivity|].
  destruct (reflogDate _); [|reflexivity].
  destruct (time_Parse _ _); [reflexivity|].
  destruct (parseGitDate _); reflexivity.
Qed.

Lemma getCurrentBranch_run (o : Oracle) (w : World) :
  snd (run o getCurrentBranch w) = ran revParseHead w /\
  match fst (run o getCurrentBranch w) with Ok b => b | Err _ => "" end
  = currentName (o (calls w) revParseHead).
Proof.
  unfold getCurrentBranch, cmdOutput, currentName, ran. cbn [bind run].
  destruct (failure _); [split; reflexivity|].
  destruct (String.eqb _ "HEAD"); split; reflexivity.
Qed.

Lemma getRemoteBranchTimes_world (o : Oracle) (w : World) :
  snd (run o getRemoteBranchTimes w) = ran forEachRefRemotes w.
Proof.
  unfold getRemoteBranchTimes, cmdOutput, ran. cbn [bind run].
  destruct (_ || _); reflexivity.
Qed.

(** The run of [getRecentBranches] after a successful listing, with the
    worlds and values in between spelled out. *)
Lemma getRecentBranches_unfold (o : Oracle) (w : World) :
  failure (o (calls w) forEachRefHeads) = None ->
  let out := stdout (o (calls w) forEachRefHeads) in
  let w1 := ran forEachRefHeads w in
  let cb := currentName (o (calls w1) revParseHead) in
  let w2 := ran revParseHead w1 in
  let rt := fst (run o getRemoteBranchTimes w2) in
  let w3 := ran forEachRefRemotes w2 in
  let r := run o (scanBranches cb rt (fst (scanLines out)) []) w3 in
  run o getRecentBranches w =
    (match fst r with
     | Err e => Err e
     | Ok brs =>
         match snd (scanLines out) with
         | Some e => Err e
         | None => Ok (SliceStable byTimeDesc brs)
         end
     end, snd r).
Proof.
  intros Hok out w1 cb w2 rt w3 r.
  unfold getRecentBranches, cmdOutput. cbn [bind run]. rewrite Hok. cbv iota.
  change (mkWorld (forEachRefHeads :: calls w) (stdin w) (cells w)) with w1.
  rewrite run_bind.
  destruct (getCurrentBranch_run o w1) as [Hw Hcb].
  rewrite Hw. fold w2. rewrite Hcb. fold cb.
  rewrite run_bind. rewrite getRemoteBranchTimes_world. fold w3. fold rt.
  fold out. destruct (scanLines out) as [lines scanErr]. cbn [fst snd].
  rewrite run_bind. cbn [fst snd] in r. fold r.
  destruct (fst r) as [brs|e]; [|reflexivity].
  destruct scanErr; reflexivity.
Qed.

Lemma scanBranches_calls (o : Oracle) (cb : string) (rt : gmap string Z)
    (lines : list string) :
  forall acc w,
    calls (snd (run o (scanBranches cb rt lines acc) w))
    = rev (map reflogLatest (queried lines)) ++ calls w.
Proof.
  induction lines as [|line lines IH]; intros acc w; [reflexivity|].
  cbn [scanBranches queried].
  destruct (Split line tab) as [|name [|commit [|ts [|up extra]]]]; try apply IH.
  destruct (parseCommitTime ts) as [tip|e]; [|reflexivity].
  rewrite run_bind, reflog_run_world, IH. cbn [map rev ran calls].
  rewrite <- app_assoc. reflexivity.
Qed.

Lemma scanBranches_queried (o : Oracle) (cb : string) (rt : gmap string Z)
    (lines : list string) :
  forall acc w brs,
    fst (run o (scanBranches cb rt lines acc) w) = Ok brs ->
    queried lines = omap lineName lines.
Proof.
  induction lines as [|line lines IH]; intros acc w brs; [reflexivity|].
  cbn [scanBranches queried].
  change (omap lineName (line :: lines))
    with (match lineName line with
          | Some y => y :: omap lineName lines
          | None => omap lineName lines
          end).
  unfold lineName at 1.
  destruct (Split line tab) as [|name [|commit [|ts [|up extra]]]];
    try (intros Hr; apply (IH _ _ _ Hr)).
  destruct (parseCommitTime ts) as [tip|e]; [|discriminate].
  rewrite run_bind. intros Hr. f_equal. apply (IH _ _ _ Hr).
Qed.

Lemma scanBranches_queries (cb : string) (rt : gmap string Z) (lines : list string) :
  forall acc, AllCalls isQuery (scanBranches cb rt lines acc).
Proof.
  induction lines as [|line lines IH]; intros acc; [exact I|].
  cbn [scanBranches].
  destruct (Split line tab) as [|name [|commit [|ts [|up extra]]]]; try apply IH.
  destruct (parseCommitTime ts) as [tip|e]; [|exact I].
  apply AllCalls_bind; [|intros a; apply IH].
  unfold getBranchReflogLatestTime, cmdOutput. cbn [bind AllCalls]. split.
  - right. right. right. exists name. reflexivity.
  - intros r. destruct (_ || _); [exact I|].
    destruct (reflogDate _); [|exact I].
    destruct (time_Parse _ _); [exact I|].
    destruct (parseGitDate _); exact I.
Qed.

Lemma getRecentBranches_queries : AllCalls isQuery getRecentBranches.
Proof.
  unfold getRecentBranches, cmdOutput. cbn [bind AllCalls]. split.
  - left. reflexivity.
  - intros r. destruct (failure r); [exact I|].
    apply AllCalls_bind.
    { unfold getCurrentBranch, cmdOutput. cbn [bind AllCalls]. split.
      - right. left. reflexivity.
      - intros r1. destruct (failure r1); [exact I|].
        destruct (String.eqb _ _); exact I. }
    intros cur. apply AllCalls_bind.
    { unfold getRemoteBranchTimes, cmdOutput. cbn [bind AllCalls]. split.
      - right. right. left. reflexivity.
      - intros r2. destruct (_ || _); exact I. }
    intros rt. destruct (scanLines (stdout r)) as [lines scanErr].
    apply AllCalls_bind; [apply scanBranches_queries|].
    intros [brs|e]; [|exact I]. destruct scanErr; exact I.
Qed.

(** X1.  The processes of one ranking.  A failed branch listing is the
    only process run.  After a successful listing the processes are, in
    order: the listing, [git rev-parse --abbrev-ref HEAD], the remote
    listing, then one [git reflog] per line with four fields, in listing
    order, up to the first tip date that does not parse; when the ranking
    returns a list that is one reflog query per listed branch.  No other
    command line is ever run. *)
Theorem ranking_call_trace (o : Oracle) (w : World) :
  let listing := o (calls w) forEachRefHeads in
  let lines := fst (scanLines (stdout listing)) in
  let after := calls (snd (run o getRecentBranches w)) in
  (failure listing <> None -> after = forEachRefHeads :: calls w) /\
  (failure listing = None ->
   after = rev (map reflogLatest (queried lines))
           ++ [forEachRefRemotes; revParseHead; forEachRefHeads] ++ calls w) /\
  (forall ranked, fst (run o getRecentBranches w) = Ok ranked ->
                  queried lines = enumeration (stdout listing)) /\
  (exists later, after = later ++ calls w /\ Forall isQuery later).
Proof.
  intros listing lines after. split; [|split; [|split]].
  - intros Hfail. subst after. unfold getRecentBranches, cmdOutput.
    cbn [bind run]. fold listing.
    destruct (failure listing); [reflexivity | congruence].
  - intros Hok. subst after.
    rewrite (getRecentBranches_unfold o w Hok). cbv zeta. cbn [snd].
    rewrite scanBranches_calls. reflexivity.
  - intros ranked Hrun.
    destruct (failure listing) as [e|] eqn:Hfail.
    { exfalso. revert Hrun. unfold getRecentBranches, cmdOutput.
      cbn [bind run]. fold listing. rewrite Hfail. discriminate. }
    rewrite (getRecentBranches_unfold o w Hfail) in Hrun. cbv zeta in Hrun.
    cbn [fst] in Hrun.
    match type of Hrun with
    | context [fst (run o (scanBranches ?cb ?rt ?ls []) ?w3)] =>
        destruct (fst (run o (scanBranches cb rt ls []) w3)) as [brs|e] eqn:Hscan;
        [|discriminate]
    end.
    apply scanBranches_queried in Hscan. exact Hscan.
  - apply AllCalls_run, getRecentBranches_queries.
Qed.

Lemma scanBranches_flags (o : Oracle) (cb : string) (rt : gmap string Z)
    (lines : list string) :
  forall acc w brs,
    fst (run o (scanBranches cb rt lines acc) w) = Ok brs ->
    Forall (fun b => IsCurrent b = String.eqb (Name b) cb) acc ->
    Forall (fun b => IsCurrent b = String.eqb (Name b) cb) brs.
Proof.
  induction lines as [|line lines IH]; intros acc w brs.
  - simpl. intros [= <-] Hacc. exact Hacc.
  - cbn [scanBranches].
    destruct (Split line tab) as [|name [|commit [|ts [|up extra]]]];
      try (intros Hr Hacc; apply (IH _ _ _ Hr Hacc)).
    destruct (parseCommitTime ts) as [tip|e]; [|discriminate].
    rewrite run_bind. intros Hr Hacc. apply (IH _ _ _ Hr).
    apply Forall_app. split; [exact Hacc|]. constructor; [reflexivity | constructor].
Qed.

(** X2.  In a ranking returned by [getRecentBranches], a record is marked
    current exactly when its name is the trimmed answer of
    [git rev-parse --abbrev-ref HEAD]; when that query fails or answers
    [HEAD] (detached), only a record with an empty name could be marked.
    Hence two records marked current bear the same name. *)
Theorem current_flag_follows_head (o : Oracle) (w : World) (ranked : list Branch) :
  fst (run o getRecentBranches w) = Ok ranked ->
  let head := currentName (o (forEachRefHeads :: calls w) revParseHead) in
  (forall b, In b ranked -> (IsCurrent b = true <-> Name b = head)) /\
  (forall a b, In a ranked -> In b ranked ->
               IsCurrent a = true -> IsCurrent b = true -> Name a = Name b).
Proof.
  intros Hrun head.
  assert (Hall : Forall (fun b => IsCurrent b = String.eqb (Name b) head) ranked).
  { destruct (failure (o (calls w) forEachRefHeads)) as [e|] eqn:Hfail.
    { exfalso. revert Hrun. unfold getRecentBranches, cmdOutput.
      cbn [bind run]. rewrite Hfail. discriminate. }
    rewrite (getRecentBranches_unfold o w Hfail) in Hrun. cbv zeta in Hrun.
    cbn [fst] in Hrun.
    match type of Hrun with
    | context [fst (run o (scanBranches ?cb ?rt ?ls []) ?w3)] =>
        destruct (fst (run o (scanBranches cb rt ls []) w3)) as [brs|e] eqn:Hscan;
        [|discriminate]
    end.
    destruct (snd (scanLines _)); [discriminate|]. injection Hrun as <-.
    apply scanBranches_flags in Hscan; [|constructor].
    apply (Permutation_Forall (SliceStable_perm byTimeDesc brs)). exact Hscan. }
  assert (Hiff : forall b, In b ranked -> (IsCurrent b = true <-> Name b = head)).
  { intros b Hb. rewrite Forall_forall in Hall.
    rewrite (Hall b); [apply String.eqb_eq|]. apply list_elem_of_In, Hb. }
  split; [exact Hiff|].
  intros a b Ha Hb Hca Hcb.
  apply (Hiff a Ha) in Hca. apply (Hiff b Hb) in Hcb. congruence.
Qed.

End EngineMore.

Section RemoteTimes.
Context `{GoLib}.
Import Time.

Lemma remoteTimesOf_app (l1 l2 : list string) :
  forall init : gmap string Z,
    remoteTimesOf (l1 ++ l2) init = remoteTimesOf l2 (remoteTimesOf l1 init).
Proof.
  induction l1 as [|line l1 IH]; intros init; [reflexivity|].
  cbn [app remoteTimesOf].
  destruct (SplitN2 line tab) as [|p0 [|p1 [|p2 ps]]]; try apply IH.
  destruct (time_Parse RFC3339 (TrimSpace p1)); [apply IH|].
  destruct (parseGitDate (TrimSpace p1)); apply IH.
Qed.

Lemma remoteTimesOf_source (lines : list string) (name : string) (t : Z) :
  forall init : gmap string Z,
    remoteTimesOf lines init !! name = Some t ->
    init !! name = Some t \/ exists line, In line lines /\ givesTime line name t.
Proof.
  induction lines as [|line lines IH]; intros init; [left; assumption|].
  cbn [remoteTimesOf].
  assert (Hrest : forall m : gmap string Z,
             remoteTimesOf lines m !! name = Some t ->
             m !! name = Some t \/
             exists l, In l (line :: lines) /\ givesTime l name t).
  { intros m Hm. destruct (IH m Hm) as [Hi|(l & Hin & Hg)]; [left; exact Hi|].
    right. exists l. split; [right; exact Hin | exact Hg]. }
  destruct (SplitN2 line tab) as [|p0 [|p1 [|p2 ps]]] eqn:Hsplit; try apply Hrest.
  destruct (time_Parse RFC3339 (TrimSpace p1)) as [t1|] eqn:Hp.
  - intros Hl. destruct (Hrest _ Hl) as [Hi|Hex]; [|right; exact Hex].
    destruct (decide (TrimSpace p0 = name)) as [Heq|Hne].
    + subst name. rewrite lookup_insert_eq in Hi. injection Hi as ->.
      right. exists line. split; [left; reflexivity|].
      exists p0, p1. split; [exact Hsplit|]. split; [reflexivity|]. left. exact Hp.
    + rewrite lookup_insert_ne in Hi by exact Hne. left. exact Hi.
  - destruct (parseGitDate (TrimSpace p1)) as [t1|e] eqn:Hg; [|apply Hrest].
    intros Hl. destruct (Hrest _ Hl) as [Hi|Hex]; [|right; exact Hex].
    destruct (decide (TrimSpace p0 = name)) as [Heq|Hne].
    + subst name. rewrite lookup_insert_eq in Hi. injection Hi as ->.
      right. exists line. split; [left; reflexivity|].
      exists p0, p1. split; [exact Hsplit|]. split; [reflexivity|].
      right. split; [exact Hp | exact Hg].
    + rewrite lookup_insert_ne in Hi by exact Hne. left. exact Hi.
Qed.

Lemma remoteTimesOf_gives (line name : string) (t : Z) (init : gmap string Z) :
  givesTime line name t -> remoteTimesOf [line] init !! name = Some t.
Proof.
  intros (p0 & p1 & Hsplit & Hname & Hparse). cbn [remoteTimesOf].
  rewrite Hsplit. subst name.
  destruct Hparse as [Hp|[Hp Hg]].
  - rewrite Hp. apply lookup_insert_eq.
  - rewrite Hp, Hg. apply lookup_insert_eq.
Qed.

Lemma remoteTimesOf_silent (lines : list string) (name : string) :
  (forall l t, In l lines -> ~ givesTime l name t) ->
  forall init : gmap string Z, remoteTimesOf lines init !! name = init !! name.
Proof.
  intros Hnone. apply remoteTimesOf_absent.
  intros line p0 p1 Hin Hsplit Hname.
  destruct (time_Parse RFC3339 (TrimSpace p1)) as [t|] eqn:Hp.
  { exfalso. apply (Hnone line t Hin). exists p0, p1. auto. }
  split; [reflexivity|].
  destruct (parseGitDate (TrimSpace p1)) as [t|e] eqn:Hg; [|exists e; reflexivity].
  exfalso. apply (Hnone line t Hin). exists p0, p1. auto.
Qed.

Lemma len_zero (s : string) : (len s =? 0) = true <-> s = "".
Proof.
  unfold len. destruct s; simpl; split; intros Hs; try reflexivity; try discriminate.
Qed.

(** X3.  The map of remote times.  When the remote listing fails or
    prints nothing the map is empty.  Otherwise every entry of the map
    comes from a line of the listing that names the ref and carries a
    date that parses, and for each ref the last such line decides: a ref
    listed with an unparsable date after a parsable one keeps the earlier
    time. *)
Theorem remote_times_from_listing (o : Oracle) (w : World) :
  let answer := o (calls w) forEachRefRemotes in
  let lines := fst (scanLines (stdout answer)) in
  let remoteTimes := fst (run o getRemoteBranchTimes w) in
  (failure answer <> None \/ stdout answer = "" -> remoteTimes = ∅) /\
  (forall name t,
     remoteTimes !! name = Some t ->
     exists line, In line lines /\ givesTime line name t) /\
  (failure answer = None ->
   forall before line rest name t,
     lines = before ++ line :: rest ->
     givesTime line name t ->
     (forall l t', In l rest -> ~ givesTime l name t') ->
     remoteTimes !! name = Some t).
Proof.
  intros answer lines remoteTimes.
  assert (Hrun : remoteTimes =
            if bool_decide (failure answer <> None) || (len (stdout answer) =? 0)
            then ∅ else remoteTimesOf lines ∅).
  { subst remoteTimes. unfold getRemoteBranchTimes, cmdOutput. cbn [bind run].
    fold answer. destruct (_ || _); reflexivity. }
  split; [|split].
  - intros Hbad. rewrite Hrun.
    destruct Hbad as [Hfail|Hempty].
    + rewrite (bool_decide_eq_true_2 _ Hfail). reflexivity.
    + rewrite (proj2 (len_zero _) Hempty), orb_true_r. reflexivity.
  - intros name t. rewrite Hrun.
    destruct (_ || _); [rewrite lookup_empty; discriminate|].
    intros Hl. destruct (remoteTimesOf_source _ _ _ _ Hl) as [He|Hex]; [|exact Hex].
    rewrite lookup_empty in He. discriminate.
  - intros Hok before line rest name t Hlines Hgives Hrest. rewrite Hrun.
    assert (Hne : stdout answer <> "").
    { intros Hempty. subst lines. rewrite Hempty in Hlines.
      destruct before; discriminate Hlines. }
    rewrite bool_decide_eq_false_2 by (rewrite Hok; intros Hc; apply Hc; reflexivity).
    destruct (len (stdout answer) =? 0) eqn:Hlen;
      [apply len_zero in Hlen; contradiction|].
    cbn [orb]. rewrite Hlines, remoteTimesOf_app.
    change (line :: rest) with ([line] ++ rest). rewrite remoteTimesOf_app.
    rewrite (remoteTimesOf_silent rest name Hrest).
    apply remoteTimesOf_gives, Hgives.
Qed.

End RemoteTimes.

(** ** The reflog selector *)

Section ReflogSelector.
Context `{GoLib}.
Import Time.

Lemma sapp_cons (x : ascii) (a b : string) :
  String x a +:+ b = String x (a +:+ b).
Proof. reflexivity. Qed.

Lemma sapp_nil (b : string) : "" +:+ b = b.
Proof. reflexivity. Qed.

Lemma sapp_assoc (a b c : string) : (a +:+ b) +:+ c = a +:+ (b +:+ c).
Proof.
  induction a as [|x a IH]; [reflexivity|].
  rewrite !sapp_cons, IH. reflexivity.
Qed.

Lemma slength_app (a b : string) :
  String.length (a +:+ b) = (String.length a + String.length b)%nat.
Proof.
  induction a as [|x a IH]; [reflexivity|].
  rewrite sapp_cons. cbn [String.length]. rewrite IH. reflexivity.
Qed.

Lemma prefix_brace_app (ref rest : string) :
  String.prefix "{" ref = false ->
  String.prefix "{" (ref +:+ "@{" +:+ rest) = false.
Proof.
  destruct ref as [|c ref].
  - intros _. rewrite sapp_nil, !sapp_cons. reflexivity.
  - rewrite sapp_cons. cbn [String.prefix].
    destruct (ascii_dec "{" c); [|reflexivity].
    destruct ref; cbn [String.prefix]; discriminate.
Qed.

Lemma index_fresh (ref rest : string) :
  String.index 0 "@{" ref = None ->
  String.index 0 "@{" (ref +:+ "@{" +:+ rest) = Some (String.length ref).
Proof.
  induction ref as [|b ref IH].
  - intros _. rewrite sapp_nil, !sapp_cons, sapp_nil. destruct rest; reflexivity.
  - rewrite sapp_cons. cbn [String.index String.length].
    destruct (String.prefix "@{" (String b ref)) eqn:Hp; [discriminate|].
    destruct (String.index 0 "@{" ref) as [n|] eqn:Hi; [discriminate|].
    intros _. rewrite (IH eq_refl).
    replace (String.prefix "@{" (String b (ref +:+ "@{" +:+ rest))) with false;
      [reflexivity|].
    symmetry. revert Hp. cbn [String.prefix].
    destruct (ascii_dec "@" b); [apply prefix_brace_app | reflexivity].
Qed.

Lemma lastIndexFrom_end (c : ascii) (s : string) :
  forall i found,
    lastIndexFrom c (s +:+ String c "") i found = i + len s.
Proof.
  induction s as [|a s IH]; intros i found.
  - rewrite sapp_nil. simpl. rewrite Ascii.eqb_refl. unfold len. simpl. lia.
  - rewrite sapp_cons. cbn [lastIndexFrom]. rewrite IH. unfold len.
    cbn [String.length]. lia.
Qed.

Lemma substring_middle (a b c : string) :
  String.substring (String.length a) (String.length b) (a +:+ b +:+ c) = b.
Proof.
  induction a as [|x a IH]; [|rewrite sapp_cons; exact IH].
  rewrite sapp_nil.
  induction b as [|y b IHb].
  - rewrite sapp_nil. destruct c; reflexivity.
  - rewrite sapp_cons. cbn [String.length String.substring]. f_equal. exact IHb.
Qed.

(** X4.  What [reflogDate] takes from a reflog selector.  From
    [<ref>@{<date>}], where [<ref>] holds no ["@{"], it takes exactly
    [<date>] when that is not empty (the date may itself hold braces); an
    empty pair of braces, a line without ["@{"] and a line without ["}"]
    give nothing.  Hence [getBranchReflogLatestTime] on such an answer
    returns what [time.Parse] with RFC 3339, then [parseGitDate], make of
    [<date>], and nothing when the query fails or prints nothing. *)
Theorem reflog_selector_date (o : Oracle) (w : World) (branch : string) :
  (forall ref date,
     Index ref "@{" = -1 -> date <> "" ->
     reflogDate (ref +:+ "@{" +:+ date +:+ "}") = Some date) /\
  (forall ref, Index ref "@{" = -1 -> reflogDate (ref +:+ "@{" +:+ "}") = None) /\
  (forall line, Index line "@{" = -1 -> reflogDate line = None) /\
  (forall line, LastIndexByte line "}" = -1 -> reflogDate line = None) /\
  (let answer := o (calls w) (reflogLatest branch) in
   (failure answer <> None \/ stdout answer = "" ->
    fst (run o (getBranchReflogLatestTime branch) w) = None) /\
   (forall ref date,
      failure answer = None -> stdout answer <> "" ->
      TrimSpace (stdout answer) = ref +:+ "@{" +:+ date +:+ "}" ->
      Index ref "@{" = -1 -> date <> "" ->
      fst (run o (getBranchReflogLatestTime branch) w)
      = match time_Parse RFC3339 date with
        | Some t => Some t
        | None => match parseGitDate date with Ok t => Some t | Err _ => None end
        end)).
Proof.
  assert (Hnoidx : forall s, Index s "@{" = -1 -> String.index 0 "@{" s = None).
  { intros s. unfold Index. destruct (String.index 0 "@{" s); [lia | reflexivity]. }
  assert (Hshape : forall ref date,
             Index ref "@{" = -1 ->
             Index (ref +:+ "@{" +:+ date +:+ "}") "@{" = len ref /\
             LastIndexByte (ref +:+ "@{" +:+ date +:+ "}") "}" = len ref + 2 + len date).
  { intros ref date Href. split.
    - unfold Index. rewrite (index_fresh ref (date +:+ "}") (Hnoidx _ Href)).
      reflexivity.
    - unfold LastIndexByte.
      replace (ref +:+ "@{" +:+ date +:+ "}") with ((ref +:+ "@{" +:+ date) +:+ "}")
        by (rewrite !sapp_assoc; reflexivity).
      rewrite lastIndexFrom_end. unfold len. rewrite !slength_app. simpl. lia. }
  assert (Hsome : forall ref date,
             Index ref "@{" = -1 -> date <> "" ->
             reflogDate (ref +:+ "@{" +:+ date +:+ "}") = Some date).
  { intros ref date Href Hdate. unfold reflogDate.
    destruct (Hshape ref date Href) as [-> ->].
    assert (Hlen : 0 < len date).
    { unfold len. destruct date; [congruence | simpl; lia]. }
    assert (Hr : 0 <= len ref) by (unfold len; lia).
    destruct (Z.eqb_spec (len ref) (-1)); [lia|].
    destruct (Z.eqb_spec (len ref + 2 + len date) (-1)); [lia|].
    destruct (Z.leb_spec (len ref + 2 + len date) (len ref + 2)); [lia|].
    cbn [orb]. f_equal. unfold slice.
    replace (Z.to_nat (len ref + 2)) with (String.length (ref +:+ "@{"))
      by (rewrite slength_app; unfold len; simpl; lia).
    replace (Z.to_nat (len ref + 2 + len date - (len ref + 2)))
      with (String.length date) by (unfold len; lia).
    replace (ref +:+ "@{" +:+ date +:+ "}") with ((ref +:+ "@{") +:+ date +:+ "}")
      by (rewrite !sapp_assoc; reflexivity).
    apply substring_middle. }
  split; [exact Hsome|]. split; [|split; [|split]].
  - intros ref Href. unfold reflogDate.
    destruct (Hshape ref "" Href) as [Hi Hl].
    change ("" +:+ "}") with "}" in Hi, Hl. rewrite Hi, Hl.
    assert (Hr : 0 <= len ref) by (unfold len; lia).
    destruct (Z.eqb_spec (len ref) (-1)); [lia|].
    destruct (Z.eqb_spec (len ref + 2 + len "") (-1)); [reflexivity|].
    destruct (Z.leb_spec (len ref + 2 + len "") (len ref + 2)); [reflexivity|].
    unfold len in *. simpl in *. lia.
  - intros line Hline. unfold reflogDate. rewrite Hline. reflexivity.
  - intros line Hline. unfold reflogDate. rewrite Hline.
    destruct (Index line "@{" =? -1); reflexivity.
  - intros answer. split.
    + intros Hbad. unfold getBranchReflogLatestTime, cmdOutput. cbn [bind run].
      fold answer. destruct Hbad as [Hfail|Hempty].
      * rewrite (bool_decide_eq_true_2 _ Hfail). reflexivity.
      * rewrite (proj2 (len_zero _) Hempty), orb_true_r. reflexivity.
    + intros ref date Hok Hout Htrim Href Hdate.
      unfold getBranchReflogLatestTime, cmdOutput. cbn [bind run]. fold answer.
      rewrite bool_decide_eq_false_2 by (rewrite Hok; intros Hc; apply Hc; reflexivity).
      destruct (len (stdout answer) =? 0) eqn:Hlen;
        [apply len_zero in Hlen; contradiction|].
      cbn [orb]. rewrite Htrim, (Hsome ref date Href Hdate).
      destruct (time_Parse RFC3339 date); [reflexivity|].
      destruct (parseGitDate date); reflexivity.
Qed.

End ReflogSelector.

(** ** The session: the view *)

Ltac z_cases :=
  repeat match goal with
         | |- context [Z.leb ?a ?b] => destruct (Z.leb_spec a b)
         | |- context [Z.ltb ?a ?b] => destruct (Z.ltb_spec a b)
         end.

Section ViewMore.
Context `{GoLib}.
Import Time.

Lemma SliceStable_sorted_id (l : list Branch) :
  StronglySorted newerFirst l -> SliceStable byTimeDesc l = l.
Proof.
  induction 1 as [|x l Hs IH Hall]; [reflexivity|].
  cbn [SliceStable]. rewrite IH.
  destruct l as [|y l']; [reflexivity|].
  cbn [insertStable]. unfold byTimeDesc at 1, After.
  inversion Hall as [|? ? Hxy _]; subst. unfold newerFirst in Hxy.
  destruct (Z.ltb_spec (CommitTime x) (CommitTime y)); [lia | reflexivity].
Qed.

Lemma StronglySorted_take {A : Type} (R : A -> A -> Prop) (l : list A) :
  StronglySorted R l -> forall n, StronglySorted R (take n l).
Proof.
  induction 1 as [|x l Hs IH Hall]; intros [|n]; simpl; try constructor.
  - apply IH.
  - apply Forall_take, Hall.
Qed.

Lemma applySortFilter_eq (m : model) :
  applySortFilter m =
    set_cursor (set_filtered m (filtered (applySortFilter m)))
      (clampCursor (cursor m) (Z.of_nat (length (filtered (applySortFilter m))))).
Proof.
  rewrite applySortFilter_view. unfold applySortFilter, clampCursor. cbv zeta.
  destruct m as [bs fs c wd ht se st sb sd cf ac]. cbn [search branches].
  destruct (String.eqb se "");
    match goal with
    | |- context [set_filtered ?m0 ?v] => generalize v; intros view
    end;
    unfold set_filtered, set_cursor; cbn [filtered cursor branches width height
      search status sortBy sortDesc confirming action];
    z_cases; cbn [filtered cursor branches width height
      search status sortBy sortDesc confirming action] in *; z_cases;
    cbn [filtered cursor] in *;
    try reflexivity; try (exfalso; lia); try (f_equal; lia).
Qed.

Lemma clampCursor_idem (c n : Z) : clampCursor (clampCursor c n) n = clampCursor c n.
Proof. unfold clampCursor. z_cases; lia. Qed.

Lemma clampCursor_range (c n : Z) :
  0 <= n -> (n = 0 -> clampCursor c n = 0) /\ (0 < n -> 0 <= clampCursor c n < n).
Proof. intros Hn. unfold clampCursor. z_cases; lia. Qed.

(** X5.  [applySortFilter] recomputes the view from the snapshot, the
    search text and the sort settings alone (two models that agree on
    these four get the same view), touches no field but the view and the
    cursor, and is idempotent: applying it twice is applying it once. *)
Theorem applySortFilter_idempotent (m : model) :
  applySortFilter (applySortFilter m) = applySortFilter m /\
  (forall m', branches m' = branches m -> search m' = search m ->
              sortBy m' = sortBy m -> sortDesc m' = sortDesc m ->
              filtered (applySortFilter m') = filtered (applySortFilter m)) /\
  applySortFilter m =
    set_cursor (set_filtered m (filtered (applySortFilter m)))
      (clampCursor (cursor m) (Z.of_nat (length (filtered (applySortFilter m))))).
Proof.
  split; [|split; [intros m'; apply applySortFilter_view_ext | apply applySortFilter_eq]].
  assert (Hv : filtered (applySortFilter (applySortFilter m))
               = filtered (applySortFilter m)).
  { apply applySortFilter_view_ext;
      destruct (applySortFilter_sort m) as (Hk & Hd & Hs & Hb & _); assumption. }
  assert (Hc : clampCursor (cursor (applySortFilter m))
                 (Z.of_nat (length (filtered (applySortFilter m))))
               = cursor (applySortFilter m)).
  { rewrite (applySortFilter_eq m) at 1 3. cbn [cursor set_cursor].
    apply clampCursor_idem. }
  rewrite (applySortFilter_eq (applySortFilter m)), Hv, Hc.
  generalize (applySortFilter m). intros []. reflexivity.
Qed.

Lemma initialModel_fields (bs : list Branch) :
  branches (initialModel bs) = bs /\
  filtered (initialModel bs) = SliceStable byTimeDesc bs /\
  cursor (initialModel bs) = 0 /\
  search (initialModel bs) = "" /\
  sortBy (initialModel bs) = "time" /\ sortDesc (initialModel bs) = true /\
  confirming (initialModel bs) = false /\ action (initialModel bs) = "" /\
  status (initialModel bs) = "".
Proof.
  unfold initialModel.
  match goal with |- context [applySortFilter ?m0] => set (m := m0) end.
  destruct (applySortFilter_sort m) as (Hk & Hd & Hs & Hb & Hst & Hc & Ha).
  rewrite Hk, Hd, Hs, Hb, Hst, Hc, Ha.
  assert (Hf : filtered (applySortFilter m) = SliceStable byTimeDesc bs).
  { rewrite applySortFilter_view. reflexivity. }
  rewrite Hf. repeat split.
  rewrite applySortFilter_eq. cbn [cursor set_cursor]. unfold clampCursor.
  cbn [cursor m]. z_cases; lia.
Qed.

Lemma getRecentBranches_sorted (o : Oracle) (w : World) (ranked : list Branch) :
  fst (run o getRecentBranches w) = Ok ranked -> StronglySorted newerFirst ranked.
Proof.
  intros Hrun.
  destruct (failure (o (calls w) forEachRefHeads)) as [e|] eqn:Hfail.
  { exfalso. revert Hrun. unfold getRecentBranches, cmdOutput.
    cbn [bind run]. rewrite Hfail. discriminate. }
  rewrite (getRecentBranches_unfold o w Hfail) in Hrun. cbv zeta in Hrun.
  cbn [fst] in Hrun.
  match type of Hrun with
  | context [fst (run o (scanBranches ?cb ?rt ?ls []) ?w3)] =>
      destruct (fst (run o (scanBranches cb rt ls []) w3)) as [brs|e];
      [|discriminate]
  end.
  destruct (snd (scanLines _)); [discriminate|]. injection Hrun as <-.
  apply SliceStable_sorted.
Qed.

Lemma initialModel_sorted_view (l : list Branch) :
  StronglySorted newerFirst l -> filtered (initialModel l) = l.
Proof.
  intros Hs. destruct (initialModel_fields l) as (_ & -> & _).
  apply SliceStable_sorted_id, Hs.
Qed.

(** X6.  The session opened on a ranking shows it as it is.  For a list
    [ranked] returned by [getRecentBranches] and any limit [n], the model
    built from the first [n] records has them as its snapshot and, in the
    same order, as its view, with the cursor on the first row, no search
    text, sort by time descending and no confirmation pending. *)
Theorem initial_view_is_ranking (o : Oracle) (w : World) (ranked : list Branch)
    (n : nat) :
  fst (run o getRecentBranches w) = Ok ranked ->
  let m := initialModel (take n ranked) in
  branches m = take n ranked /\ filtered m = take n ranked /\
  cursor m = 0 /\ search m = "" /\
  sortBy m = "time" /\ sortDesc m = true /\ confirming m = false.
Proof.
  intros Hrun m.
  assert (Hsorted : StronglySorted newerFirst ranked).
  { destruct (failure (o (calls w) forEachRefHeads)) as [e|] eqn:Hfail.
    { exfalso. revert Hrun. unfold getRecentBranches, cmdOutput.
      cbn [bind run]. rewrite Hfail. discriminate. }
    rewrite (getRecentBranches_unfold o w Hfail) in Hrun. cbv zeta in Hrun.
    cbn [fst] in Hrun.
    match type of Hrun with
    | context [fst (run o (scanBranches ?cb ?rt ?ls []) ?w3)] =>
        destruct (fst (run o (scanBranches cb rt ls []) w3)) as [brs|e];
        [|discriminate]
    end.
    destruct (snd (scanLines _)); [discriminate|]. injection Hrun as <-.
    apply SliceStable_sorted. }
  destruct (initialModel_fields (take n ranked))
    as (Hb & Hf & Hc & Hs & Hk & Hd & Hcf & _).
  subst m. rewrite Hb, Hf, Hc, Hs, Hk, Hd, Hcf.
  rewrite (SliceStable_sorted_id _ (StronglySorted_take _ _ Hsorted n)).
  repeat split.
Qed.

End ViewMore.

(** ** The session: what every transition keeps *)

Section Closure.
Context `{GoLib}.

(** A relation between the model before and the model after that is kept
    by the few ways [Update] builds its result is kept by [Update]. *)
Variable P : model -> model -> Prop.
Hypothesis P_refl : forall m, P m m.
Hypothesis P_status : forall m m1 s, P m m1 -> P m (set_status m1 s).
Hypothesis P_confirm : forall m m1 c a, P m m1 -> P m (set_confirm m1 c a).
Hypothesis P_cursor : forall m c, P m (set_cursor m c).
Hypothesis P_reload :
  forall m m1 brs, P m m1 -> P m (applySortFilter (set_branches m1 brs)).
Hypothesis P_esc : forall m, P m (applySortFilter (set_search m "")).
Hypothesis P_sort : forall m, P m (applySortFilter (toggleSort m)).

Lemma reloadQuietly_closed (m m1 : model) :
  P m m1 -> AllRet (P m) (reloadQuietly m1).
Proof.
  intros Hm. unfold reloadQuietly.
  apply AllRet_bind with (Q := fun _ => True); [apply AllRet_any|].
  intros [brs|e] _; simpl; auto.
Qed.

Lemma reload_closed (m : model) (failed done_ : string) :
  AllRet (fun mc => P m (fst mc)) (reload m failed done_).
Proof.
  unfold reload.
  apply AllRet_bind with (Q := fun _ => True); [apply AllRet_any|].
  intros [brs|e] _; simpl; auto.
Qed.

Lemma confirmYes_closed (m : model) :
  AllRet (fun mc => P m (fst mc)) (confirmYes m).
Proof.
  unfold confirmYes.
  apply AllRet_bind with (Q := P m); [|intros a Ha; simpl; auto].
  destruct (atCursor m) as [b|]; [|simpl; auto].
  destruct (String.eqb (action m) "delete").
  - destruct (IsCurrent b); [simpl; auto|].
    apply AllRet_bind with (Q := fun _ => True); [apply AllRet_any|].
    intros [e|] _; [simpl; auto|].
    apply reloadQuietly_closed. auto.
  - destruct (String.eqb (action m) "merge"); [|simpl; auto].
    destruct (IsCurrent b); [simpl; auto|].
    apply AllRet_bind with (Q := fun _ => True); [apply AllRet_any|].
    intros [e|] _; [simpl; auto|].
    apply reloadQuietly_closed. auto.
Qed.

Lemma keySwitch_closed (m : model) (s : string) :
  AllRet (fun mc => P m (fst mc)) (keySwitch m s).
Proof.
  unfold keySwitch.
  repeat match goal with
         | |- context [if isKey s ?l then _ else _] => destruct (isKey s l)
         end;
    try (simpl; auto; fail).
  - simpl. destruct (0 <? cursor m); auto.
  - simpl. destruct (cursor m <? _); auto.
  - simpl. destruct (0 <? _); auto.
  - destruct (atCursor m) as [b|]; [|simpl; auto].
    simpl. intros r. destruct (failure r); simpl; auto.
  - destruct (atCursor m) as [b|]; simpl; auto.
  - destruct (atCursor m) as [b|]; simpl; auto.
  - apply reload_closed.
  - simpl. intros r. apply reload_closed.
Qed.

Lemma Update_closed (m : model) (msg : Msg) :
  AllRet (fun mc => P m (fst mc)) (Update m msg).
Proof.
  destruct msg as [s| |s|]; try (simpl; auto; fail).
  unfold Update.
  destruct (confirming m); [|apply keySwitch_closed].
  destruct (isKey s ["y"; "Y"]); [apply confirmYes_closed|].
  destruct (isKey s ["n"; "N"; "esc"]); [|apply keySwitch_closed].
  simpl. auto.
Qed.

Lemma dispatch_closed (m : model) (msg : Msg) : AllRet (P m) (dispatch m msg).
Proof.
  unfold dispatch.
  apply AllRet_bind with (Q := fun mc => P m (fst mc)); [apply Update_closed|].
  intros [m' c] Hm'. simpl in *.
  destruct c; simpl; try exact Hm'.
  intros s. apply P_status, Hm'.
Qed.

End Closure.

Section Invariants.
Context `{GoLib}.

Lemma view_ok_apply (x : model) : view_ok (applySortFilter x).
Proof.
  unfold view_ok. symmetry. apply applySortFilter_view_ext;
    destruct (applySortFilter_sort x) as (Hk & Hd & Hs & Hb & _); assumption.
Qed.

Lemma view_ok_ext (m1 m2 : model) :
  filtered m2 = filtered m1 -> branches m2 = branches m1 ->
  search m2 = search m1 -> sortBy m2 = sortBy m1 ->
  sortDesc m2 = sortDesc m1 -> view_ok m1 -> view_ok m2.
Proof.
  intros Hf Hb Hs Hk Hd Hv. unfold view_ok in *. rewrite Hf, Hv.
  apply applySortFilter_view_ext; congruence.
Qed.

Lemma viewStep_status (m m1 : model) (s : string) :
  viewStep m m1 -> viewStep m (set_status m1 s).
Proof.
  intros [(Hb & Hf & Hs & Hk & Hd)|Hv].
  - left. repeat split; assumption.
  - right. apply (view_ok_ext m1); try reflexivity. exact Hv.
Qed.

Lemma viewStep_confirm (m m1 : model) (c : bool) (a : string) :
  viewStep m m1 -> viewStep m (set_confirm m1 c a).
Proof.
  intros [(Hb & Hf & Hs & Hk & Hd)|Hv].
  - left. repeat split; assumption.
  - right. apply (view_ok_ext m1); try reflexivity. exact Hv.
Qed.

Lemma viewStep_closed (m : model) (msg : Msg) :
  AllRet (fun mc => viewStep m (fst mc)) (Update m msg) /\
  AllRet (viewStep m) (dispatch m msg).
Proof.
  split; [apply Update_closed | apply dispatch_closed].
  all: try (intros m0; left; repeat split; fail).
  all: try (intros m0 c; left; repeat split; fail).
  all: try (intros; right; apply view_ok_apply; fail).
  all: try (intros m0 m1 s; apply viewStep_status; fail).
  all: try (intros m0 m1 c a; apply viewStep_confirm; fail).
Qed.

Lemma view_ok_step (m m' : model) : view_ok m -> viewStep m m' -> view_ok m'.
Proof.
  intros Hv [(Hb & Hf & Hs & Hk & Hd)|Hv']; [|exact Hv'].
  unfold view_ok in *. rewrite Hf, Hv.
  apply applySortFilter_view_ext; congruence.
Qed.

(** X7.  The view is never stale.  The initial model's view is the one
    [applySortFilter] computes from its snapshot, search text and sort
    settings, and this stays true after [Update] on every message and
    after the whole dispatch of a message, for every answer of the
    environment: no transition changes the snapshot, the search text or
    the sort settings without recomputing the view. *)
Theorem view_never_stale (bs : list Branch) (m : model) (msg : Msg)
    (o : Oracle) (w : World) :
  view_ok m ->
  view_ok (initialModel bs) /\
  view_ok (fst (fst (run o (Update m msg) w))) /\
  view_ok (fst (run o (dispatch m msg) w)).
Proof.
  intros Hv. split; [apply view_ok_apply|]. split.
  - apply (view_ok_step m _ Hv).
    apply (AllRet_run (fun mc => viewStep m (fst mc))), viewStep_closed.
  - apply (view_ok_step m _ Hv).
    apply (AllRet_run (viewStep m)), viewStep_closed.
Qed.

Lemma searchStep_closed (m : model) (msg : Msg) :
  AllRet (searchStep m) (dispatch m msg).
Proof.
  apply dispatch_closed; unfold searchStep.
  - intros m0. left. reflexivity.
  - intros m0 m1 s Hs. exact Hs.
  - intros m0 m1 c a Hs. exact Hs.
  - intros m0 c. left. reflexivity.
  - intros m0 m1 brs Hs.
    destruct (applySortFilter_sort (set_branches m1 brs)) as (_ & _ & -> & _).
    exact Hs.
  - intros m0. right.
    destruct (applySortFilter_sort (set_search m0 "")) as (_ & _ & -> & _).
    reflexivity.
  - intros m0. left.
    destruct (applySortFilter_sort (toggleSort m0)) as (_ & _ & -> & _).
    unfold toggleSort.
    repeat match goal with |- context [if ?c then _ else _] => destruct c end;
      reflexivity.
Qed.

Lemma dispatchAll_invariant (I : model -> Prop) (o : Oracle) :
  (forall m msg w, I m -> I (fst (run o (dispatch m msg) w))) ->
  forall msgs m w, I m -> I (fst (run o (dispatchAll m msgs) w)).
Proof.
  intros Hstep. induction msgs as [|msg msgs IH]; intros m w Hm; [exact Hm|].
  cbn [dispatchAll]. rewrite run_bind. apply IH, Hstep, Hm.
Qed.

(** X8.  The search text never leaves the empty string.  In the session
    opened on any list of branches, after any sequence of messages (key
    presses, typed search lines, ticks, status messages) the model's
    search text is empty, so its view is its snapshot sorted by the
    current sort settings: a rearrangement of the snapshot in which no
    branch is ever hidden. *)
Theorem search_text_stays_empty (bs : list Branch) (msgs : list Msg)
    (o : Oracle) (w : World) :
  let m := fst (run o (dispatchAll (initialModel bs) msgs) w) in
  search m = "" /\
  filtered m = SliceStable (viewLess m) (branches m) /\
  Permutation (branches m) (filtered m).
Proof.
  intros m.
  assert (Hinv : search m = "" /\ view_ok m).
  { subst m.
    apply (dispatchAll_invariant (fun m => search m = "" /\ view_ok m)).
    - intros m0 msg w0 [Hs Hv]. split.
      + destruct (AllRet_run (searchStep m0) _ (searchStep_closed m0 msg) o w0)
          as [Hk|Hk]; congruence.
      + apply (view_ok_step m0 _ Hv).
        apply (AllRet_run (viewStep m0)), viewStep_closed.
    - split; [apply initialModel_fields | apply view_ok_apply]. }
  destruct Hinv as [Hs Hv]. split; [exact Hs|].
  assert (Hf : filtered m = SliceStable (viewLess m) (branches m)).
  { rewrite Hv, applySortFilter_view, Hs. reflexivity. }
  split; [exact Hf|]. rewrite Hf. apply SliceStable_perm.
Qed.

End Invariants.

(** ** The session: order and filter of the view *)

Section ViewOrder.
Context `{GoLib}.
Import Time.

Lemma scompare_refl (s : string) : String.compare s s = Eq.
Proof.
  induction s as [|a s IH]; [reflexivity|].
  cbn [String.compare]. unfold Ascii.compare. rewrite N.compare_refl. exact IH.
Qed.

Lemma scompare_le_trans (a : string) :
  forall b c,
    String.compare a b <> Gt -> String.compare b c <> Gt ->
    String.compare a c <> Gt.
Proof.
  induction a as [|x a IH]; intros [|y b] [|z c]; cbn [String.compare];
    try congruence.
  unfold Ascii.compare.
  destruct (N.compare_spec (N_of_ascii x) (N_of_ascii y)) as [Exy|Lxy|Gxy];
    destruct (N.compare_spec (N_of_ascii y) (N_of_ascii z)) as [Eyz|Lyz|Gyz];
    destruct (N.compare_spec (N_of_ascii x) (N_of_ascii z)) as [Exz|Lxz|Gxz];
    try congruence; try lia.
  apply IH.
Qed.

Lemma sltb_false_leb (a b : string) :
  String.ltb b a = false <-> String.leb a b = true.
Proof.
  unfold String.ltb, String.leb. rewrite (String.compare_antisym a b).
  destruct (String.compare b a); simpl; split; congruence.
Qed.

Lemma sleb_trans (a b c : string) :
  String.leb a b = true -> String.leb b c = true -> String.leb a c = true.
Proof.
  unfold String.leb. intros Hab Hbc.
  pose proof (scompare_le_trans a b c) as Ht.
  destruct (String.compare a b), (String.compare b c), (String.compare a c);
    try reflexivity; try discriminate; exfalso; apply Ht; congruence.
Qed.

Lemma sltb_leb (a b : string) : String.ltb a b = true -> String.leb a b = true.
Proof.
  unfold String.ltb, String.leb. destruct (String.compare a b); congruence.
Qed.

Lemma sltb_neq (a b : string) : String.ltb a b = true -> String.eqb a b = false.
Proof.
  intros Hlt. destruct (String.eqb_spec a b) as [->|]; [|reflexivity].
  unfold String.ltb in Hlt. rewrite scompare_refl in Hlt. discriminate.
Qed.

Lemma viewLess_inOrder (m : model) (a b : Branch) :
  viewLess m b a = false <-> inOrder m a b.
Proof.
  unfold viewLess, inOrder, After, Before.
  destruct (String.eqb (sortBy m) "name"), (sortDesc m);
    try apply sltb_false_leb; rewrite Z.ltb_ge; reflexivity.
Qed.

Lemma viewLess_strict (m : model) (a b : Branch) :
  viewLess m b a = true -> inOrder m b a /\ sameKey m a b = false.
Proof.
  unfold viewLess, inOrder, sameKey, After, Before.
  destruct (String.eqb (sortBy m) "name"), (sortDesc m); intros Hlt.
  - split; [apply sltb_leb, Hlt|].
    rewrite String.eqb_sym. apply sltb_neq, Hlt.
  - split; [apply sltb_leb, Hlt | apply sltb_neq, Hlt].
  - apply Z.ltb_lt in Hlt. split; [lia | apply Z.eqb_neq; lia].
  - apply Z.ltb_lt in Hlt. split; [lia | apply Z.eqb_neq; lia].
Qed.

Lemma inOrder_trans (m : model) (a b c : Branch) :
  inOrder m a b -> inOrder m b c -> inOrder m a c.
Proof.
  unfold inOrder.
  destruct (String.eqb (sortBy m) "name"), (sortDesc m); intros Hab Hbc;
    try lia; eapply sleb_trans; eassumption.
Qed.

Lemma insertStable_inOrder (m : model) (x : Branch) (l : list Branch) :
  StronglySorted (inOrder m) l ->
  StronglySorted (inOrder m) (insertStable (viewLess m) x l).
Proof.
  induction 1 as [|y l Hs IH Hall]; cbn [insertStable].
  - constructor; constructor.
  - destruct (viewLess m y x) eqn:Hlt.
    + constructor; [exact IH|].
      apply (Permutation_Forall (insertStable_perm (viewLess m) x l)).
      constructor; [apply (viewLess_strict m x y Hlt) | exact Hall].
    + apply viewLess_inOrder in Hlt.
      constructor; [constructor; assumption|].
      constructor; [exact Hlt|].
      eapply Forall_impl; [exact Hall|].
      intros z Hz. apply (inOrder_trans m x y z); assumption.
Qed.

Lemma sameKey_sym_false (m : model) (k x y : Branch) :
  sameKey m x y = false -> sameKey m k y = true -> sameKey m k x = false.
Proof.
  unfold sameKey. destruct (String.eqb (sortBy m) "name").
  - intros Hxy Hky. apply String.eqb_eq in Hky. apply String.eqb_neq in Hxy.
    apply String.eqb_neq. congruence.
  - intros Hxy Hky. apply Z.eqb_eq in Hky. apply Z.eqb_neq in Hxy.
    apply Z.eqb_neq. lia.
Qed.

(** X9.  The view when no search is active.  It is a rearrangement of the
    snapshot (nothing dropped, nothing doubled); it is in the order of
    the sort settings: by name ascending or descending (byte-wise) when
    [sortBy] is ["name"], by time descending or ascending otherwise; and
    the sort is stable: rows with the same name (resp. the same time)
    keep the order they have in the snapshot. *)
Theorem view_sorted_by_setting (m : model) :
  search m = "" ->
  let view := filtered (applySortFilter m) in
  Permutation (branches m) view /\
  StronglySorted (inOrder m) view /\
  (forall k, List.filter (sameKey m k) view = List.filter (sameKey m k) (branches m)).
Proof.
  intros Hs view.
  assert (Hv : view = SliceStable (viewLess m) (branches m)).
  { subst view. rewrite applySortFilter_view, Hs. reflexivity. }
  rewrite Hv. clear Hv. split; [apply SliceStable_perm|]. split.
  - induction (branches m) as [|x l IH]; [constructor|].
    cbn [SliceStable]. apply insertStable_inOrder, IH.
  - intros k. apply SliceStable_filter. intros x y Hlt Hy.
    apply (sameKey_sym_false m k x y); [|exact Hy].
    apply (viewLess_strict m x y Hlt).
Qed.

Lemma nameToBranch_source (bs : list Branch) (n : string) (b : Branch) :
  forall acc : gmap string Branch,
    foldl (fun (acc : gmap string Branch) b => <[Name b := b]> acc) acc bs !! n
    = Some b ->
    acc !! n = Some b \/ (In b bs /\ Name b = n).
Proof.
  induction bs as [|x bs IH]; intros acc Hl; [left; exact Hl|].
  cbn [foldl] in Hl. destruct (IH _ Hl) as [Hacc|[Hin Hn]].
  - destruct (decide (Name x = n)) as [Heq|Hne].
    + subst n. rewrite lookup_insert_eq in Hacc. injection Hacc as <-.
      right. split; [left; reflexivity | reflexivity].
    + rewrite lookup_insert_ne in Hacc by exact Hne. left. exact Hacc.
  - right. split; [right; exact Hin | exact Hn].
Qed.

Lemma omap_length_le {A B : Type} (f : A -> option B) (l : list A) :
  (length (omap f l) <= length l)%nat.
Proof.
  induction l as [|x l IH]; [reflexivity|].
  change (omap f (x :: l))
    with (match f x with Some y => y :: omap f l | None => omap f l end).
  destruct (f x); simpl; lia.
Qed.

(** X10.  The view when a search is active.  Whatever list of names the
    fuzzy matcher returns, every row of the view is a record of the
    snapshot whose name is in that list, and the view has at most as many
    rows as the list has names; the sort settings play no part: changing
    them does not change the view. *)
Theorem filtered_view_from_snapshot (m : model) :
  search m <> "" ->
  let matches := FindNormalizedFold (search m) (map Name (branches m)) in
  let view := filtered (applySortFilter m) in
  (forall b, In b view -> In b (branches m) /\ In (Name b) matches) /\
  (length view <= length matches)%nat /\
  (forall by_ desc, filtered (applySortFilter (set_sort m by_ desc)) = view) /\
  filtered (applySortFilter (toggleSort m)) = view.
Proof.
  intros Hs matches view.
  assert (Hne : String.eqb (search m) "" = false) by (apply String.eqb_neq, Hs).
  assert (Hv : view = omap (fun n => nameToBranch (branches m) !! n) matches).
  { subst view. rewrite applySortFilter_view, Hne. reflexivity. }
  assert (Hsort : forall m', branches m' = branches m -> search m' = search m ->
                             filtered (applySortFilter m') = view).
  { intros m' Hb Hse. rewrite applySortFilter_view, Hse, Hne, Hb. symmetry. exact Hv. }
  split; [|split; [|split]].
  - intros b Hb. rewrite Hv in Hb. apply list_elem_of_In in Hb.
    apply list_elem_of_omap in Hb. destruct Hb as (n & Hn & Hl).
    apply nameToBranch_source in Hl. destruct Hl as [He|[Hin Hname]].
    + rewrite lookup_empty in He. discriminate.
    + split; [exact Hin|]. rewrite Hname. apply list_elem_of_In, Hn.
  - rewrite Hv. apply omap_length_le.
  - intros by_ desc. apply Hsort; reflexivity.
  - apply Hsort; unfold toggleSort;
      repeat match goal with |- context [if ?c then _ else _] => destruct c end;
      reflexivity.
Qed.

End ViewOrder.

(** ** The session: which processes are run *)

Section Discipline.
Context `{GoLib}.

Lemma isKey_In (s : string) (ks : list string) : isKey s ks = true -> In s ks.
Proof.
  unfold isKey. intros Hk. apply existsb_exists in Hk.
  destruct Hk as (k & Hin & Heq). apply String.eqb_eq in Heq. subst k. exact Hin.
Qed.

Lemma isKey_one (s k : string) : isKey s [k] = true -> s = k.
Proof. intros Hk. apply isKey_In in Hk. destruct Hk as [<-|[]]. reflexivity. Qed.

Lemma reload_calls (P : list string -> Prop) (m : model) (failed done_ : string) :
  (forall argv, isQuery argv -> P argv) -> AllCalls P (reload m failed done_).
Proof.
  intros HP. unfold reload. apply AllCalls_bind.
  - apply (AllCalls_impl isQuery); [exact HP | apply getRecentBranches_queries].
  - intros [brs|e]; exact I.
Qed.

Lemma reloadQuietly_calls (P : list string -> Prop) (m : model) :
  (forall argv, isQuery argv -> P argv) -> AllCalls P (reloadQuietly m).
Proof.
  intros HP. unfold reloadQuietly. apply AllCalls_bind.
  - apply (AllCalls_impl isQuery); [exact HP | apply getRecentBranches_queries].
  - intros [brs|e]; exact I.
Qed.

Lemma keySwitch_calls (m : model) (s : string) :
  AllCalls (allowed m (KeyMsg s)) (keySwitch m s).
Proof.
  unfold keySwitch.
  repeat match goal with
         | |- context [if isKey s ?l then _ else _] =>
             let Hk := fresh "Hk" in destruct (isKey s l) eqn:Hk
         end;
    try exact I; try (intros c; exact I).
  - (* enter *)
    apply isKey_one in Hk6. subst s.
    destruct (atCursor m) as [b|] eqn:Hb; [|exact I].
    unfold gitCheckoutBranch, runCmdSilent, cmdRun. cbn [bind AllCalls]. split.
    + right. right. left. split; [reflexivity|]. exists b.
      split; [exact Hb | reflexivity].
    + intros r. destruct (failure r); exact I.
  - (* x *) destruct (atCursor m); exact I.
  - (* m *) destruct (atCursor m); exact I.
  - (* r *)
    apply isKey_one in Hk9. subst s. apply reload_calls.
    intros argv Hq. left. split; [reflexivity | exact Hq].
  - (* f *)
    apply isKey_one in Hk10. subst s.
    unfold gitFetchAll, cmdRun. cbn [bind AllCalls]. split.
    + right. left. split; [reflexivity | left; reflexivity].
    + intros r. apply reload_calls.
      intros argv Hq. right. left. split; [reflexivity | right; exact Hq].
Qed.

Lemma confirmYes_calls (m : model) (s : string) :
  s = "y" \/ s = "Y" -> confirming m = true ->
  AllCalls (allowed m (KeyMsg s)) (confirmYes m).
Proof.
  intros Hs Hc. unfold confirmYes.
  apply AllCalls_bind; [|intros a; exact I].
  destruct (atCursor m) as [b|] eqn:Hb; [|exact I].
  assert (Hallow : forall argv,
             IsCurrent b = false ->
             (action m = "delete" /\
              (argv = ["git"; "branch"; "-d"; Name b] \/
               argv = ["git"; "branch"; "-D"; Name b] \/ isQuery argv)) \/
             (action m = "merge" /\
              (argv = ["git"; "merge"; Name b] \/ isQuery argv)) ->
             allowed m (KeyMsg s) argv).
  { intros argv Hcur Hcase. right. right. right.
    split; [exact Hs|]. split; [exact Hc|]. exists b. auto. }
  destruct (String.eqb_spec (action m) "delete") as [Ha|Ha].
  - destruct (IsCurrent b) eqn:Hcur; [exact I|].
    unfold gitDeleteBranch, runCmdSilent, cmdRun. cbn [bind AllCalls]. split.
    { apply Hallow; auto. }
    intros r1. destruct (failure r1) as [e1|].
    + cbn [bind AllCalls]. split; [apply Hallow; auto|].
      intros r2. destruct (failure r2); [exact I|].
      apply reloadQuietly_calls. intros argv Hq. apply Hallow; auto.
    + cbn [bind]. apply reloadQuietly_calls. intros argv Hq. apply Hallow; auto.
  - destruct (String.eqb_spec (action m) "merge") as [Hm|Hm]; [|exact I].
    destruct (IsCurrent b) eqn:Hcur; [exact I|].
    unfold gitMergeIntoCurrent, runCmdSilent, cmdRun. cbn [bind AllCalls]. split.
    { apply Hallow; auto. }
    intros r1. destruct (failure r1); [exact I|].
    apply reloadQuietly_calls. intros argv Hq. apply Hallow; auto.
Qed.

Lemma Update_calls (m : model) (msg : Msg) :
  AllCalls (allowed m msg) (Update m msg).
Proof.
  destruct msg as [s| |s|]; try exact I.
  unfold Update.
  destruct (confirming m) eqn:Hc; [|apply keySwitch_calls].
  destruct (isKey s ["y"; "Y"]) eqn:Hy.
  - apply confirmYes_calls; [|exact Hc].
    apply isKey_In in Hy. destruct Hy as [<-|[<-|[]]]; auto.
  - destruct (isKey s ["n"; "N"; "esc"]); [exact I | apply keySwitch_calls].
Qed.

(** X11.  Which processes [Update] can start.  On [r] only the queries of
    a ranking; on [f] the fetch and those queries; on [enter] the
    checkout of the branch under the cursor; on [y]/[Y] in the
    confirmation state, and only for a branch under the cursor that is
    not marked current, [git branch -d], [git branch -D] (pending delete)
    or [git merge] (pending merge) on that branch, then the queries.
    Every other message (moving, sorting, searching, asking for a delete
    or a merge, cancelling, ticks) starts no process at all. *)
Theorem update_process_discipline (m : model) (msg : Msg) (o : Oracle) (w : World) :
  (exists later,
      calls (snd (run o (Update m msg) w)) = later ++ calls w /\
      Forall (allowed m msg) later) /\
  ((forall s, msg = KeyMsg s ->
              ~ In s ["r"; "f"; "enter"] /\
              (In s ["y"; "Y"] -> confirming m = false)) ->
   calls (snd (run o (Update m msg) w)) = calls w).
Proof.
  pose proof (AllCalls_run _ _ (Update_calls m msg) o w) as (later & Hl & Hall).
  split; [exists later; split; assumption|].
  intros Hquiet. rewrite Hl.
  destruct later as [|argv later]; [reflexivity|]. exfalso.
  inversion Hall as [|? ? Hargv _]; subst.
  destruct msg as [s| |s|]; try exact Hargv.
  destruct (Hquiet s eq_refl) as [Hnot Hyes].
  destruct Hargv as [[-> _]|[[-> _]|[[-> _]|[Hy [Hc _]]]]].
  - apply Hnot. simpl. auto.
  - apply Hnot. simpl. auto.
  - apply Hnot. simpl. auto.
  - assert (Hin : In s ["y"; "Y"]) by (destruct Hy as [->| ->]; simpl; auto).
    rewrite (Hyes Hin) in Hc. discriminate.
Qed.

(** X12.  A confirmed delete that goes through.  For a branch under the
    cursor that is not marked current: when [git branch -d] succeeds, the
    forced delete is not run; when it fails, [git branch -D] is run, and
    if that succeeds the branch is deleted all the same.  In both cases
    the status is "deleted <name>", the confirmation is closed and the
    ranking is run again: its list replaces the snapshot, and if it fails
    the old snapshot, still holding the deleted branch, is kept under the
    same status. *)
Theorem confirmed_delete_outcomes (o : Oracle) (w : World) (m : model) (b : Branch) :
  confirming m = true -> action m = "delete" ->
  atCursor m = Some b -> IsCurrent b = false ->
  let safe := ["git"; "branch"; "-d"; Name b] in
  let forced := ["git"; "branch"; "-D"; Name b] in
  let done_ := set_status m ("deleted " +:+ Name b) in
  (failure (o (calls w) safe) = None ->
   fst (run o (Update m (KeyMsg "y")) w)
   = (set_confirm (afterReload done_ (fst (run o getRecentBranches (ran safe w))))
        false "", CmdNil)
   /\ exists later,
        calls (snd (run o (Update m (KeyMsg "y")) w)) = later ++ safe :: calls w
        /\ Forall isQuery later)
  /\
  (failure (o (calls w) safe) <> None ->
   failure (o (safe :: calls w) forced) = None ->
   fst (run o (Update m (KeyMsg "y")) w)
   = (set_confirm
        (afterReload done_ (fst (run o getRecentBranches (ran forced (ran safe w)))))
        false "", CmdNil)
   /\ exists later,
        calls (snd (run o (Update m (KeyMsg "y")) w))
        = later ++ forced :: safe :: calls w
        /\ Forall isQuery later).
Proof.
  intros Hc Ha Hb Hcur safe forced done_.
  assert (HU : Update m (KeyMsg "y") =
            bind (bind (gitDeleteBranch (Name b))
                    (fun err => match err with
                                | Some e => Ret (set_status m ("delete failed: " +:+ e))
                                | None => reloadQuietly done_
                                end))
                 (fun m' => Ret (set_confirm m' false "", CmdNil))).
  { unfold Update. rewrite Hc. keys. unfold confirmYes. rewrite Hb, Ha, Hcur.
    reflexivity. }
  assert (Hreload : forall w1,
             run o (reloadQuietly done_) w1
             = (afterReload done_ (fst (run o getRecentBranches w1)),
                snd (run o getRecentBranches w1))).
  { intros w1. unfold reloadQuietly. rewrite run_bind.
    destruct (fst (run o getRecentBranches w1)); reflexivity. }
  assert (Hq : forall w1, exists later,
             calls (snd (run o getRecentBranches w1)) = later ++ calls w1
             /\ Forall isQuery later).
  { intros w1. apply AllCalls_run, getRecentBranches_queries. }
  split.
  - intros Hok. rewrite HU.
    unfold gitDeleteBranch, runCmdSilent, cmdRun. cbn [bind run].
    fold safe. rewrite Hok. cbn [bind].
    change (mkWorld (safe :: calls w) (stdin w) (cells w)) with (ran safe w).
    rewrite run_bind, Hreload. cbn [run fst snd]. split; [reflexivity|].
    apply (Hq (ran safe w)).
  - intros Hfail Hok. rewrite HU.
    unfold gitDeleteBranch, runCmdSilent, cmdRun. cbn [bind run].
    fold safe. destruct (failure (o (calls w) safe)) as [e1|]; [|congruence].
    cbn [bind run calls stdin cells]. fold forced. rewrite Hok. cbn [bind].
    change (mkWorld (forced :: safe :: calls w) (stdin w) (cells w))
      with (ran forced (ran safe w)).
    rewrite run_bind, Hreload. cbn [run fst snd]. split; [reflexivity|].
    apply (Hq (ran forced (ran safe w))).
Qed.

End Discipline.

(** ** [main]: flags, early exits, outputs *)

Section MainFacts.
Context `{GoLib} `{GoConv}.

Lemma limitValue_positive (val : string) (v : Z) :
  limitValue val = Ok v -> Atoi val = Some v /\ 0 < v.
Proof.
  unfold limitValue. destruct (Atoi val) as [n|]; [|discriminate].
  destruct (Z.leb_spec n 0); [discriminate|]. intros [= <-]. split; [reflexivity | lia].
Qed.

Lemma parseArgs_limit_upto (n : nat) :
  forall args f fl,
    (length args <= n)%nat ->
    parseArgs args f = Parsed_run fl ->
    (0 < limit f -> 0 < limit fl) /\
    ((forall a, In a args -> isLimitFlag a = false) -> limit fl = limit f).
Proof.
  induction n as [|n IH]; intros args f fl Hlen.
  - destruct args; [|simpl in Hlen; lia]. intros [= <-]. split; auto.
  - destruct args as [|arg rest]; [intros [= <-]; split; auto|].
    simpl in Hlen.
    assert (Hskip : forall f0, limit f0 = limit f ->
              parseArgs rest f0 = Parsed_run fl ->
              (0 < limit f -> 0 < limit fl) /\
              ((forall a, In a (arg :: rest) -> isLimitFlag a = false) ->
               limit fl = limit f)).
    { intros f0 Hl Hp. destruct (IH rest f0 fl ltac:(lia) Hp) as [Hpos Hsame].
      rewrite Hl in *.
      split; [exact Hpos|]. intros Hno. apply Hsame. intros a Ha. apply Hno.
      right. exact Ha. }
    cbn [parseArgs]. destruct (isLimitFlag arg) eqn:Hflag.
    + assert (Hno : (forall a, In a (arg :: rest) -> isLimitFlag a = false) -> False).
      { intros Hno. rewrite (Hno arg) in Hflag by (left; reflexivity). discriminate. }
      destruct (hasEquals arg).
      * destruct (limitValue (afterEquals arg)) as [v|e] eqn:Hv; [|discriminate].
        intros Hp. apply limitValue_positive in Hv. destruct Hv as [_ Hv].
        destruct (IH rest _ _ ltac:(lia) Hp) as [Hpos _].
        split; [intros _; apply Hpos, Hv|].
        intros Hn. destruct (Hno Hn).
      * destruct rest as [|val rest']; [discriminate|].
        destruct (limitValue val) as [v|e] eqn:Hv; [|discriminate].
        intros Hp. apply limitValue_positive in Hv. destruct Hv as [_ Hv].
        simpl in Hlen.
        destruct (IH rest' _ _ ltac:(lia) Hp) as [Hpos _].
        split; [intros _; apply Hpos, Hv|].
        intros Hn. destruct (Hno Hn).
    + repeat match goal with
             | |- context [if ?c then _ else _] => destruct c
             end;
        try discriminate; apply Hskip; reflexivity.
Qed.

Lemma parseArgs_limit (args : list string) (f fl : Flags) :
  parseArgs args f = Parsed_run fl ->
  (0 < limit f -> 0 < limit fl) /\
  ((forall a, In a args -> isLimitFlag a = false) -> limit fl = limit f).
Proof. apply (parseArgs_limit_upto (length args)). lia. Qed.

(** X13.  The limit read from the command line.  When the flag loop ends
    without [usage] or [fatal], the limit is at least 1: a value that
    [strconv.Atoi] rejects, zero, and a negative value are fatal.  It is
    the default 10 when no argument is one of [-n], [--n], [--n=...],
    [-n=...], [--limit=...], [-limit=...].  The spelled-out [--limit]
    without ["="] is none of these: it is skipped like any unknown
    argument, and the value after it is read as an argument of its own. *)
Theorem limit_flag_parsing (args : list string) (fl : Flags) :
  parseArgs args defaults = Parsed_run fl ->
  1 <= limit fl /\
  ((forall a, In a args -> isLimitFlag a = false) -> limit fl = 10) /\
  (forall val rest f,
     parseArgs ("--limit" :: val :: rest) f = parseArgs (val :: rest) f) /\
  (forall val rest f,
     (forall v, Atoi val = Some v -> v <= 0) ->
     parseArgs ("-n" :: val :: rest) f = Parsed_fatal ("invalid -n value: " +:+ val)) /\
  (forall f, parseArgs ["-n"] f = Parsed_fatal "-n flag requires a value").
Proof.
  intros Hp. destruct (parseArgs_limit args defaults fl Hp) as [Hpos Hsame].
  split; [cbn [limit defaults] in Hpos; lia|].
  split; [exact Hsame|]. split; [reflexivity|]. split; [|reflexivity].
  intros val rest f Hbad. cbn [parseArgs].
  change (isLimitFlag "-n") with true. change (hasEquals "-n") with false.
  cbv iota. unfold limitValue.
  destruct (Atoi val) as [v|]; [|reflexivity].
  specialize (Hbad v eq_refl).
  destruct (Z.leb_spec v 0); [reflexivity | lia].
Qed.

Lemma isGitRepo_run (o : Oracle) (w : World) :
  run o isGitRepo w = (saysInside (o (calls w) insideWorkTree), ran insideWorkTree w).
Proof.
  unfold isGitRepo, cmdOutput, saysInside, ran. cbn [bind run].
  destruct (failure _); reflexivity.
Qed.

Lemma truncate_take (n : Z) (bs : list Branch) :
  0 < n ->
  truncate n bs = take (Z.to_nat n) bs /\
  Z.of_nat (length (truncate n bs)) <= n.
Proof.
  intros Hn. unfold truncate.
  destruct (Z.ltb_spec n (Z.of_nat (length bs))).
  - split; [reflexivity|]. rewrite length_take. lia.
  - split; [|lia]. symmetry. apply take_ge. lia.
Qed.

(** X14.  Where [main] stops early.  When the flag loop ends in [usage]
    or in [fatal], no process is run at all: [-h] works outside a
    repository, and a bad [-n] is reported before the repository is
    looked at.  When [git rev-parse --is-inside-work-tree] fails or does
    not answer [true], that query is the only process run and [main]
    exits with "not a git repository...", even with [--fetch].  When the
    ranking fails, [main] exits with the ranking's error. *)
Theorem main_stops_early (args : list string) (isTerminal : bool)
    (clock : nat -> Z) (o : Oracle) (w : World) :
  (parseArgs args defaults = Parsed_usage ->
   run o (main args isTerminal clock) w = (Usage, w)) /\
  (forall msg, parseArgs args defaults = Parsed_fatal msg ->
               run o (main args isTerminal clock) w = (Exit1 msg, w)) /\
  (forall f, parseArgs args defaults = Parsed_run f ->
             saysInside (o (calls w) insideWorkTree) = false ->
             run o (main args isTerminal clock) w
             = (Exit1 "not a git repository (or any of the parent directories): .git",
                ran insideWorkTree w)) /\
  (forall f e, parseArgs args defaults = Parsed_run f ->
               saysInside (o (calls w) insideWorkTree) = true ->
               fst (run o getRecentBranches (beforeRanking f w)) = Err e ->
               fst (run o (main args isTerminal clock) w) = Exit1 e).
Proof.
  split; [|split; [|split]].
  - intros Hp. unfold main. rewrite Hp. reflexivity.
  - intros msg Hp. unfold main. rewrite Hp. reflexivity.
  - intros f Hp Hout. unfold main. rewrite Hp.
    rewrite run_bind, isGitRepo_run. cbn [fst snd]. rewrite Hout. reflexivity.
  - intros f e Hp Hin Hr. unfold main. rewrite Hp.
    rewrite run_bind, isGitRepo_run. cbn [fst snd]. rewrite Hin. cbn [negb].
    rewrite run_bind.
    assert (Hw : snd (run o (if doFetch f then gitFetchAll else Ret None)
                        (ran insideWorkTree w)) = beforeRanking f w).
    { unfold beforeRanking. destruct (doFetch f); reflexivity. }
    rewrite Hw, run_bind, Hr. reflexivity.
Qed.

Lemma imap_row_names (g : nat -> Branch -> Row) (l : list Branch) :
  (forall i b, row_name (g i b) = Name b) ->
  map row_name (imap g l) = map Name l.
Proof.
  revert g. induction l as [|b l IH]; intros g Hg; [reflexivity|].
  cbn [imap map]. rewrite Hg. f_equal. apply IH. intros i b'. apply Hg.
Qed.

(** X15.  What [main] shows.  In a repository, when the ranking returns a
    list, [main] shows its first [limit] records, the limit being at
    least 1: at most [limit] records, the most recent ones, in ranking
    order.  [--json] decides first (it wins over [--tui]); otherwise the
    interactive program is started when [--tui] is given or standard
    output is a terminal and [--no-tui] is not given, and its first view
    is exactly those records; otherwise the plain listing has one line
    per record.  With [--fetch] the outcome of the fetch plays no part. *)
Theorem main_shows_limited_ranking (args : list string) (isTerminal : bool)
    (clock : nat -> Z) (o : Oracle) (w : World) (f : Flags) (ranked : list Branch) :
  parseArgs args defaults = Parsed_run f ->
  saysInside (o (calls w) insideWorkTree) = true ->
  fst (run o getRecentBranches (beforeRanking f w)) = Ok ranked ->
  let shown := take (Z.to_nat (limit f)) ranked in
  fst (run o (main args isTerminal clock) w) = present_ f isTerminal clock shown /\
  1 <= limit f /\
  Z.of_nat (length shown) <= limit f /\
  filtered (initialModel shown) = shown /\
  (forall rows, present_ f isTerminal clock shown = Plain rows ->
                map row_name rows = map Name shown).
Proof.
  intros Hp Hin Hr shown.
  destruct (parseArgs_limit args defaults f Hp) as [Hpos _].
  assert (Hlim : 0 < limit f) by (apply Hpos; reflexivity).
  destruct (truncate_take (limit f) ranked Hlim) as [Htake Hlen].
  split; [|split; [lia|split; [|split]]].
  - unfold main. rewrite Hp.
    rewrite run_bind, isGitRepo_run. cbn [fst snd]. rewrite Hin. cbn [negb].
    rewrite run_bind.
    assert (Hw : snd (run o (if doFetch f then gitFetchAll else Ret None)
                        (ran insideWorkTree w)) = beforeRanking f w).
    { unfold beforeRanking. destruct (doFetch f); reflexivity. }
    rewrite Hw, run_bind, Hr. cbv zeta. rewrite Htake. fold shown.
    unfold present_. destruct (jsonOut f); [reflexivity|].
    rewrite andb_true_r.
    destruct (forceTUI f || _); reflexivity.
  - subst shown. rewrite <- Htake. exact Hlen.
  - apply initialModel_sorted_view, StronglySorted_take.
    apply (getRecentBranches_sorted o (beforeRanking f w)), Hr.
  - intros rows. unfold present_.
    destruct (jsonOut f); [discriminate|].
    destruct (forceTUI f || _); [discriminate|].
    intros [= <-]. apply imap_row_names. reflexivity.
Qed.

End MainFacts.

(** ** Refresh, cursor keys, dates *)

Section MoreSession.
Context `{GoLib}.
Import Time.

(** X16.  A refresh in a fresh session.  In the session opened on any
    list of branches (for instance the first [limit] records of an
    earlier ranking), the key [r] with a ranking that succeeds makes the
    whole new ranking the snapshot and, in the same order, the view: the
    limit of the command line is not applied again.  The cursor stays
    on the first row and the status is "refreshed". *)
Theorem refresh_shows_whole_ranking (o : Oracle) (w : World)
    (shown ranked : list Branch) :
  fst (run o getRecentBranches w) = Ok ranked ->
  let m' := fst (fst (run o (Update (initialModel shown) (KeyMsg "r")) w)) in
  branches m' = ranked /\ filtered m' = ranked /\
  cursor m' = 0 /\ status m' = "refreshed".
Proof.
  intros Hr m'.
  assert (Hm : m' = set_status
                      (applySortFilter (set_branches (initialModel shown) ranked))
                      "refreshed").
  { subst m'. rewrite Update_keySwitch by reflexivity. unfold keySwitch. keys.
    unfold reload. rewrite run_bind, Hr. reflexivity. }
  destruct (initialModel_fields shown) as (_ & _ & Hc & Hs & Hk & Hd & _).
  set (m0 := set_branches (initialModel shown) ranked) in *.
  destruct (applySortFilter_sort m0) as (_ & _ & _ & Hb & _).
  assert (Hf : filtered (applySortFilter m0) = ranked).
  { rewrite applySortFilter_view.
    replace (search m0) with "" by (symmetry; exact Hs).
    change (String.eqb "" "") with true. cbv iota.
    replace (SliceStable (viewLess m0) (branches m0))
      with (SliceStable byTimeDesc ranked).
    - apply SliceStable_sorted_id, (getRecentBranches_sorted o w), Hr.
    - unfold viewLess. replace (sortBy m0) with "time" by (symmetry; exact Hk).
      replace (sortDesc m0) with true by (symmetry; exact Hd). reflexivity. }
  rewrite Hm. cbn [branches filtered cursor status set_status].
  split; [exact Hb|]. split; [exact Hf|]. split; [|reflexivity].
  rewrite applySortFilter_eq. cbn [cursor set_cursor].
  replace (cursor m0) with 0 by (symmetry; exact Hc).
  unfold clampCursor. z_cases; lia.
Qed.

Lemma set_cursor_back (m : model) (c : Z) :
  set_cursor (set_cursor m c) (cursor m) = m.
Proof. destruct m. reflexivity. Qed.

(** X17.  The cursor keys.  With the cursor inside the view: [j] then [k]
    gives back the same model unless the cursor is on the last row, where
    [j] changes nothing; [k] then [j] gives back the same model unless
    the cursor is on the first row, where [k] changes nothing; [G] puts
    the cursor on the last row and [g] on the first.  None of these keys
    runs a process, and they act the same while a confirmation is
    pending. *)
Theorem cursor_keys_round_trip (o : Oracle) (w : World) (m : model) :
  cursor_ok m -> filtered m <> [] ->
  let last := Z.of_nat (length (filtered m)) - 1 in
  let press keys := run o (dispatchAll m (map KeyMsg keys)) w in
  (cursor m < last -> press ["j"; "k"] = (m, w)) /\
  (cursor m = last -> press ["j"] = (m, w)) /\
  (0 < cursor m -> press ["k"; "j"] = (m, w)) /\
  (cursor m = 0 -> press ["k"] = (m, w)) /\
  press ["G"] = (set_cursor m last, w) /\
  press ["g"] = (set_cursor m 0, w).
Proof.
  intros [_ Hok] Hne last press. specialize (Hok Hne).
  assert (Hlen : 0 < Z.of_nat (length (filtered m))) by lia.
  assert (Hd : forall (m0 : model) (s : string) m1,
             Update m0 (KeyMsg s) = Ret (m1, CmdNil) -> dispatch m0 (KeyMsg s) = Ret m1).
  { intros m0 s m1 HU. unfold dispatch. rewrite HU. reflexivity. }
  assert (Hj : forall m0 : model,
             dispatch m0 (KeyMsg "j")
             = Ret (if cursor m0 <? Z.of_nat (length (filtered m0)) - 1
                    then set_cursor m0 (cursor m0 + 1) else m0)).
  { intros m0. apply Hd. rewrite Update_keySwitch by reflexivity.
    unfold keySwitch. keys. reflexivity. }
  assert (Hk : forall m0 : model,
             dispatch m0 (KeyMsg "k")
             = Ret (if 0 <? cursor m0 then set_cursor m0 (cursor m0 - 1) else m0)).
  { intros m0. apply Hd. rewrite Update_keySwitch by reflexivity.
    unfold keySwitch. keys. reflexivity. }
  subst press. cbn [map dispatchAll].
  repeat match goal with |- _ /\ _ => split end.
  - intros Hlt. rewrite Hj. cbn [bind]. rewrite Hk. cbn [bind run].
    fold last. destruct (Z.ltb_spec (cursor m) last); [|lia].
    cbn [cursor set_cursor]. destruct (Z.ltb_spec 0 (cursor m + 1)); [|lia].
    replace (cursor m + 1 - 1) with (cursor m) by lia.
    rewrite set_cursor_back. reflexivity.
  - intros Heq. rewrite Hj. cbn [bind run]. fold last.
    destruct (Z.ltb_spec (cursor m) last); [lia | reflexivity].
  - intros Hgt. rewrite Hk. cbn [bind]. rewrite Hj. cbn [bind run].
    destruct (Z.ltb_spec 0 (cursor m)); [|lia].
    cbn [cursor filtered set_cursor]. fold last.
    destruct (Z.ltb_spec (cursor m - 1) last); [|lia].
    replace (cursor m - 1 + 1) with (cursor m) by lia.
    rewrite set_cursor_back. reflexivity.
  - intros Heq. rewrite Hk. cbn [bind run].
    destruct (Z.ltb_spec 0 (cursor m)); [lia | reflexivity].
  - rewrite (Hd m "G" (set_cursor m last)); [reflexivity|].
    rewrite Update_keySwitch by reflexivity. unfold keySwitch. keys.
    destruct (Z.ltb_spec 0 (Z.of_nat (length (filtered m)))); [reflexivity | lia].
  - rewrite (Hd m "g" (set_cursor m 0)); [reflexivity|].
    rewrite Update_keySwitch by reflexivity. unfold keySwitch. keys. reflexivity.
Qed.

(** X18.  An activity time that is not in the past.  For a time [t] less
    than a minute before [now], equal to it or after it by any amount
    (a clock that runs behind, a commit dated in the future), the age
    shown is "just now". *)
Theorem humanizeTime_not_past (now t : Z) :
  now < t + Minute -> humanizeTime now t = "just now".
Proof.
  intros Hlt. unfold humanizeTime.
  assert (Hsub : Sub now t < Minute).
  { unfold Sub, minDuration, maxDuration.
    assert (HM : Minute = 60000000000) by reflexivity. lia. }
  destruct (Z.ltb_spec (Sub now t) Minute); [reflexivity | lia].
Qed.

Lemma tryLayouts_None (ls : list string) (s : string) :
  tryLayouts ls s = None <->
  forall layout, In layout ls -> time_Parse layout (TrimSpace s) = None.
Proof.
  induction ls as [|l ls IH]; cbn [tryLayouts].
  - split; [intros _ layout [] | reflexivity].
  - destruct (time_Parse l (TrimSpace s)) as [t|] eqn:Hp.
    + split; [discriminate|]. intros Hall.
      rewrite (Hall l) in Hp by (left; reflexivity). discriminate.
    + rewrite IH. split.
      * intros Hall layout [<-|Hin]; [exact Hp | apply Hall, Hin].
      * intros Hall layout Hin. apply Hall. right. exact Hin.
Qed.

Lemma tryLayouts_Some (ls : list string) (s : string) (t : Z) :
  tryLayouts ls s = Some t ->
  exists layout, In layout ls /\ time_Parse layout (TrimSpace s) = Some t.
Proof.
  induction ls as [|l ls IH]; cbn [tryLayouts]; [discriminate|].
  destruct (time_Parse l (TrimSpace s)) as [t'|] eqn:Hp.
  - intros [= <-]. exists l. split; [left; reflexivity | exact Hp].
  - intros Ht. destruct (IH Ht) as (layout & Hin & Hl).
    exists layout. split; [right; exact Hin | exact Hl].
Qed.

(** X19.  Which tip dates are accepted.  [parseGitDate] trims the string;
    a time it returns is one that one of its four layouts gives for the
    trimmed string, and it fails exactly when none of the four accepts
    it, with an error that quotes the string untrimmed.  For the tip
    date of a branch, RFC 3339 is tried first and its value wins; since
    RFC 3339 is also the last of the four layouts, the tip date is
    rejected exactly when [parseGitDate] rejects it, with the same
    error. *)
Theorem tip_date_acceptance (s : string) :
  (forall t, parseGitDate s = Ok t ->
             exists layout, In layout layouts /\
                            time_Parse layout (TrimSpace s) = Some t) /\
  (forall e, parseGitDate s = Err e <->
             (forall layout, In layout layouts ->
                             time_Parse layout (TrimSpace s) = None) /\
             e = "unrecognized date: " +:+ s) /\
  (forall t, time_Parse RFC3339 (TrimSpace s) = Some t -> parseCommitTime s = Ok t) /\
  (forall e, parseCommitTime s = Err e <-> parseGitDate s = Err e).
Proof.
  assert (Hgit : forall e, parseGitDate s = Err e <->
             (forall layout, In layout layouts ->
                             time_Parse layout (TrimSpace s) = None) /\
             e = "unrecognized date: " +:+ s).
  { intros e. unfold parseGitDate.
    destruct (tryLayouts layouts s) as [t|] eqn:Ht.
    - split; [discriminate|]. intros [Hall _].
      pose proof (proj2 (tryLayouts_None layouts s) Hall) as Hn. congruence.
    - pose proof (proj1 (tryLayouts_None layouts s) Ht) as Hall. split.
      + intros [= <-]. split; [exact Hall | reflexivity].
      + intros [_ ->]. reflexivity. }
  split; [|split; [exact Hgit|split]].
  - intros t. unfold parseGitDate.
    destruct (tryLayouts layouts s) as [t'|] eqn:Ht; [|discriminate].
    intros [= <-]. apply tryLayouts_Some, Ht.
  - intros t Ht. unfold parseCommitTime. rewrite Ht. reflexivity.
  - intros e. unfold parseCommitTime.
    destruct (time_Parse RFC3339 (TrimSpace s)) as [t|] eqn:Hp; [|reflexivity].
    split; [discriminate|]. intros He. destruct (proj1 (Hgit e) He) as [Hall _].
    rewrite (Hall RFC3339) in Hp; [discriminate|].
    unfold layouts. simpl. auto.
Qed.

End MoreSession.

(** ** The further properties on the concrete repository *)

Section MoreRuns.
Import Sample.

Lemma ranked_run :
  fst (run Scenario.git (@getRecentBranches lib) emptyWorld) = Ok Scenario.ranked.
Proof. vm_compute. reflexivity. Defined.

Lemma current_flag_follows_head_witness :
  fst (run Scenario.git (@getRecentBranches lib) emptyWorld) = Ok Scenario.ranked /\
  forall b, In b Scenario.ranked -> (IsCurrent b = true <-> Name b = "main").
Proof.
  split; [exact ranked_run|].
  exact (proj1 (@current_flag_follows_head lib Scenario.git emptyWorld
                  Scenario.ranked ranked_run)).
Defined.

Lemma initial_view_is_ranking_witness :
  fst (run Scenario.git (@getRecentBranches lib) emptyWorld) = Ok Scenario.ranked /\
  filtered (@initialModel lib (take 1 Scenario.ranked)) = take 1 Scenario.ranked.
Proof.
  split; [exact ranked_run|].
  exact (proj1 (proj2 (@initial_view_is_ranking lib Scenario.git emptyWorld
                         Scenario.ranked 1 ranked_run))).
Defined.

Lemma view_ok_three : @view_ok lib Scenario.three.
Proof. vm_compute. reflexivity. Defined.

Lemma view_never_stale_witness :
  @view_ok lib Scenario.three /\
  @view_ok lib
    (fst (run Scenario.git (@dispatch lib Scenario.three (KeyMsg "s")) emptyWorld)).
Proof.
  split; [exact view_ok_three|].
  exact (proj2 (proj2 (@view_never_stale lib [] Scenario.three (KeyMsg "s")
                         Scenario.git emptyWorld view_ok_three))).
Defined.

Lemma view_sorted_by_setting_witness :
  search Scenario.three = "" /\
  StronglySorted (inOrder Scenario.three)
    (filtered (@applySortFilter lib Scenario.three)).
Proof.
  split; [reflexivity|].
  exact (proj1 (proj2 (@view_sorted_by_setting lib Scenario.three eq_refl))).
Defined.

Lemma searching_active : search MainScenario.searching <> "".
Proof. vm_compute. discriminate. Defined.

Lemma filtered_view_from_snapshot_witness :
  search MainScenario.searching <> "" /\
  forall b, In b (filtered (@applySortFilter lib MainScenario.searching)) ->
            In b (branches MainScenario.searching).
Proof.
  split; [exact searching_active|].
  intros b Hb.
  exact (proj1 (proj1 (@filtered_view_from_snapshot lib MainScenario.searching
                         searching_active) b Hb)).
Defined.

Lemma confirmed_delete_outcomes_witness :
  atCursor Scenario.deletingTopic = Some Scenario.topic /\
  status (fst (fst (run Scenario.git
                      (@Update lib Scenario.deletingTopic (KeyMsg "y")) emptyWorld)))
  = "deleted topic".
Proof.
  split; [reflexivity|].
  destruct (proj1 (@confirmed_delete_outcomes lib Scenario.git emptyWorld
                     Scenario.deletingTopic Scenario.topic
                     eq_refl eq_refl eq_refl eq_refl) eq_refl) as [Hrun _].
  rewrite Hrun. vm_compute. reflexivity.
Defined.

Lemma limit_flag_parsing_witness :
  @parseArgs MainScenario.conv MainScenario.oneLine defaults
  = Parsed_run MainScenario.oneLineFlags /\
  1 <= limit MainScenario.oneLineFlags.
Proof.
  assert (Hp : @parseArgs MainScenario.conv MainScenario.oneLine defaults
               = Parsed_run MainScenario.oneLineFlags) by (vm_compute; reflexivity).
  split; [exact Hp|].
  exact (proj1 (@limit_flag_parsing MainScenario.conv MainScenario.oneLine
                  MainScenario.oneLineFlags Hp)).
Defined.

Lemma main_shows_limited_ranking_witness :
  exists rows,
    fst (run MainScenario.inRepo
           (@main lib MainScenario.conv MainScenario.oneLine true (fun _ => 0))
           emptyWorld) = Plain rows /\
    map row_name rows = ["feature"].
Proof.
  destruct (@main_shows_limited_ranking lib MainScenario.conv MainScenario.oneLine
              true (fun _ => 0) MainScenario.inRepo emptyWorld
              MainScenario.oneLineFlags Scenario.ranked)
    as (Hrun & _ & _ & _ & Hrows).
  - vm_compute. reflexivity.
  - vm_compute. reflexivity.
  - vm_compute. reflexivity.
  - exists (imap (fun _ b => plainRow 0 b)
              (take (Z.to_nat (limit MainScenario.oneLineFlags)) Scenario.ranked)).
    split; [exact Hrun|].
    rewrite (Hrows _ eq_refl). vm_compute. reflexivity.
Defined.

Lemma refresh_shows_whole_ranking_witness :
  fst (run Scenario.git (@getRecentBranches lib) emptyWorld) = Ok Scenario.ranked /\
  filtered (fst (fst (run Scenario.git
                        (@Update lib (@initialModel lib [Scenario.main]) (KeyMsg "r"))
                        emptyWorld)))
  = Scenario.ranked.
Proof.
  split; [exact ranked_run|].
  exact (proj1 (proj2 (@refresh_shows_whole_ranking lib Scenario.git emptyWorld
                         [Scenario.main] Scenario.ranked ranked_run))).
Defined.

Lemma three_not_empty : filtered Scenario.three <> [].
Proof. vm_compute. discriminate. Defined.

Lemma cursor_keys_round_trip_witness :
  cursor Scenario.three < Z.of_nat (length (filtered Scenario.three)) - 1 /\
  run Scenario.git
    (@dispatchAll lib Scenario.three (map KeyMsg ["j"; "k"])) emptyWorld
  = (Scenario.three, emptyWorld).
Proof.
  assert (Hlt : cursor Scenario.three
                < Z.of_nat (length (filtered Scenario.three)) - 1)
    by (vm_compute; reflexivity).
  split; [exact Hlt|].
  exact (proj1 (@cursor_keys_round_trip lib Scenario.git emptyWorld Scenario.three
                  cursor_ok_three three_not_empty) Hlt).
Defined.

Lemma humanizeTime_not_past_witness :
  Scenario.day "2024-01-01T00:00:00Z"
  < Scenario.day "2024-06-01T00:00:00Z" + Time.Minute /\
  humanizeTime (Scenario.day "2024-01-01T00:00:00Z")
               (Scenario.day "2024-06-01T00:00:00Z") = "just now".
Proof.
  assert (Hlt : Scenario.day "2024-01-01T00:00:00Z"
                < Scenario.day "2024-06-01T00:00:00Z" + Time.Minute)
    by (vm_compute; reflexivity).
  split; [exact Hlt|].
  exact (humanizeTime_not_past _ _ Hlt).
Defined.

Lemma ranking_call_trace_witness :
  calls (snd (run Scenario.git (@getRecentBranches lib) emptyWorld))
  = [reflogLatest "feature"; reflogLatest "main";
     forEachRefRemotes; revParseHead; forEachRefHeads].
Proof.
  rewrite (proj1 (proj2 (@ranking_call_trace lib Scenario.git emptyWorld)) eq_refl).
  vm_compute. reflexivity.
Defined.

Lemma remote_times_from_listing_witness :
  Scenario.remotes !! "origin/feature" = Some (Scenario.day "2024-05-01T00:00:00Z").
Proof.
  apply (proj2 (proj2 (@remote_times_from_listing lib Scenario.git emptyWorld))
           eq_refl []
           ("origin/feature" +:+ tabS +:+ "2024-05-01T00:00:00Z") []).
  - vm_compute. reflexivity.
  - exists "origin/feature", "2024-05-01T00:00:00Z".
    split; [vm_compute; reflexivity|]. split; [vm_compute; reflexivity|].
    left. vm_compute. reflexivity.
  - intros l t' [].
Defined.

Lemma reflog_selector_date_witness :
  reflogDate ("feature" +:+ "@{" +:+ "2024-06-01T00:00:00Z" +:+ "}")
  = Some "2024-06-01T00:00:00Z".
Proof.
  apply (proj1 (@reflog_selector_date lib Scenario.git emptyWorld "feature")).
  - vm_compute. reflexivity.
  - discriminate.
Defined.

Lemma update_process_discipline_witness :
  calls (snd (run Scenario.git (@Update lib Scenario.deletingTopic (KeyMsg "x"))
                emptyWorld)) = [].
Proof.
  apply (proj2 (@update_process_discipline lib Scenario.deletingTopic (KeyMsg "x")
                  Scenario.git emptyWorld)).
  intros s [= <-]. split.
  - simpl. intros [Hs|[Hs|[Hs|[]]]]; discriminate Hs.
  - simpl. intros [Hs|[Hs|[]]]; discriminate Hs.
Defined.

Lemma main_stops_early_witness :
  run (fun _ _ => mkResponse "" (Some "exit status 128"))
      (@main lib MainScenario.conv ["--fetch"] true (fun _ => 0)) emptyWorld
  = (Exit1 "not a git repository (or any of the parent directories): .git",
     ran insideWorkTree emptyWorld).
Proof.
  apply (proj1 (proj2 (proj2 (@main_stops_early lib MainScenario.conv ["--fetch"]
                                true (fun _ => 0)
                                (fun _ _ => mkResponse "" (Some "exit status 128"))
                                emptyWorld)))
           (mkFlags 10 false true false false)).
  - vm_compute. reflexivity.
  - reflexivity.
Defined.

Lemma tip_date_acceptance_witness :
  @parseCommitTime lib "yesterday" = Err "unrecognized date: yesterday".
Proof.
  apply (proj2 (proj2 (proj2 (proj2 (@tip_date_acceptance lib "yesterday"))) _)).
  apply (proj2 (proj1 (proj2 (@tip_date_acceptance lib "yesterday")) _)).
  split; [|reflexivity].
  intros layout Hin. simpl in Hin.
  destruct Hin as [<-|[<-|[<-|[<-|[]]]]]; vm_compute; reflexivity.
Defined.

End MoreRuns.

(** * The activity time of every branch, and the delete of the current one *)

Section ActivityTime.
Context `{GoLib}.
Import Time.

Lemma substring_all (s : string) : String.substring 0 (String.length s) s = s.
Proof. induction s as [|a s IH]; simpl; [reflexivity | rewrite IH; reflexivity]. Qed.

(** [stripPrefix] is [strings.HasPrefix] followed by [strings.TrimPrefix]. *)
Lemma stripPrefix_spec (p s : string) :
  stripPrefix p s = if HasPrefix s p then Some (TrimPrefix s p) else None.
Proof.
  revert s. induction p as [|a p IH]; intros s.
  - destruct s as [|b s]; [reflexivity|].
    unfold TrimPrefix, HasPrefix.
    cbn [stripPrefix String.prefix String.length Nat.sub String.substring].
    rewrite substring_all. reflexivity.
  - destruct s as [|b s].
    + reflexivity.
    + unfold TrimPrefix, HasPrefix.
      cbn [stripPrefix String.prefix String.length String.substring Nat.sub].
      destruct (ascii_dec a b) as [->|Hne].
      * rewrite Ascii.eqb_refl, IH. unfold TrimPrefix, HasPrefix.
        destruct (String.prefix p s); reflexivity.
      * apply Ascii.eqb_neq in Hne. rewrite Hne. reflexivity.
Qed.

(** The lookup of the loop of [getRecentBranches] is the third candidate. *)
Lemma upstream_is_candidate (remoteTimes : gmap string Z) (upstreamRaw : string) :
  upstreamTime remoteTimes (normalizeUpstream upstreamRaw)
  = upstreamTipOf remoteTimes upstreamRaw.
Proof.
  unfold upstreamTime, upstreamTipOf, trackedRef, normalizeUpstream. cbv zeta.
  destruct (String.eqb_spec (TrimSpace upstreamRaw) "") as [Heq|Hne].
  - rewrite Heq. reflexivity.
  - rewrite stripPrefix_spec.
    destruct (HasPrefix (TrimSpace upstreamRaw) "refs/remotes/").
    + destruct (String.eqb (TrimPrefix (TrimSpace upstreamRaw) "refs/remotes/") "");
        reflexivity.
    + destruct (String.eqb (TrimSpace upstreamRaw) ""); reflexivity.
Qed.

Lemma maxOf_candidates (tip : Z) (reflog upstream : option Z) :
  maxOf (maxOf tip (present reflog)) (present upstream)
  = activityTime (mkCandidates tip reflog upstream).
Proof.
  unfold activityTime, maxOf, present.
  destruct reflog as [a|], upstream as [b|]; simpl; lia.
Qed.

Lemma activityTime_greatest (c : Candidates) :
  In (activityTime c) (tipTime c :: present (localWork c) ++ present (upstreamTip c)) /\
  Forall (fun t => t <= activityTime c)
         (tipTime c :: present (localWork c) ++ present (upstreamTip c)).
Proof.
  destruct c as [tip [a|] [b|]]; unfold activityTime, maxOf, present; simpl.
  - split; [lia|]. repeat constructor; lia.
  - split; [lia|]. repeat constructor; lia.
  - split; [lia|]. repeat constructor; lia.
  - split; [lia|]. repeat constructor; lia.
Qed.

(** The records the loop appends are the branches of the listing, each
    with the maximum of its candidates. *)
Lemma scanBranches_candidates (o : Oracle) (cb : string) (rt : gmap string Z)
    (lines : list string) :
  forall acc w brs,
    fst (run o (scanBranches cb rt lines acc) w) = Ok brs ->
    exists new, brs = acc ++ new /\ Forall2 carries new (candidatesOf o rt lines w).
Proof.
  induction lines as [|line lines IH]; intros acc w brs.
  - simpl. intros [= <-]. exists []. rewrite app_nil_r. split; [reflexivity | constructor].
  - cbn [scanBranches candidatesOf].
    destruct (Split line tab) as [|name [|commit [|ts [|up extra]]]];
      try (intros Hr; apply (IH _ _ _ Hr)).
    destruct (parseCommitTime ts) as [tip|e]; [|discriminate].
    rewrite run_bind, reflog_run_world. intros Hr.
    destruct (IH _ _ _ Hr) as (new & -> & Hnew).
    eexists (_ :: new). split; [rewrite <- app_assoc; reflexivity|].
    constructor; [|exact Hnew].
    split; [reflexivity|]. eexists. split; [reflexivity|].
    cbn [CommitTime]. rewrite !laterOf_max, upstream_is_candidate.
    apply maxOf_candidates.
Qed.

Lemma Forall2_In_l {A B : Type} (R : A -> B -> Prop) (l : list A) (l' : list B) :
  Forall2 R l l' -> forall x, In x l -> exists y, In y l' /\ R x y.
Proof.
  induction 1 as [|a b l l' Hab _ IH]; intros x Hx; [destruct Hx|].
  destruct Hx as [<-|Hx].
  - exists b. split; [left; reflexivity | exact Hab].
  - destruct (IH x Hx) as (y & Hy & Hxy). exists y. split; [right; exact Hy | exact Hxy].
Qed.

(** C1.  When [getRecentBranches] returns a ranking, its records are, up
    to the order, the branches of the listing (one per line with four
    fields), and the activity time of each is the maximum of those of its
    three candidates that are present: the tip time its line gives, the
    time [getBranchReflogLatestTime] returns for it when it returns one,
    and the time the remote listing gives the ref it tracks when it
    tracks one that is listed.  The maximum is one of the present
    candidates and is not below any of them: an absent candidate does not
    enter it and the result is never below the tip time. *)
Theorem activity_time_is_max (o : Oracle) (w : World) (ranked : list Branch) :
  fst (run o getRecentBranches w) = Ok ranked ->
  let listing := stdout (o (calls w) forEachRefHeads) in
  let w2 := ran revParseHead (ran forEachRefHeads w) in
  let remoteTimes := fst (run o getRemoteBranchTimes w2) in
  let entries :=
    candidatesOf o remoteTimes (fst (scanLines listing)) (ran forEachRefRemotes w2) in
  (exists listed, Permutation listed ranked /\ Forall2 carries listed entries) /\
  (forall b, In b ranked -> exists entry, In entry entries /\ carries b entry) /\
  (forall c,
     In (activityTime c)
        (tipTime c :: present (localWork c) ++ present (upstreamTip c)) /\
     Forall (fun t => t <= activityTime c)
        (tipTime c :: present (localWork c) ++ present (upstreamTip c))).
Proof.
  intros Hrun listing w2 remoteTimes entries.
  assert (Hlisted : exists listed,
             Permutation listed ranked /\ Forall2 carries listed entries).
  { destruct (failure (o (calls w) forEachRefHeads)) as [e|] eqn:Hfail.
    { exfalso. revert Hrun. unfold getRecentBranches, cmdOutput.
      cbn [bind run]. rewrite Hfail. discriminate. }
    rewrite (getRecentBranches_unfold o w Hfail) in Hrun. cbv zeta in Hrun.
    cbn [fst] in Hrun.
    match type of Hrun with
    | context [fst (run o (scanBranches ?cb ?rt ?ls []) ?w3)] =>
        destruct (fst (run o (scanBranches cb rt ls []) w3)) as [brs|e] eqn:Hscan;
        [|discriminate]
    end.
    destruct (snd (scanLines _)); [discriminate|]. injection Hrun as <-.
    apply scanBranches_candidates in Hscan. destruct Hscan as (new & -> & Hnew).
    exists new. split; [apply SliceStable_perm | exact Hnew]. }
  split; [exact Hlisted|]. split; [|apply activityTime_greatest].
  destruct Hlisted as (listed & Hperm & Hall).
  intros b Hb. apply (Forall2_In_l _ _ _ Hall).
  apply (Permutation_in _ (Permutation_sym Hperm)), Hb.
Qed.

End ActivityTime.

Section CurrentBranch.
Context `{GoLib}.

Lemma Update_k (m : model) :
  0 < cursor m -> Update m (KeyMsg "k") = Ret (set_cursor m (cursor m - 1), CmdNil).
Proof.
  intros Hlt. rewrite Update_keySwitch by reflexivity. unfold keySwitch. keys.
  destruct (Z.ltb_spec 0 (cursor m)); [reflexivity | lia].
Qed.

Lemma afterReload_status (m : model) (r : result (list Branch)) :
  status (afterReload m r) = status m /\ confirming (afterReload m r) = confirming m.
Proof.
  destruct r as [brs|e]; [|split; reflexivity]. unfold afterReload.
  destruct (applySortFilter_sort (set_branches m brs)) as (_ & _ & _ & _ & Hs & Hc & _).
  rewrite Hs, Hc. split; reflexivity.
Qed.

(** The confirmed delete of a branch that is not marked current, when
    [git branch -d] succeeds. *)
Lemma dispatch_delete_safe (o : Oracle) (w : World) (m : model) (b : Branch) :
  confirming m = true -> action m = "delete" ->
  atCursor m = Some b -> IsCurrent b = false ->
  failure (o (calls w) ["git"; "branch"; "-d"; Name b]) = None ->
  fst (run o (dispatch m (KeyMsg "y")) w)
  = set_confirm
      (afterReload (set_status m ("deleted " +:+ Name b))
         (fst (run o getRecentBranches (ran ["git"; "branch"; "-d"; Name b] w))))
      false "".
Proof.
  intros Hc Ha Hb Hcur Hok.
  unfold dispatch, Update. rewrite Hc. keys. unfold confirmYes. rewrite Hb, Ha, Hcur.
  change (String.eqb "delete" "delete") with true. cbv iota.
  unfold gitDeleteBranch, runCmdSilent, cmdRun. cbn [bind run]. rewrite Hok.
  cbn [bind].
  change (mkWorld (["git"; "branch"; "-d"; Name b] :: calls w) (stdin w) (cells w))
    with (ran ["git"; "branch"; "-d"; Name b] w).
  unfold reloadQuietly. rewrite !run_bind.
  destruct (fst (run o getRecentBranches _)); reflexivity.
Qed.

(** C6.  What the code does with a delete asked for the current branch.
    After [x] on the current branch the status asks "delete <current>?
    y/N".  When [y] follows at once the delete is refused: the status is
    "cannot delete current branch", the confirmation is closed and no
    process is run.  But the branch to delete is not kept: [y] acts on
    the record under the cursor at that moment.  After [x] on the current
    branch, [k], then [y], with a branch not marked current on the row
    above, [git branch -d] is run on that branch, and when it succeeds
    the status is "deleted <that branch>": there is no refusal. *)
Theorem delete_current_follows_cursor (o : Oracle) (w : World) (m : model)
    (current other : Branch) :
  confirming m = false ->
  atCursor m = Some current -> IsCurrent current = true ->
  0 < cursor m ->
  filtered m !! Z.to_nat (cursor m - 1) = Some other ->
  IsCurrent other = false ->
  let safe := ["git"; "branch"; "-d"; Name other] in
  let asked := fst (run o (dispatch m (KeyMsg "x")) w) in
  let direct := run o (dispatchAll m [KeyMsg "x"; KeyMsg "y"]) w in
  let moved := run o (dispatchAll m [KeyMsg "x"; KeyMsg "k"; KeyMsg "y"]) w in
  (confirming asked = true /\ action asked = "delete" /\
   status asked = "delete " +:+ Name current +:+ "? y/N" /\
   atCursor asked = Some current) /\
  (status (fst direct) = "cannot delete current branch" /\
   confirming (fst direct) = false /\ snd direct = w) /\
  (exists later, calls (snd moved) = later ++ safe :: calls w) /\
  (failure (o (calls w) safe) = None ->
   status (fst moved) = "deleted " +:+ Name other /\
   confirming (fst moved) = false).
Proof.
  intros Hc Hcur Hiscur Hpos Hother Hnot safe asked direct moved.
  assert (Hlen : cursor m - 1 < Z.of_nat (length (filtered m))).
  { apply lookup_lt_Some in Hother. lia. }
  pose (mx := set_status (set_confirm m true "delete")
                ("delete " +:+ Name current +:+ "? y/N")).
  pose (mk := set_cursor mx (cursor mx - 1)).
  assert (Hx : dispatch m (KeyMsg "x") = Ret mx).
  { unfold dispatch. rewrite (Update_x m current Hc Hcur). reflexivity. }
  assert (Hk : dispatch mx (KeyMsg "k") = Ret mk).
  { unfold dispatch. rewrite (Update_k mx); [reflexivity | exact Hpos]. }
  assert (Hatx : atCursor mx = Some current) by exact Hcur.
  assert (Hatk : atCursor mk = Some other).
  { unfold atCursor, mk, mx. cbn [cursor filtered set_cursor set_status set_confirm].
    destruct (Z.leb_spec 0 (cursor m - 1)); [|lia].
    destruct (Z.ltb_spec (cursor m - 1) (Z.of_nat (length (filtered m)))); [|lia].
    exact Hother. }
  assert (Hy : dispatch mx (KeyMsg "y")
               = Ret (set_confirm (set_status mx "cannot delete current branch")
                        false "")).
  { unfold dispatch, Update. replace (confirming mx) with true by reflexivity. keys.
    unfold confirmYes. rewrite Hatx. replace (action mx) with "delete" by reflexivity.
    change (String.eqb "delete" "delete") with true. cbv iota. rewrite Hiscur.
    reflexivity. }
  subst asked direct moved. cbn [dispatchAll]. rewrite Hx. cbn [bind run fst snd].
  split; [repeat split; exact Hatx|].
  split; [rewrite Hy; cbn [bind run fst snd]; repeat split|].
  rewrite Hk. cbn [bind run fst snd]. rewrite !run_bind. cbn [run fst snd].
  split.
  - assert (Hexec : exists k, dispatch mk (KeyMsg "y") = Exec safe k).
    { unfold dispatch, Update. replace (confirming mk) with true by reflexivity. keys.
      unfold confirmYes. rewrite Hatk. replace (action mk) with "delete" by reflexivity.
      change (String.eqb "delete" "delete") with true. cbv iota. rewrite Hnot.
      unfold gitDeleteBranch, runCmdSilent, cmdRun. cbn [bind].
      eexists. reflexivity. }
    destruct Hexec as [k Hexec]. rewrite Hexec. apply run_first_call.
  - intros Hok.
    rewrite (dispatch_delete_safe o w mk other eq_refl eq_refl Hatk Hnot Hok).
    cbn [status confirming set_confirm].
    destruct (afterReload_status (set_status mk ("deleted " +:+ Name other))
                (fst (run o getRecentBranches (ran safe w)))) as [Hs _].
    split; [exact Hs | reflexivity].
Qed.

End CurrentBranch.

(** ** The two properties on the concrete repository *)

Section ClaimRuns.
Import Sample.

Lemma activity_time_is_max_witness :
  fst (run Scenario.git (@getRecentBranches lib) emptyWorld) = Ok Scenario.ranked /\
  @candidatesOf lib Scenario.git Scenario.remotes
    (fst (scanLines Scenario.listing))
    (ran forEachRefRemotes (ran revParseHead (ran forEachRefHeads emptyWorld)))
  = [ ("main",
       Some (mkCandidates (Scenario.day "2024-01-01T00:00:00Z") None None));
      ("feature",
       Some (mkCandidates (Scenario.day "2023-06-01T00:00:00Z")
               (Some (Scenario.day "2024-06-01T00:00:00Z"))
               (Some (Scenario.day "2024-05-01T00:00:00Z")))) ] /\
  forall b, In b Scenario.ranked ->
    exists entry,
      In entry [ ("main",
                  Some (mkCandidates (Scenario.day "2024-01-01T00:00:00Z") None None));
                 ("feature",
                  Some (mkCandidates (Scenario.day "2023-06-01T00:00:00Z")
                          (Some (Scenario.day "2024-06-01T00:00:00Z"))
                          (Some (Scenario.day "2024-05-01T00:00:00Z")))) ]
      /\ carries b entry.
Proof.
  split; [exact ranked_run|]. split; [vm_compute; reflexivity|].
  exact (proj1 (proj2 (@activity_time_is_max lib Scenario.git emptyWorld
                         Scenario.ranked ranked_run))).
Defined.

Lemma delete_current_follows_cursor_witness :
  fst (run Scenario.git (@dispatch lib Scenario.three (KeyMsg "G")) emptyWorld)
  = set_cursor Scenario.three 2 /\
  atCursor (set_cursor Scenario.three 2) = Some Scenario.main /\
  IsCurrent Scenario.main = true /\
  status (fst (run Scenario.git
                 (@dispatch lib (set_cursor Scenario.three 2) (KeyMsg "x")) emptyWorld))
  = "delete main? y/N" /\
  status (fst (run Scenario.git
                 (@dispatchAll lib (set_cursor Scenario.three 2)
                    [KeyMsg "x"; KeyMsg "k"; KeyMsg "y"]) emptyWorld))
  = "deleted topic" /\
  exists later,
    calls (snd (run Scenario.git
                  (@dispatchAll lib (set_cursor Scenario.three 2)
                     [KeyMsg "x"; KeyMsg "k"; KeyMsg "y"]) emptyWorld))
    = later ++ [["git"; "branch"; "-d"; "topic"]].
Proof.
  destruct (@delete_current_follows_cursor lib Scenario.git emptyWorld
              (set_cursor Scenario.three 2) Scenario.main Scenario.topic
              eq_refl eq_refl eq_refl eq_refl eq_refl eq_refl)
    as ((_ & _ & Hasked & _) & _ & Hcalls & Hdone).
  split; [vm_compute; reflexivity|].
  split; [reflexivity|]. split; [reflexivity|].
  split; [rewrite Hasked; reflexivity|].
  split; [rewrite (proj1 (Hdone eq_refl)); reflexivity | exact Hcalls].
Defined.

End ClaimRuns.
